(** * Plan-gated export and branding pipeline of the indexator frontend

    A shallow embedding of the route handlers and helpers of
    [frontend/src]: the plan-capability table, the logo path resolver,
    the audit export proxy, the brand-settings write, the Search
    Console disconnect and the auto-index toggle; then the logo-serving
    route, the brand-settings read and the logo deletion, the plan
    switch, the locale middleware and the uploads directory.

    JavaScript strings are Rocq strings holding the UTF-8 bytes of the
    text; database tables are finite maps keyed by the record id. *)

From Stdlib Require Import Ascii String NArith List Bool Lia.
From stdpp Require Import base option list gmap strings.

Import ListNotations.
Local Open Scope string_scope.

(** ** lib/plan-capabilities.ts *)

Module PlanCapabilities.

Inductive ExportFormat := pdf | html | docx.

#[export] Instance ExportFormat_eq_dec : EqDecision ExportFormat.
Proof. solve_decision. Defined.

Record t := {
  allowedExportFormats : list ExportFormat;
  canUseBranding : bool;
  showWatermark : bool;
  unlimitedAudits : bool;
}.

(** [planId === "agency"]: strict equality with a string literal is
    false for [null] and [undefined]. *)
Definition strict_eq (planId : option string) (lit : string) : bool :=
  match planId with
  | Some s => bool_decide (s = lit)
  | None => false
  end.

Definition getPlanCapabilities (planId : option string) : t :=
  let isAgency := strict_eq planId "agency" in
  let isFree := strict_eq planId "free" in
  {| allowedExportFormats := if isAgency then [pdf; html; docx] else [pdf];
     canUseBranding := isAgency;
     showWatermark := isFree;
     unlimitedAudits := isAgency |}.

(** The restricted default of every plan that is neither agency nor
    free. *)
Definition restricted : t :=
  {| allowedExportFormats := [pdf];
     canUseBranding := false;
     showWatermark := false;
     unlimitedAudits := false |}.

Lemma strict_eq_true planId lit :
  strict_eq planId lit = true <-> planId = Some lit.
Proof.
  destruct planId as [s|]; simpl.
  - rewrite bool_decide_eq_true. split; congruence.
  - split; discriminate.
Qed.

Lemma strict_eq_false planId lit :
  strict_eq planId lit = false <-> planId <> Some lit.
Proof.
  rewrite <- strict_eq_true. destruct (strict_eq planId lit); split; congruence.
Qed.

End PlanCapabilities.

(** ** The platform URL parser

    [new URL(input, "https://placeholder.local").pathname], as the URL
    standard's basic URL parser computes it.  Each state of the parser
    is a function on the input that is left; "decrease pointer" becomes
    a call on the same input, "increase pointer" a call on its tail.
    Only what decides the path is kept: credentials, port value, query
    and fragment are scanned and dropped.  The host parser (IDNA, IPv4,
    IPv6) is a parameter: the path depends on it only through success
    or failure. *)

Module URL.

Definition chars : string -> list ascii := list_ascii_of_string.

Definition code (c : ascii) : N := N_of_ascii c.

Definition in_range (lo hi : N) (c : ascii) : bool :=
  ((lo <=? code c) && (code c <=? hi))%N.

Definition is_c0_control_or_space (c : ascii) : bool := (code c <=? 32)%N.

Definition is_ascii_tab_or_newline (c : ascii) : bool :=
  ((code c =? 9) || (code c =? 10) || (code c =? 13))%N.

Definition is_ascii_upper_alpha := in_range 65 90.
Definition is_ascii_lower_alpha := in_range 97 122.
Definition is_ascii_digit := in_range 48 57.

Definition is_ascii_alpha (c : ascii) : bool :=
  is_ascii_upper_alpha c || is_ascii_lower_alpha c.

Definition is_ascii_alphanumeric (c : ascii) : bool :=
  is_ascii_digit c || is_ascii_alpha c.

Definition ascii_lowercase (c : ascii) : ascii :=
  if is_ascii_upper_alpha c then ascii_of_N (code c + 32) else c.

Definition is_char (lit c : ascii) : bool := Ascii.eqb c lit.

Definition is_slash := is_char "/".
Definition is_backslash := is_char "\".
Definition is_question := is_char "?".
Definition is_hash := is_char "#".

(** *** Percent-encode sets *)

Definition c0_control_percent_encode_set (c : ascii) : bool :=
  ((code c <=? 31) || (126 <? code c))%N.

(** C0 control set and space, the double quote (34), #, < and >. *)
Definition query_percent_encode_set (c : ascii) : bool :=
  c0_control_percent_encode_set c
  || is_char " " c || (code c =? 34)%N || is_char "#" c
  || is_char "<" c || is_char ">" c.

(** Query set and ?, ^, the backquote (96), { and }. *)
Definition path_percent_encode_set (c : ascii) : bool :=
  query_percent_encode_set c
  || is_char "?" c || is_char "^" c || (code c =? 96)%N
  || is_char "{" c || is_char "}" c.

Definition hex_digit (n : N) : ascii :=
  if (n <? 10)%N then ascii_of_N (48 + n) else ascii_of_N (55 + n).

Definition percent_encode_byte (c : ascii) : list ascii :=
  ["%"%char; hex_digit (code c / 16); hex_digit (code c mod 16)].

Definition utf8_percent_encode (set : ascii -> bool) (c : ascii) : list ascii :=
  if set c then percent_encode_byte c else [c].

(** *** Schemes and path segments *)

Inductive scheme_class := File | Special | NotSpecial.

Definition classify (scheme : list ascii) : scheme_class :=
  if bool_decide (scheme = chars "file") then File
  else if bool_decide (scheme ∈ map chars ["ftp"; "http"; "https"; "ws"; "wss"])
       then Special
       else NotSpecial.

Definition is_special (k : scheme_class) : bool :=
  match k with NotSpecial => false | _ => true end.

Definition is_file (k : scheme_class) : bool :=
  match k with File => true | _ => false end.

(** The base URL of the resolver, [https://placeholder.local]: its
    scheme and its path, the single empty segment. *)
Definition base_scheme : list ascii := chars "https".
Definition base_path : list (list ascii) := [[]].

Definition lower (l : list ascii) : list ascii := map ascii_lowercase l.

Definition is_single_dot (buf : list ascii) : bool :=
  bool_decide (lower buf ∈ map chars ["."; "%2e"]).

Definition is_double_dot (buf : list ascii) : bool :=
  bool_decide (lower buf ∈ map chars [".."; ".%2e"; "%2e."; "%2e%2e"]).

Definition is_windows_drive_letter (buf : list ascii) : bool :=
  match buf with
  | [a; b] => is_ascii_alpha a && (is_char ":" b || is_char "|" b)
  | _ => false
  end.

Definition is_normalized_windows_drive_letter (buf : list ascii) : bool :=
  match buf with
  | [a; b] => is_ascii_alpha a && is_char ":" b
  | _ => false
  end.

Definition normalize_drive_letter (buf : list ascii) : list ascii :=
  match buf with
  | a :: _ :: rest => a :: ":"%char :: rest
  | _ => buf
  end.

(** Shorten a URL's path. *)
Definition shorten (k : scheme_class) (path : list (list ascii)) : list (list ascii) :=
  match path with
  | [seg] =>
      if is_file k && is_normalized_windows_drive_letter seg then path else []
  | _ => removelast path
  end.

Inductive url_path :=
| Opaque (p : list ascii)
| Segments (segs : list (list ascii)).

(** *** Path state *)

(** What the path state does with its buffer when a segment ends:
    [slash] says whether the segment was ended by a separator (/, or \
    in a special URL) rather than by ?, # or the end of the input. *)
Definition end_segment (k : scheme_class) (path : list (list ascii))
    (buf : list ascii) (slash : bool) : list (list ascii) :=
  if is_double_dot buf then
    let path' := shorten k path in
    if slash then path' else path' ++ [[]]
  else if is_single_dot buf then
    if slash then path else path ++ [[]]
  else
    path ++ [if is_file k && bool_decide (path = []) && is_windows_drive_letter buf
             then normalize_drive_letter buf else buf].

Fixpoint path_state (k : scheme_class) (path : list (list ascii))
    (buf : list ascii) (rest : list ascii) : list (list ascii) :=
  match rest with
  | [] => end_segment k path buf false
  | c :: rest' =>
      if is_slash c || (is_special k && is_backslash c) then
        path_state k (end_segment k path buf true) [] rest'
      else if is_question c || is_hash c then
        end_segment k path buf false
      else
        path_state k path (buf ++ utf8_percent_encode path_percent_encode_set c) rest'
  end.

(** Opaque path state: a space is encoded only when ? or # follows. *)
Fixpoint opaque_path_state (rest : list ascii) : list ascii :=
  match rest with
  | [] => []
  | c :: rest' =>
      if is_question c || is_hash c then []
      else if is_char " " c then
        (match rest' with
         | d :: _ => if is_question d || is_hash d then chars "%20" else [c]
         | [] => [c]
         end) ++ opaque_path_state rest'
      else utf8_percent_encode c0_control_percent_encode_set c ++ opaque_path_state rest'
  end.

(** *** Preprocessing and the scheme *)

Fixpoint strip_leading (l : list ascii) : list ascii :=
  match l with
  | c :: l' => if is_c0_control_or_space c then strip_leading l' else l
  | [] => []
  end.

(** Leading and trailing C0 controls and spaces go, then every tab
    and newline. *)
Definition preprocess (input : list ascii) : list ascii :=
  List.filter (fun c => negb (is_ascii_tab_or_newline c))
    (rev (strip_leading (rev (strip_leading input)))).

(** Scheme state, entered with the first letter in [buf]: the scheme
    (lower-cased) and the input behind its colon, or [None] when the
    parser starts over in the no-scheme state. *)
Fixpoint scheme_state (buf : list ascii) (rest : list ascii)
    : option (list ascii * list ascii) :=
  match rest with
  | c :: rest' =>
      if is_ascii_alphanumeric c || is_char "+" c || is_char "-" c || is_char "." c
      then scheme_state (buf ++ [ascii_lowercase c]) rest'
      else if is_char ":" c then Some (buf, rest')
      else None
  | [] => None
  end.

Definition scheme_start_state (input : list ascii)
    : option (list ascii * list ascii) :=
  match input with
  | c :: rest => if is_ascii_alpha c then scheme_state [ascii_lowercase c] rest else None
  | [] => None
  end.

(** *** Authority, host and port *)

Section Parser.

(** [host_parser isOpaque buf]: whether the host parser accepts [buf]. *)
Variable host_parser : bool -> list ascii -> bool.

(** The code points that end an authority, a host or a port. *)
Definition ends_authority (k : scheme_class) (c : ascii) : bool :=
  is_slash c || is_question c || is_hash c || (is_special k && is_backslash c).

Definition path_start_state (k : scheme_class) (rest : list ascii) : url_path :=
  if is_special k then
    match rest with
    | c :: rest' =>
        if is_slash c || is_backslash c then Segments (path_state k [] [] rest')
        else Segments (path_state k [] [] rest)
    | [] => Segments (path_state k [] [] [])
    end
  else
    match rest with
    | [] => Segments []
    | c :: rest' =>
        if is_question c || is_hash c then Segments []
        else if is_slash c then Segments (path_state k [] [] rest')
        else Segments (path_state k [] [] rest)
    end.

(** The port is at most 65535. *)
Definition port_in_range (buf : list ascii) : bool :=
  (fold_left (fun n c => 10 * n + (code c - 48)) buf 0 <=? 65535)%N.

Fixpoint port_state (k : scheme_class) (buf : list ascii) (rest : list ascii)
    : option url_path :=
  match rest with
  | c :: rest' =>
      if is_ascii_digit c then port_state k (buf ++ [c]) rest'
      else if ends_authority k c then
        if port_in_range buf then Some (path_start_state k rest) else None
      else None
  | [] => if port_in_range buf then Some (path_start_state k []) else None
  end.

(** Host state at the end of the host. *)
Definition host_end (k : scheme_class) (buf : list ascii) (rest : list ascii)
    : option url_path :=
  if is_special k && bool_decide (buf = []) then None
  else if host_parser (negb (is_special k)) buf then Some (path_start_state k rest)
  else None.

Fixpoint host_state (k : scheme_class) (insideBrackets : bool)
    (buf : list ascii) (rest : list ascii) : option url_path :=
  match rest with
  | c :: rest' =>
      if is_char ":" c && negb insideBrackets then
        if bool_decide (buf = []) then None
        else if host_parser (negb (is_special k)) buf then port_state k [] rest'
        else None
      else if ends_authority k c then host_end k buf rest
      else
        host_state k
          (if is_char "[" c then true else if is_char "]" c then false
           else insideBrackets)
          (buf ++ [c]) rest'
  | [] => host_end k buf []
  end.

(** Authority state: [buf] is what was read since the last @. *)
Fixpoint authority_state (k : scheme_class) (atSignSeen : bool)
    (buf : list ascii) (rest : list ascii) : option url_path :=
  match rest with
  | c :: rest' =>
      if is_char "@" c then authority_state k true [] rest'
      else if ends_authority k c then
        if atSignSeen && bool_decide (buf = []) then None
        else host_state k false [] (buf ++ rest)
      else authority_state k atSignSeen (buf ++ [c]) rest'
  | [] =>
      if atSignSeen && bool_decide (buf = []) then None
      else host_state k false [] buf
  end.

Fixpoint special_authority_ignore_slashes_state (k : scheme_class)
    (rest : list ascii) : option url_path :=
  match rest with
  | c :: rest' =>
      if is_slash c || is_backslash c
      then special_authority_ignore_slashes_state k rest'
      else authority_state k false [] rest
  | [] => authority_state k false [] []
  end.

Definition special_authority_slashes_state (k : scheme_class)
    (rest : list ascii) : option url_path :=
  match rest with
  | c :: d :: rest' =>
      if is_slash c && is_slash d
      then special_authority_ignore_slashes_state k rest'
      else special_authority_ignore_slashes_state k rest
  | _ => special_authority_ignore_slashes_state k rest
  end.

(** *** Relative URLs: the scheme is the base's, https *)

Definition relative_slash_state (rest : list ascii) : option url_path :=
  match rest with
  | c :: rest' =>
      if is_slash c || is_backslash c
      then special_authority_ignore_slashes_state Special rest'
      else Some (Segments (path_state Special [] [] rest))
  | [] => Some (Segments (path_state Special [] [] []))
  end.

Definition relative_state (rest : list ascii) : option url_path :=
  match rest with
  | c :: rest' =>
      if is_slash c || is_backslash c then relative_slash_state rest'
      else if is_question c || is_hash c then Some (Segments base_path)
      else Some (Segments (path_state Special (shorten Special base_path) [] rest))
  | [] => Some (Segments base_path)
  end.

Definition special_relative_or_authority_state (rest : list ascii)
    : option url_path :=
  match rest with
  | c :: d :: rest' =>
      if is_slash c && is_slash d
      then special_authority_ignore_slashes_state Special rest'
      else relative_state rest
  | _ => relative_state rest
  end.

(** *** Other schemes *)

Definition path_or_authority_state (rest : list ascii) : option url_path :=
  match rest with
  | c :: rest' =>
      if is_slash c then authority_state NotSpecial false [] rest'
      else Some (Segments (path_state NotSpecial [] [] rest))
  | [] => Some (Segments (path_state NotSpecial [] [] []))
  end.

(** File host state at the end of the host; a drive letter stays in
    the buffer and goes to the path state. *)
Definition file_host_end (buf : list ascii) (rest : list ascii) : option url_path :=
  if is_windows_drive_letter buf then Some (Segments (path_state File [] buf rest))
  else if bool_decide (buf = []) then Some (path_start_state File rest)
  else if host_parser false buf then Some (path_start_state File rest)
  else None.

Fixpoint file_host_state (buf : list ascii) (rest : list ascii) : option url_path :=
  match rest with
  | c :: rest' =>
      if is_slash c || is_backslash c || is_question c || is_hash c
      then file_host_end buf rest
      else file_host_state (buf ++ [c]) rest'
  | [] => file_host_end buf []
  end.

Definition file_slash_state (rest : list ascii) : option url_path :=
  match rest with
  | c :: rest' =>
      if is_slash c || is_backslash c then file_host_state [] rest'
      else Some (Segments (path_state File [] [] rest))
  | [] => Some (Segments (path_state File [] [] []))
  end.

Definition file_state (rest : list ascii) : option url_path :=
  match rest with
  | c :: rest' =>
      if is_slash c || is_backslash c then file_slash_state rest'
      else Some (Segments (path_state File [] [] rest))
  | [] => Some (Segments (path_state File [] [] []))
  end.

(** *** The parser and the pathname getter *)

(** Scheme state at the colon. *)
Definition after_scheme (scheme rest : list ascii) : option url_path :=
  match classify scheme with
  | File => file_state rest
  | Special =>
      if bool_decide (scheme = base_scheme)
      then special_relative_or_authority_state rest
      else special_authority_slashes_state Special rest
  | NotSpecial =>
      match rest with
      | c :: rest' =>
          if is_slash c then path_or_authority_state rest'
          else Some (Opaque (opaque_path_state rest))
      | [] => Some (Opaque (opaque_path_state []))
      end
  end.

Definition basic_url_parser (input : list ascii) : option url_path :=
  let input := preprocess input in
  match scheme_start_state input with
  | Some (scheme, rest) => after_scheme scheme rest
  | None => relative_state input
  end.

Definition serialize_path (p : url_path) : list ascii :=
  match p with
  | Opaque o => o
  | Segments segs => concat (map (cons "/"%char) segs)
  end.

(** [new URL(input, base).pathname]; [None] when the constructor
    throws. *)
Definition pathname (input : string) : option string :=
  option_map (fun p => string_of_list_ascii (serialize_path p))
    (basic_url_parser (list_ascii_of_string input)).

End Parser.

(** A host parser for the examples: it accepts the plain domain names,
    one or more dot-separated labels of lower-case letters, which
    every host parser of the standard accepts unchanged. *)
Fixpoint plain_labels (fresh : bool) (h : list ascii) : bool :=
  match h with
  | [] => negb fresh
  | c :: h' =>
      if is_ascii_lower_alpha c then plain_labels false h'
      else is_char "." c && negb fresh && plain_labels true h'
  end.

Definition plain_domain_host (isOpaque : bool) (h : list ascii) : bool :=
  plain_labels true h.

End URL.

(** ** lib/logo-storage.ts *)

Module LogoStorage.

(** The character class of [FILENAME_RE], [[a-zA-Z0-9_.-]]. *)
Definition filename_char (c : ascii) : bool :=
  URL.is_ascii_alphanumeric c
  || URL.is_char "_" c || URL.is_char "." c || URL.is_char "-" c.

(** [FILENAME_RE.test(s)] for [/^[a-zA-Z0-9_.-]+$/]: one or more
    characters, all of the class. *)
Definition FILENAME_RE_test (s : string) : bool :=
  match s with
  | EmptyString => false
  | _ => forallb filename_char (list_ascii_of_string s)
  end.

(** [s.startsWith(prefix)] *)
Fixpoint startsWith (s prefix : string) {struct prefix} : bool :=
  match prefix, s with
  | EmptyString, _ => true
  | String a prefix', String b s' => Ascii.eqb a b && startsWith s' prefix'
  | String _ _, EmptyString => false
  end.

(** [s.slice(start)] *)
Fixpoint slice (start : nat) (s : string) : string :=
  match start, s with
  | S n, String _ s' => slice n s'
  | _, _ => s
  end.

Definition API_PREFIX : string := "/api/upload/logo/".
Definition UPLOADS_PREFIX : string := "/uploads/".

Section Resolver.

Variable host_parser : bool -> list ascii -> bool.

(** The prefix test and [slice] of [extractLogoFilenameFromUrl]:
    [None] is the [return null] of the last branch. *)
Definition raw_filename (pathname : string) : option string :=
  if startsWith pathname API_PREFIX
  then Some (slice (String.length API_PREFIX) pathname)
  else if startsWith pathname UPLOADS_PREFIX
  then Some (slice (String.length UPLOADS_PREFIX) pathname)
  else None.

Definition extractLogoFilenameFromUrl (logoUrl : option string) : option string :=
  match logoUrl with
  | None | Some EmptyString => None
  | Some url =>
      match URL.pathname host_parser url with
      | None => None
      | Some pathname =>
          match raw_filename pathname with
          | Some raw => if FILENAME_RE_test raw then Some raw else None
          | None => None
          end
      end
  end.

Definition toApiLogoPath (logoUrl : option string) : option string :=
  match extractLogoFilenameFromUrl logoUrl with
  | Some (String _ _ as filename) => Some (API_PREFIX ++ filename)
  | _ => None
  end.

End Resolver.

(** [s.includes(sub)] *)
Fixpoint includes (s sub : string) : bool :=
  startsWith s sub
  || match s with
     | String _ s' => includes s' sub
     | EmptyString => false
     end.

End LogoStorage.

(** ** JavaScript values and route handlers *)

Module Js.

(** A value read from a JSON body or a nullable column.  [other] is
    any value that is not undefined, null, a boolean or a string (a
    number, an array, an object), given by the two things the handlers
    observe of it: its truthiness and its string conversion. *)
Inductive value :=
| undefined
| null
| boolean (b : bool)
| str (s : string)
| other (truthy : bool) (image : string).

Definition truthy_string (s : string) : bool :=
  match s with EmptyString => false | String _ _ => true end.

(** Truthiness of a nullable string: [null], [undefined] and the
    empty string are falsy. *)
Definition truthy (o : option string) : bool :=
  match o with Some s => truthy_string s | None => false end.

Definition truthy_value (v : value) : bool :=
  match v with
  | undefined | null => false
  | boolean b => b
  | str s => truthy_string s
  | other t _ => t
  end.

(** [a || b] on nullable strings with a string default. *)
Definition or_else (o : option string) (default : string) : string :=
  match o with
  | Some (String _ _ as s) => s
  | _ => default
  end.

(** [s.toLowerCase()] on the ASCII range.  Outside it no character
    lower-cases to an ASCII letter other than k, and the handlers
    compare the result with the words pdf, html and docx only. *)
Definition toLowerCase (s : string) : string :=
  string_of_list_ascii (map URL.ascii_lowercase (list_ascii_of_string s)).

(** [s.length]: the UTF-16 code units of the text whose UTF-8 bytes
    [s] holds. A continuation byte counts for nothing, the lead byte of
    a four-byte sequence for two. *)
Definition utf16_units (c : ascii) : nat :=
  let n := N_of_ascii c in
  if (n <? 128)%N then 1
  else if (n <? 192)%N then 0
  else if (n <? 240)%N then 1
  else 2.

Definition length (s : string) : nat :=
  list_sum (map utf16_units (list_ascii_of_string s)).

End Js.

Module Handler.

(** How a handler ends: with a response, or with an exception no
    [catch] of the handler takes (the framework answers 500). *)
Inductive outcome (R : Type) :=
| Returned (r : R)
| Threw.
Arguments Returned {R} r.
Arguments Threw {R}.

(** One step of a handler body over a state [S]: go on with a value,
    return a response early, or throw. *)
Inductive step (R A : Type) :=
| Next (a : A)
| Return (r : R)
| Throw.
Arguments Next {R A} a.
Arguments Return {R A} r.
Arguments Throw {R A}.

Definition H (S R A : Type) : Type := S -> S * step R A.

Definition ret {S R A} (a : A) : H S R A := fun s => (s, Next a).

Definition bind {S R A B} (m : H S R A) (k : A -> H S R B) : H S R B :=
  fun s =>
    match m s with
    | (s', Next a) => k a s'
    | (s', Return r) => (s', Return r)
    | (s', Throw) => (s', Throw)
    end.

(** [return response;] *)
Definition respond {S R A} (r : R) : H S R A := fun s => (s, Return r).

Definition throw {S R A} : H S R A := fun s => (s, Throw).

(** [if (!x) return response;] for a nullable [x]. *)
Definition require {S R A} (x : option A) (r : R) : H S R A :=
  match x with Some a => ret a | None => respond r end.

(** [if (!cond) return response;] *)
Definition guard {S R} (cond : bool) (r : R) : H S R unit :=
  if cond then ret tt else respond r.

Definition get {S R} : H S R S := fun s => (s, Next s).
Definition put {S R} (s : S) : H S R unit := fun _ => (s, Next tt).

Definition run {S R} (h : H S R R) (s : S) : S * outcome R :=
  match h s with
  | (s', Next r) | (s', Return r) => (s', Returned r)
  | (s', Throw) => (s', Threw)
  end.

End Handler.

Declare Scope handler_scope.
Delimit Scope handler_scope with handler.
Notation "x <- m ;; k" := (Handler.bind m (fun x => k))
  (at level 100, m at next level, right associativity) : handler_scope.
Notation "m ;; k" := (Handler.bind m (fun _ => k))
  (at level 100, right associativity) : handler_scope.

(** ** The database, as the handlers use it *)

Module Prisma.

Record User := {
  planId : option string;
  gscConnected : bool;
  gscConnectedAt : option N;
}.

Record Plan := {
  autoIndexing : bool;
}.

Record Audit := {
  audit_userId : string;
  fastApiId : string;
  resultJson : option string;
  language : option string;
}.

Record BrandSettings := {
  companyName : option string;
  logoUrl : option string;
  primaryColor : option string;
  accentColor : option string;
}.

Record Site := {
  site_userId : string;
  autoIndexGoogle : bool;
  autoIndexBing : bool;
}.

Record Account := {
  account_userId : string;
  access_token : option string;
  refresh_token : option string;
  expires_at : option N;
  scope : option string;
}.

(** Tables by primary key; [brandSettings] by its unique [userId]. *)
Record Db := {
  users : gmap string User;
  plans : gmap string Plan;
  audits : gmap string Audit;
  brandSettings : gmap string BrandSettings;
  sites : gmap string Site;
  accounts : gmap string Account;
}.

End Prisma.

(** ** app/api/audit/[id]/export/route.ts *)

Module ExportRoute.

Import PlanCapabilities Prisma Handler.
Local Open Scope handler_scope.

Record Request := {
  (** [session?.user], by its id *)
  session_user : option string;
  (** [params.id] *)
  id : string;
  (** [new URL(req.url).origin] *)
  origin : string;
  (** [searchParams.get("format")] and [searchParams.get("lang")] *)
  format_param : option string;
  lang_param : option string;
}.

Inductive Response :=
| JsonError (status : nat) (error : string)
| Artifact (contentType disposition : string) (blob : string).

Record UpstreamResponse := {
  status : nat;
  content_type : option string;
  content_disposition : option string;
  body : string;
}.

(** [res.ok] *)
Definition ok (res : UpstreamResponse) : bool :=
  ((200 <=? status res) && (status res <=? 299))%nat.

Definition format_name (f : ExportFormat) : string :=
  match f with pdf => "pdf" | html => "html" | docx => "docx" end.

Definition SUPPORTED_FORMATS : list ExportFormat := [pdf; html; docx].

(** [SUPPORTED_FORMATS.includes(s)], with the format [s] names. *)
Definition supported_format (s : string) : option ExportFormat :=
  List.find (fun f => String.eqb (format_name f) s) SUPPORTED_FORMATS.

Definition requestedFormat (req : Request) : string :=
  Js.toLowerCase (Js.or_else (format_param req) "pdf").

(** A [Record<string, string>] and a [URLSearchParams]: pairs in
    insertion order. *)
Definition Brand := list (string * string).
Definition Params := list (string * string).

(** [...(v ? { key: v } : {})] *)
Definition entry (key : string) (v : option string) : Brand :=
  if Js.truthy v then [(key, Js.or_else v "")] else [].

Definition field (o : list (string * string)) (key : string) : option string :=
  option_map snd (List.find (fun e => String.eqb (fst e) key) o).

(** [URLSearchParams.set]: the first pair of that name takes the
    value and the later ones go; without one the pair is appended. *)
Fixpoint params_set (key v : string) (ps : Params) : Params :=
  match ps with
  | [] => [(key, v)]
  | (k, w) :: ps' =>
      if String.eqb k key
      then (k, v) :: List.filter (fun e => negb (String.eqb (fst e) key)) ps'
      else (k, w) :: params_set key v ps'
  end.

(** [if (v) queryParams.set(key, v)] *)
Definition set_if (key : string) (v : option string) (ps : Params) : Params :=
  if Js.truthy v then params_set key (Js.or_else v "") ps else ps.

(** The logo URL sent upstream: absolute as stored, or the request's
    origin before the stored path. *)
Definition absolute_logo_url (origin : string) (logoUrl : option string)
    : option string :=
  if Js.truthy logoUrl then
    let u := Js.or_else logoUrl "" in
    Some (if LogoStorage.startsWith u "http://" || LogoStorage.startsWith u "https://"
          then u
          else origin ++ (if LogoStorage.startsWith u "/" then u else "/" ++ u))
  else None.

Definition brand_of (origin : string) (branding : option BrandSettings)
    : option Brand :=
  match branding with
  | None => None
  | Some b =>
      let brand :=
        (entry "company_name" (companyName b)
         ++ entry "primary_color" (primaryColor b)
         ++ entry "accent_color" (accentColor b)
         ++ entry "logo_url" (absolute_logo_url origin (logoUrl b)))%list in
      match brand with [] => None | _ => Some brand end
  end.

(** The brand data of a request: read only when the plan permits
    branding. *)
Definition brand_for (db : Db) (uid origin : string)
    (capabilities : PlanCapabilities.t) : option Brand :=
  if canUseBranding capabilities
  then brand_of origin (brandSettings db !! uid)
  else None.

Definition string_of_bool (b : bool) : string := if b then "true" else "false".

Definition download_query (format : ExportFormat) (lang : option string)
    (showWatermark : bool) (brand : option Brand) : Params :=
  let q := [("format", format_name format)] in
  let q := set_if "lang" lang q in
  let q := params_set "show_watermark" (string_of_bool showWatermark) q in
  match brand with
  | Some b =>
      let q := set_if "company_name" (field b "company_name") q in
      let q := set_if "primary_color" (field b "primary_color") q in
      let q := set_if "accent_color" (field b "accent_color") q in
      set_if "logo_url" (field b "logo_url") q
  | None => q
  end.

(** The body of the regeneration POST. *)
Record GenerateBody (Json : Type) := {
  gen_format : ExportFormat;
  gen_audit : Json;
  gen_language : string;
  gen_show_watermark : bool;
  gen_brand : option Brand;
}.
Arguments gen_format {Json} _.
Arguments gen_audit {Json} _.
Arguments gen_language {Json} _.
Arguments gen_show_watermark {Json} _.
Arguments gen_brand {Json} _.

(** The two calls on the report service: the download of
    [/api/audit/<fastApiId>/download?<query>] and the POST on
    [/api/report/generate]. *)
Inductive UpstreamRequest (Json : Type) :=
| Download (fastApiId : string) (query : Params)
| Generate (body : GenerateBody Json).
Arguments Download {Json} fastApiId query.
Arguments Generate {Json} body.

(** The artifact sent back, with the upstream's headers or their
    defaults. *)
Definition relay (res : UpstreamResponse) : Response :=
  Artifact (Js.or_else (content_type res) "application/octet-stream")
           (Js.or_else (content_disposition res) "")
           (body res).

(** The statuses the [Response] constructor refuses when there is a
    body: it throws a RangeError for a status outside 200..599, and a
    TypeError for a null-body status. *)
Definition null_body_status (status : nat) : bool :=
  ((status =? 101) || (status =? 103) || (status =? 204) || (status =? 205)
   || (status =? 304))%nat.

Definition json_status (status : nat) : bool :=
  ((200 <=? status) && (status <=? 599))%nat && negb (null_body_status status).

(** [return NextResponse.json({ error }, { status })] with a status
    taken from an upstream response. *)
Definition respond_json {S A} (status : nat) (error : string) : H S Response A :=
  if json_status status then respond (JsonError status error) else throw.

(** [audit] when it exists and the caller owns it. *)
Definition owned_audit (db : Db) (uid id : string) : option Audit :=
  match audits db !! id with
  | Some audit => if bool_decide (audit_userId audit = uid) then Some audit else None
  | None => None
  end.

Section Route.

Context {Json : Type}.

(** [JSON.parse]; [None] when it throws. *)
Variable JSON_parse : string -> option Json.

(** [fastapiFetch] of lib/api-client; [None] when the promise rejects. *)
Variable fastapiFetch : UpstreamRequest Json -> option UpstreamResponse.

(** The state of a run is the list of upstream calls made so far. *)
Definition fetch (r : UpstreamRequest Json)
    : H (list (UpstreamRequest Json)) Response UpstreamResponse :=
  fun calls =>
    ((calls ++ [r])%list,
     match fastapiFetch r with Some res => Next res | None => Throw end).

Definition parse (text : option string)
    : H (list (UpstreamRequest Json)) Response Json :=
  match JSON_parse (Js.or_else text "") with
  | Some v => ret v
  | None => throw
  end.

Definition GET (db : Db) (req : Request)
    : H (list (UpstreamRequest Json)) Response Response :=
  uid <- require (session_user req) (JsonError 401 "Unauthorized") ;;
  format <- require (supported_format (requestedFormat req))
              (JsonError 400 "Unsupported export format") ;;
  user <- require (users db !! uid) (JsonError 404 "User not found") ;;
  let capabilities := getPlanCapabilities (planId user) in
  guard (bool_decide (format ∈ allowedExportFormats capabilities))
    (JsonError 403 "Your plan allows PDF export only") ;;
  audit <- require (owned_audit db uid (id req)) (JsonError 404 "Not found") ;;
  let brand := brand_for db uid (origin req) capabilities in
  let queryParams :=
    download_query format (lang_param req) (showWatermark capabilities) brand in
  fastapiRes <- fetch (Download (fastApiId audit) queryParams) ;;
  if (status fastapiRes =? 404)%nat && Js.truthy (resultJson audit) then
    payload <- parse (resultJson audit) ;;
    regenerateRes <- fetch (Generate {|
      gen_format := format;
      gen_audit := payload;
      gen_language :=
        Js.or_else (lang_param req) (Js.or_else (language audit) "en");
      gen_show_watermark := showWatermark capabilities;
      gen_brand := brand |}) ;;
    if negb (ok regenerateRes)
    then respond_json (status regenerateRes) "Report generation failed"
    else respond (relay regenerateRes)
  else if negb (ok fastapiRes)
  then respond_json (status fastapiRes) "Export failed"
  else respond (relay fastapiRes).

(** A request handled from the first line, with no upstream call made
    yet. *)
Definition handle (db : Db) (req : Request)
    : list (UpstreamRequest Json) * outcome Response :=
  run (GET db req) [].

End Route.

(** [req] with another [format] parameter. *)
Definition with_format (req : Request) (format : option string) : Request :=
  {| session_user := session_user req; id := id req; origin := origin req;
     format_param := format; lang_param := lang_param req |}.

(** *** A small installation for the examples *)

(** A deserializer for the examples: it knows the empty object. *)
Definition example_parse (text : string) : option string :=
  if String.eqb text "{}" then Some text else None.

(** A report service that has evicted every audit, and answers a
    regeneration with the given status. *)
Definition evicted_upstream (regenerate_status : nat)
    (r : UpstreamRequest string) : option UpstreamResponse :=
  match r with
  | Download _ _ =>
      Some {| status := 404; content_type := Some "application/json";
              content_disposition := None; body := "{}" |}
  | Generate _ =>
      Some {| status := regenerate_status;
              content_type := Some "application/pdf";
              content_disposition := Some "attachment";
              body := "%PDF" |}
  end.

Definition empty_db : Db :=
  {| users := ∅; plans := ∅; audits := ∅; brandSettings := ∅;
     sites := ∅; accounts := ∅ |}.

(** One user on the free plan, who owns one audit with a cached
    result. *)
Definition example_db : Db :=
  {| users := {[ "u1" := {| planId := Some "free"; gscConnected := false;
                            gscConnectedAt := None |} ]};
     plans := ∅;
     audits := {[ "a1" := {| audit_userId := "u1"; fastApiId := "f1";
                             resultJson := Some "{}"; language := None |} ]};
     brandSettings := ∅; sites := ∅; accounts := ∅ |}.

Definition example_request (id : string) (format : option string) : Request :=
  {| session_user := Some "u1"; id := id; origin := "https://app.example";
     format_param := format; lang_param := None |}.

End ExportRoute.

(** ** app/api/brand-settings/route.ts *)

Module BrandSettingsRoute.

Import Prisma Handler.
Local Open Scope handler_scope.

Record Request := {
  session_user : option string;
  (** [companyName] and [logoUrl] of [await req.json()]; [None] when
      reading them throws. *)
  body : option (Js.value * Js.value);
}.

Inductive Response :=
| JsonError (status : nat) (error : string)
| JsonBranding (branding : BrandSettings).

(** [String(v)] *)
Definition to_string (v : Js.value) : string :=
  match v with
  | Js.undefined => "undefined"
  | Js.null => "null"
  | Js.boolean b => if b then "true" else "false"
  | Js.str s => s
  | Js.other _ image => image
  end.

(** [!user || user.planId !== "agency"], negated. *)
Definition is_agency (user : option User) : bool :=
  match user with
  | Some u => PlanCapabilities.strict_eq (planId u) "agency"
  | None => false
  end.

(** The company name check: absent, or a string of at most 100 code
    units. *)
Definition valid_company_name (companyName : Js.value) : bool :=
  match companyName with
  | Js.undefined | Js.null => true
  | Js.str s => negb (100 <? Js.length s)%nat
  | _ => false
  end.

(** [logoUrl !== undefined && logoUrl !== null && logoUrl !== ""] *)
Definition supplied (logoUrl : Js.value) : bool :=
  match logoUrl with
  | Js.undefined | Js.null | Js.str EmptyString => false
  | _ => true
  end.

(** What the ORM does with a field of the write: [undefined] leaves
    the column, [null] clears it, a string sets it; another type is a
    validation error ([None]). *)
Definition assign (v : Js.value) (old : option string) : option (option string) :=
  match v with
  | Js.undefined => Some old
  | Js.null => Some None
  | Js.str s => Some (Some s)
  | _ => None
  end.

Definition with_brandSettings (d : Db) (b : gmap string BrandSettings) : Db :=
  {| users := users d; plans := plans d; audits := audits d;
     brandSettings := b; sites := sites d; accounts := accounts d |}.

Definition empty_branding : BrandSettings :=
  {| companyName := None; logoUrl := None;
     primaryColor := None; accentColor := None |}.

(** [prisma.brandSettings.upsert]: the update of the caller's row, or
    its creation. *)
Definition upsert (uid : string) (companyName logoUrl : Js.value)
    : H Db Response BrandSettings :=
  fun db =>
    let old := default empty_branding (brandSettings db !! uid) in
    match assign companyName (Prisma.companyName old),
          assign logoUrl (Prisma.logoUrl old) with
    | Some name, Some logo =>
        let row := {| companyName := name; logoUrl := logo;
                      primaryColor := primaryColor old;
                      accentColor := accentColor old |} in
        (with_brandSettings db (<[uid := row]> (brandSettings db)), Next row)
    | _, _ => (db, Throw)
    end.

Section Route.

Variable host_parser : bool -> list ascii -> bool.

(** [toApiLogoPath] on a value of the body: a falsy value gives null
    at once, any other is read through its string conversion. *)
Definition toApiLogoPath_value (v : Js.value) : option string :=
  if Js.truthy_value v
  then LogoStorage.toApiLogoPath host_parser (Some (to_string v))
  else None.

Definition normalize (logoUrl : Js.value) : H Db Response Js.value :=
  if supplied logoUrl then
    let normalizedLogoUrl := toApiLogoPath_value logoUrl in
    if Js.truthy normalizedLogoUrl
    then ret (Js.str (Js.or_else normalizedLogoUrl ""))
    else respond (JsonError 400 "Invalid logo URL")
  else ret logoUrl.

Definition PUT (req : Request) : H Db Response Response :=
  uid <- require (session_user req) (JsonError 401 "Unauthorized") ;;
  db <- get ;;
  guard (is_agency (users db !! uid)) (JsonError 403 "Agency plan required") ;;
  fields <- match body req with Some f => ret f | None => throw end ;;
  let companyName := fst fields in
  let logoUrl := snd fields in
  guard (valid_company_name companyName)
    (JsonError 400 "Company name must be a string under 100 characters") ;;
  normalizedLogoUrl <- normalize logoUrl ;;
  branding <- upsert uid companyName normalizedLogoUrl ;;
  respond (JsonBranding branding).

Definition handle (req : Request) (db : Db) : Db * outcome Response :=
  run (PUT req) db.

End Route.

(** An agency user with stored branding, for the examples. *)
Definition example_db : Db :=
  {| users := {[ "u1" := {| planId := Some "agency"; gscConnected := false;
                            gscConnectedAt := None |} ]};
     plans := ∅; audits := ∅;
     brandSettings := {[ "u1" := {| companyName := Some "Acme";
                                    logoUrl := Some "/api/upload/logo/old.png";
                                    primaryColor := None;
                                    accentColor := None |} ]};
     sites := ∅; accounts := ∅ |}.

Definition example_request (companyName logoUrl : Js.value) : Request :=
  {| session_user := Some "u1"; body := Some (companyName, logoUrl) |}.

End BrandSettingsRoute.

(** ** app/api/indexing/gsc/disconnect/route.ts *)

Module DisconnectRoute.

Import Prisma Handler.
Local Open Scope handler_scope.

Record Request := {
  session_user : option string;
  (** [searchParams.get("deleteData")] *)
  deleteData_param : option string;
}.

Inductive Response :=
| JsonError (status : nat) (error : string)
| Success.

(** The writes of the handler, each of which the database may
    refuse. *)
Inductive Write := AccountUpdate | UserUpdate | SiteDeleteMany.

(** The database and the tokens sent to the revocation endpoint. *)
Record State := {
  db : Db;
  revoked : list string;
}.

Definition with_users (d : Db) (u : gmap string User) : Db :=
  {| users := u; plans := plans d; audits := audits d;
     brandSettings := brandSettings d; sites := sites d;
     accounts := accounts d |}.

Definition with_sites (d : Db) (s : gmap string Site) : Db :=
  {| users := users d; plans := plans d; audits := audits d;
     brandSettings := brandSettings d; sites := s;
     accounts := accounts d |}.

Definition with_accounts (d : Db) (a : gmap string Account) : Db :=
  {| users := users d; plans := plans d; audits := audits d;
     brandSettings := brandSettings d; sites := sites d;
     accounts := a |}.

(** [data: { gscConnected: false, gscConnectedAt: null }] *)
Definition disconnected (u : User) : User :=
  {| planId := planId u; gscConnected := false; gscConnectedAt := None |}.

(** [data: { access_token: null, refresh_token: null, expires_at: null,
    scope: null }] *)
Definition cleared (a : Account) : Account :=
  {| account_userId := account_userId a; access_token := None;
     refresh_token := None; expires_at := None; scope := None |}.

Section Route.

(** [getGoogleAccount] of lib/google-auth: the caller's Google account
    with its id, if any. *)
Variable getGoogleAccount : Db -> string -> option (string * Account).

(** The writes the database refuses in this run. *)
Variable fault : Write -> bool.

(** [prisma.account.update], [prisma.user.update]: [None] when the
    write is refused or the record is missing. *)
Definition account_update (id : string) (d : Db) : option Db :=
  if fault AccountUpdate then None
  else match accounts d !! id with
       | Some a => Some (with_accounts d (<[id := cleared a]> (accounts d)))
       | None => None
       end.

Definition user_update (uid : string) (d : Db) : option Db :=
  if fault UserUpdate then None
  else match users d !! uid with
       | Some u => Some (with_users d (<[uid := disconnected u]> (users d)))
       | None => None
       end.

(** [prisma.site.deleteMany({ where: { userId } })] *)
Definition site_deleteMany (uid : string) (d : Db) : option Db :=
  if fault SiteDeleteMany then None
  else Some (with_sites d (filter (fun p => site_userId p.2 <> uid) (sites d))).

(** [prisma.$transaction([...])]: the writes in order; the database
    changes only if every one of them succeeds. *)
Fixpoint transaction (ops : list (Db -> option Db)) (d : Db) : option Db :=
  match ops with
  | [] => Some d
  | op :: ops' =>
      match op d with
      | Some d' => transaction ops' d'
      | None => None
      end
  end.

(** An awaited write: the new database, or an exception with the
    database as it was. *)
Definition write (op : Db -> option Db) : H State Response unit :=
  fun s =>
    match op (db s) with
    | Some d' => ({| db := d'; revoked := revoked s |}, Next tt)
    | None => (s, Throw)
    end.

(** The revocation call; its failure is caught and ignored. *)
Definition revoke (token : string) : H State Response unit :=
  fun s => ({| db := db s; revoked := revoked s ++ [token] |}, Next tt).

Definition DELETE (req : Request) : H State Response Response :=
  uid <- require (session_user req) (JsonError 401 "Unauthorized") ;;
  let deleteData := negb (bool_decide (deleteData_param req = Some "false")) in
  s <- get ;;
  let account := getGoogleAccount (db s) uid in
  match account with
  | Some (_, a) =>
      if Js.truthy (access_token a)
      then revoke (Js.or_else (access_token a) "")
      else ret tt
  | None => ret tt
  end ;;
  match account with
  | Some (aid, _) => write (account_update aid)
  | None => ret tt
  end ;;
  (if deleteData
   then write (transaction [user_update uid; site_deleteMany uid])
   else write (user_update uid)) ;;
  respond Success.

(** A request handled from a database, with nothing revoked yet. *)
Definition handle (req : Request) (d : Db) : State * outcome Response :=
  run (DELETE req) {| db := d; revoked := [] |}.

End Route.

(** Two users, with one site each, for the examples; the first one
    has a Google account. *)
Definition example_db : Db :=
  {| users := {[ "u1" := {| planId := Some "pro"; gscConnected := true;
                            gscConnectedAt := Some 1700000000%N |};
                 "u2" := {| planId := Some "free"; gscConnected := true;
                            gscConnectedAt := Some 1700000001%N |} ]};
     plans := ∅; audits := ∅; brandSettings := ∅;
     sites := {[ "s1" := {| site_userId := "u1"; autoIndexGoogle := true;
                            autoIndexBing := false |};
                 "s2" := {| site_userId := "u2"; autoIndexGoogle := false;
                            autoIndexBing := false |} ]};
     accounts := {[ "acc1" := {| account_userId := "u1";
                                 access_token := Some "token";
                                 refresh_token := Some "refresh";
                                 expires_at := Some 1700003600%N;
                                 scope := Some "webmasters" |} ]} |}.

(** The account of a user: here the one whose id is [acc1], for the
    first user. *)
Definition example_getGoogleAccount (d : Db) (uid : string)
    : option (string * Account) :=
  if String.eqb uid "u1"
  then option_map (fun a => ("acc1", a)) (accounts d !! "acc1")
  else None.

Definition no_fault (w : Write) : bool := false.

(** The database refuses the deletion of the sites. *)
Definition deletion_fault (w : Write) : bool :=
  match w with SiteDeleteMany => true | _ => false end.

End DisconnectRoute.

(** ** app/api/indexing/sites/[siteId]/auto-index/route.ts *)

Module AutoIndexRoute.

Import Prisma Handler.
Local Open Scope handler_scope.

(** [await req.json()]: not JSON, the value null, or a value whose
    [google] and [bing] properties can be read. *)
Inductive Body :=
| invalid_json
| json_null
| json_object (google bing : Js.value).

Record Request := {
  session_user : option string;
  siteId : string;
  body : Body;
}.

Inductive Response :=
| JsonError (status : nat) (error : string)
| Flags (autoIndexGoogle autoIndexBing : bool).

(** The database calls of the handler. *)
Inductive Query :=
| FindSite (id : string)
| FindUserPlan (uid : string)
| UpdateSite (id : string).

Record State := {
  db : Db;
  queries : list Query;
}.

(** [typeof v === "boolean"], with the boolean. *)
Definition as_boolean (v : Js.value) : option bool :=
  match v with Js.boolean b => Some b | _ => None end.

(** [update.autoIndexGoogle || update.autoIndexBing] *)
Definition enables (g b : option bool) : bool :=
  default false g || default false b.

Definition query {A} (q : Query) (result : Db -> A) : H State Response A :=
  fun s => ({| db := db s; queries := queries s ++ [q] |}, Next (result (db s))).

(** [user?.plan?.autoIndexing] *)
Definition plan_autoIndexing (d : Db) (uid : string) : bool :=
  match users d !! uid with
  | Some u =>
      match planId u with
      | Some p =>
          match plans d !! p with
          | Some plan => autoIndexing plan
          | None => false
          end
      | None => false
      end
  | None => false
  end.

Definition updated (site : Site) (g b : option bool) : Site :=
  {| site_userId := site_userId site;
     autoIndexGoogle := default (autoIndexGoogle site) g;
     autoIndexBing := default (autoIndexBing site) b |}.

Definition with_site (d : Db) (id : string) (site : Site) : Db :=
  {| users := users d; plans := plans d; audits := audits d;
     brandSettings := brandSettings d;
     sites := <[id := site]> (sites d);
     accounts := accounts d |}.

(** [prisma.site.update({ where: { id }, data: update })] *)
Definition site_update (id : string) (g b : option bool) : H State Response Site :=
  fun s =>
    let d := db s in
    match sites d !! id with
    | Some site =>
        let site' := updated site g b in
        ({| db := with_site d id site';
            queries := queries s ++ [UpdateSite id] |},
         Next site')
    | None => ({| db := d; queries := queries s ++ [UpdateSite id] |}, Throw)
    end.

Definition PATCH (req : Request) : H State Response Response :=
  uid <- require (session_user req) (JsonError 401 "Unauthorized") ;;
  site <- query (FindSite (siteId req)) (fun d => sites d !! siteId req) ;;
  guard (match site with
         | Some s => bool_decide (site_userId s = uid)
         | None => false
         end) (JsonError 404 "Site not found") ;;
  fields <- match body req with
            | invalid_json => respond (JsonError 400 "Invalid JSON body")
            | json_null => throw
            | json_object google bing => ret (as_boolean google, as_boolean bing)
            end ;;
  let g := fst fields in
  let b := snd fields in
  guard (bool_decide (is_Some g) || bool_decide (is_Some b))
    (JsonError 400 "No fields to update") ;;
  (if enables g b then
     allowed <- query (FindUserPlan uid) (fun d => plan_autoIndexing d uid) ;;
     guard allowed (JsonError 403 "Auto-indexing is not available on your plan")
   else ret tt) ;;
  updated <- site_update (siteId req) g b ;;
  respond (Flags (autoIndexGoogle updated) (autoIndexBing updated)).

(** A request handled from a database, with no call made yet. *)
Definition handle (req : Request) (d : Db) : State * outcome Response :=
  run (PATCH req) {| db := d; queries := [] |}.

(** A user on a plan without auto-indexing, with one site, for the
    examples. *)
Definition example_db : Db :=
  {| users := {[ "u1" := {| planId := Some "free"; gscConnected := true;
                            gscConnectedAt := None |} ]};
     plans := {[ "free" := {| autoIndexing := false |};
                 "pro" := {| autoIndexing := true |} ]};
     audits := ∅; brandSettings := ∅;
     sites := {[ "s1" := {| site_userId := "u1"; autoIndexGoogle := true;
                            autoIndexBing := false |} ]};
     accounts := ∅ |}.

Definition example_request (google bing : Js.value) : Request :=
  {| session_user := Some "u1"; siteId := "s1";
     body := json_object google bing |}.

End AutoIndexRoute.

(** ** app/api/upload/logo/[filename]/route.ts *)

Module LogoRoute.

Import Handler.
Local Open Scope handler_scope.

(** The own properties of [MIME_TYPES]. *)
Definition MIME_TYPES : list (string * string) :=
  [("jpg", "image/jpeg"); ("jpeg", "image/jpeg"); ("png", "image/png");
   ("gif", "image/gif"); ("webp", "image/webp"); ("svg", "image/svg+xml")].

(** The properties an object literal inherits from [Object.prototype]. *)
Definition OBJECT_PROTOTYPE : list string :=
  ["constructor"; "__defineGetter__"; "__defineSetter__"; "hasOwnProperty";
   "__lookupGetter__"; "__lookupSetter__"; "isPrototypeOf";
   "propertyIsEnumerable"; "toString"; "valueOf"; "__proto__";
   "toLocaleString"].

(** [MIME_TYPES[ext]]: a string of the table, a function or object
    inherited from the prototype (truthy, and no string), or
    undefined. *)
Inductive Mime :=
| own (type : string)
| inherited (property : string)
| absent.

Definition mime_lookup (ext : string) : Mime :=
  match ExportRoute.field MIME_TYPES ext with
  | Some type => own type
  | None =>
      if bool_decide (ext ∈ OBJECT_PROTOTYPE) then inherited ext else absent
  end.

(** [s.split(sep)] for a separator of one character. *)
Fixpoint split (sep : ascii) (s : string) : list string :=
  match s with
  | EmptyString => [EmptyString]
  | String c s' =>
      if Ascii.eqb c sep then EmptyString :: split sep s'
      else match split sep s' with
           | part :: parts => String c part :: parts
           | [] => [String c EmptyString]
           end
  end.

(** [filename.split(".").pop()?.toLowerCase() || ""] *)
Definition extension (filename : string) : string :=
  Js.toLowerCase (default EmptyString (last (split "." filename))).

Inductive Response :=
| JsonError (status : nat) (error : string)
| File (contentType : Mime) (cacheControl : string) (buffer : string).

Section Route.

(** [readFile(join(process.cwd(), "public", "uploads", filename))]:
    the content of the file of that name in the uploads directory,
    [None] when reading it throws. *)
Variable readFile : string -> option string.

(** The state of a run is the list of the names read. *)
Definition read (filename : string) : H (list string) Response (option string) :=
  fun reads => ((reads ++ [filename])%list, Next (readFile filename)).

Definition GET (filename : string) : H (list string) Response Response :=
  guard (LogoStorage.FILENAME_RE_test filename)
    (JsonError 400 "Invalid filename") ;;
  let ext := extension filename in
  let mime := mime_lookup ext in
  guard (match mime with absent => false | _ => true end)
    (JsonError 400 "Unsupported format") ;;
  buffer <- read filename ;;
  match buffer with
  | Some b => respond (File mime "public, max-age=86400" b)
  | None => respond (JsonError 404 "Not found")
  end.

Definition handle (filename : string) : list string * outcome Response :=
  run (GET filename) [].

End Route.

(** An uploads directory with one file, for the examples. *)
Definition example_readFile (filename : string) : option string :=
  if String.eqb filename "logo.PNG" then Some "PNG-bytes" else None.

End LogoRoute.

(** ** The brand-settings read and the logo deletion *)

Module BrandingRoutes.

Import Prisma Handler.
Local Open Scope handler_scope.

Record Request := {
  session_user : option string;
}.

Inductive Response :=
| JsonError (status : nat) (error : string)
| JsonBranding (branding : option BrandSettings)
| Ok.

(** [NextResponse.json(branding)], the caller's row or null. *)
Definition GET (req : Request) : H Db Response Response :=
  uid <- require (session_user req) (JsonError 401 "Unauthorized") ;;
  db <- get ;;
  guard (BrandSettingsRoute.is_agency (users db !! uid))
    (JsonError 403 "Agency plan required") ;;
  respond (JsonBranding (brandSettings db !! uid)).

(** [data: { logoUrl: null }] *)
Definition without_logo (b : BrandSettings) : BrandSettings :=
  {| companyName := companyName b; logoUrl := None;
     primaryColor := primaryColor b; accentColor := accentColor b |}.

(** [prisma.brandSettings.updateMany({ where: { userId }, data })]:
    the rows of that user, at most one, are updated; none is no
    error. *)
Definition updateMany (uid : string) : H Db Response unit :=
  fun db =>
    (BrandSettingsRoute.with_brandSettings db
       (alter without_logo uid (brandSettings db)),
     Next tt).

Definition DELETE (req : Request) : H Db Response Response :=
  uid <- require (session_user req) (JsonError 401 "Unauthorized") ;;
  db <- get ;;
  guard (BrandSettingsRoute.is_agency (users db !! uid))
    (JsonError 403 "Agency plan required") ;;
  updateMany uid ;;
  respond Ok.

Definition handle_GET (req : Request) (db : Db) : Db * outcome Response :=
  run (GET req) db.

Definition handle_DELETE (req : Request) (db : Db) : Db * outcome Response :=
  run (DELETE req) db.

(** An agency user with a logo and an audit, and a user on the free
    plan whose brand row is left from an earlier plan. *)
Definition example_db : Db :=
  {| users := {[ "u1" := {| planId := Some "agency"; gscConnected := false;
                            gscConnectedAt := None |};
                 "u2" := {| planId := Some "free"; gscConnected := false;
                            gscConnectedAt := None |} ]};
     plans := ∅;
     audits := {[ "a1" := {| audit_userId := "u1"; fastApiId := "f1";
                             resultJson := Some "{}"; language := None |} ]};
     brandSettings := {[ "u1" := {| companyName := Some "Acme";
                                    logoUrl := Some "/api/upload/logo/old.png";
                                    primaryColor := Some "#112233";
                                    accentColor := None |};
                         "u2" := {| companyName := Some "Before";
                                    logoUrl := Some "/api/upload/logo/u2.png";
                                    primaryColor := None;
                                    accentColor := None |} ]};
     sites := ∅; accounts := ∅ |}.

End BrandingRoutes.

(** ** app/api/user/plan/route.ts (PATCH) *)

Module UserPlanRoute.

Import Prisma Handler.
Local Open Scope handler_scope.

(** [await req.json()]: not JSON, a value whose [planId] cannot be
    read (null), or a value with its [planId] property. *)
Inductive Body :=
| invalid_json
| json_null
| json_object (planId : Js.value).

Record Request := {
  session_user : option string;
  body : Body;
}.

Inductive Response :=
| JsonError (status : nat) (error : string)
| Switched (planId : string).

(** [!planId || typeof planId !== "string"], negated, with the
    string. *)
Definition plan_id (v : Js.value) : option string :=
  match v with
  | Js.str (String _ _ as s) => Some s
  | _ => None
  end.

Definition with_users (d : Db) (u : gmap string User) : Db :=
  {| users := u; plans := plans d; audits := audits d;
     brandSettings := brandSettings d; sites := sites d;
     accounts := accounts d |}.

(** [data: { planId }] *)
Definition on_plan (p : string) (u : User) : User :=
  {| planId := Some p; gscConnected := gscConnected u;
     gscConnectedAt := gscConnectedAt u |}.

(** [prisma.user.update({ where: { id }, data: { planId } })]; it
    throws when the user record is missing. *)
Definition user_update (uid p : string) : H Db Response unit :=
  fun db =>
    match users db !! uid with
    | Some u => (with_users db (<[uid := on_plan p u]> (users db)), Next tt)
    | None => (db, Throw)
    end.

Definition PATCH (req : Request) : H Db Response Response :=
  uid <- require (session_user req) (JsonError 401 "Unauthorized") ;;
  value <- match body req with
           | invalid_json => respond (JsonError 400 "Invalid JSON body")
           | json_null => throw
           | json_object planId => ret planId
           end ;;
  planId <- require (plan_id value) (JsonError 400 "planId is required") ;;
  db <- get ;;
  plan <- require (plans db !! planId) (JsonError 404 "Plan not found") ;;
  user_update uid planId ;;
  respond (Switched planId).

Definition handle (req : Request) (db : Db) : Db * outcome Response :=
  run (PATCH req) db.

(** A user on the free plan with one audit, and the three plans of
    the seed. *)
Definition example_db : Db :=
  {| users := {[ "u1" := {| planId := Some "free"; gscConnected := false;
                            gscConnectedAt := None |} ]};
     plans := {[ "free" := {| autoIndexing := false |};
                 "pro" := {| autoIndexing := true |};
                 "agency" := {| autoIndexing := true |} ]};
     audits := {[ "a1" := {| audit_userId := "u1"; fastApiId := "f1";
                             resultJson := Some "{}"; language := None |} ]};
     brandSettings := ∅; sites := ∅; accounts := ∅ |}.

Definition example_request (planId : Js.value) : Request :=
  {| session_user := Some "u1"; body := json_object planId |}.

End UserPlanRoute.

(** ** middleware.ts and i18n/navigation.ts *)

Module Middleware.

(** [routing.locales] and [routing.defaultLocale] of i18n/routing. *)
Section Routing.

Variable locales : list string.
Variable defaultLocale : string.

(** The loop of [stripLocale] over the locales that are left.  The
    slice drops the slash and the locale that [startsWith] has just
    found, counted in the units the string is held in. *)
Fixpoint stripLocale_loop (ls : list string) (pathname : string) : string :=
  match ls with
  | [] => pathname
  | locale :: ls' =>
      if String.eqb pathname ("/" ++ locale) then "/"
      else if LogoStorage.startsWith pathname ("/" ++ locale ++ "/")
      then LogoStorage.slice (String.length locale + 1) pathname
      else stripLocale_loop ls' pathname
  end.

Definition stripLocale (pathname : string) : string :=
  stripLocale_loop locales pathname.

Fixpoint getLocale_loop (ls : list string) (pathname : string) : string :=
  match ls with
  | [] => defaultLocale
  | locale :: ls' =>
      if String.eqb pathname ("/" ++ locale)
         || LogoStorage.startsWith pathname ("/" ++ locale ++ "/")
      then locale
      else getLocale_loop ls' pathname
  end.

Definition getLocale (pathname : string) : string :=
  getLocale_loop locales pathname.

Record Request := {
  (** [req.nextUrl.pathname] *)
  pathname : string;
  (** [req.cookies], by name *)
  cookies : gmap string string;
}.

(** A cookie of either name, whatever its value. *)
Definition hasSessionCookie (req : Request) : bool :=
  bool_decide (is_Some (cookies req !! "authjs.session-token"))
  || bool_decide (is_Some (cookies req !! "__Secure-authjs.session-token")).

(** A redirect to a path of the same origin, or the request handed
    on to the internationalization middleware. *)
Inductive Response :=
| Redirect (target : string)
| Intl.

Definition middleware (req : Request) : Response :=
  let path := stripLocale (pathname req) in
  if LogoStorage.startsWith path "/dashboard" && negb (hasSessionCookie req)
  then Redirect ("/" ++ getLocale (pathname req) ++ "/login")
  else if (String.eqb path "/login" || String.eqb path "/register")
          && hasSessionCookie req
  then Redirect ("/" ++ getLocale (pathname req) ++ "/dashboard")
  else Intl.

(** [localePath] of i18n/navigation, in its two versions: the locale
    prefix always, and the prefix left out for the default locale. *)
Definition localePath (locale path : string) : string :=
  "/" ++ locale ++ path.

Definition localePath_omitting_default (locale path : string) : string :=
  if String.eqb locale defaultLocale then path else "/" ++ locale ++ path.

End Routing.

(** The locales of the application, English the default, and a
    request without cookies. *)
Definition example_locales : list string := ["en"; "ru"; "uk"].

Definition example_request (pathname : string) : Request :=
  {| pathname := pathname; cookies := ∅ |}.

End Middleware.

(** ** lib/logo-storage.ts: the uploads directory *)

Module FrontendRoot.

Section Process.

(** [process.env.FRONTEND_ROOT], [String.prototype.trim],
    [process.cwd()], and [existsSync], [join] and [resolve] of the
    platform. *)
Variable FRONTEND_ROOT : option string.
Variable trim : string -> string.
Variable cwd : string.
Variable existsSync : string -> bool.
Variable join : list string -> string.
Variable resolve : list string -> string.

Definition isFrontendRoot (dir : string) : bool :=
  existsSync (join [dir; "next.config.js"])
  || existsSync (join [dir; "next.config.ts"])
  || existsSync (join [dir; "app"])
  || existsSync (join [dir; "src"]).

Definition candidates : list string :=
  [cwd; resolve [cwd; ".."]; resolve [cwd; "../.."]; resolve [cwd; "../../.."]].

Definition getFrontendRootDir : string :=
  let envRoot := option_map trim FRONTEND_ROOT in
  if Js.truthy envRoot then Js.or_else envRoot ""
  else
    match List.find isFrontendRoot candidates with
    | Some candidate => candidate
    | None =>
        if isFrontendRoot (join [cwd; "frontend"])
        then join [cwd; "frontend"]
        else cwd
    end.

Definition getUploadsDir : string :=
  join [getFrontendRootDir; "public"; "uploads"].

End Process.

End FrontendRoot.

(** * Properties *)

(** ** The plan-capability table *)

Module PlanCapabilitiesFacts.

Import PlanCapabilities.

(** C2. [getPlanCapabilities] is a total function of the plan
    identifier, null and unknown identifiers included: the three
    formats, branding and unlimited audits exactly for "agency", the
    watermark exactly for "free", and the restricted default (PDF only,
    no branding, no watermark, not unlimited) for every other
    identifier. *)
Theorem getPlanCapabilities_policy (planId : option string) :
  (allowedExportFormats (getPlanCapabilities planId) = [pdf; html; docx]
     <-> planId = Some "agency")
  /\ (canUseBranding (getPlanCapabilities planId) = true <-> planId = Some "agency")
  /\ (unlimitedAudits (getPlanCapabilities planId) = true <-> planId = Some "agency")
  /\ (showWatermark (getPlanCapabilities planId) = true <-> planId = Some "free")
  /\ (planId <> Some "agency" ->
      allowedExportFormats (getPlanCapabilities planId) = [pdf]
      /\ canUseBranding (getPlanCapabilities planId) = false
      /\ unlimitedAudits (getPlanCapabilities planId) = false)
  /\ (planId <> Some "agency" -> planId <> Some "free" ->
      getPlanCapabilities planId = restricted).
Proof.
  assert (Hcases : planId = Some "agency" \/ planId = Some "free"
                   \/ (planId <> Some "agency" /\ planId <> Some "free")).
  { destruct (decide (planId = Some "agency")); [tauto|].
    destruct (decide (planId = Some "free")); tauto. }
  unfold getPlanCapabilities, restricted.
  destruct Hcases as [-> | [-> | [Ha Hf]]].
  - simpl. repeat split; intros; congruence.
  - simpl. repeat split; intros; congruence.
  - apply strict_eq_false in Ha as Ea. apply strict_eq_false in Hf as Ef.
    rewrite Ea, Ef. simpl. repeat split; intros; congruence.
Qed.

End PlanCapabilitiesFacts.

(** ** The URL parser: what a parsed path looks like *)

Module URLFacts.

Import URL.

(** Facts on one character are settled by going through the 256
    characters. *)
Ltac by_cases_on_char c :=
  destruct c as [[] [] [] [] [] [] [] []]; vm_compute;
  repeat split; first [ discriminate | reflexivity | tauto | congruence ].

Definition SLASH : ascii := "/"%char.

Lemma is_slash_spec c : is_slash c = true <-> c = SLASH.
Proof. unfold is_slash, is_char. apply Ascii.eqb_eq. Qed.

Lemma is_slash_false c : is_slash c = false <-> c <> SLASH.
Proof. rewrite <- is_slash_spec. destruct (is_slash c); split; congruence. Qed.

Lemma percent_encode_byte_no_slash c :
  forallb (fun x => negb (is_slash x)) (percent_encode_byte c) = true.
Proof. destruct c as [[] [] [] [] [] [] [] []]; vm_compute; reflexivity. Qed.

(** A character that the path state keeps in its buffer (it is no
    separator) leaves no slash there, encoded or not. *)
Lemma encoded_has_no_slash set c :
  is_slash c = false -> SLASH ∉ utf8_percent_encode set c.
Proof.
  intros Hc Hin. unfold utf8_percent_encode in Hin.
  destruct (set c).
  - pose proof (percent_encode_byte_no_slash c) as Hall.
    rewrite forallb_forall in Hall.
    apply list_elem_of_In in Hin. specialize (Hall _ Hin).
    rewrite (proj2 (is_slash_spec SLASH) eq_refl) in Hall. discriminate Hall.
  - apply list_elem_of_singleton in Hin.
    apply is_slash_false in Hc. congruence.
Qed.

(** A path segment as the parser stores it: it holds no slash and is
    no dot segment. *)
Definition seg_ok (seg : list ascii) : Prop :=
  (SLASH ∉ seg) /\ is_single_dot seg = false /\ is_double_dot seg = false.

Definition path_ok (p : url_path) : Prop :=
  match p with
  | Segments segs => Forall seg_ok segs
  | Opaque o => head o <> Some SLASH
  end.

Definition result_ok (r : option url_path) : Prop :=
  match r with Some p => path_ok p | None => True end.

Lemma seg_ok_nil : seg_ok [].
Proof. repeat split. apply not_elem_of_nil. Qed.

Lemma removelast_Forall {A} (P : A -> Prop) (l : list A) :
  Forall P l -> Forall P (removelast l).
Proof.
  induction 1 as [|x l Hx Hl IH]; simpl; [constructor|].
  destruct l; [constructor|]. constructor; assumption.
Qed.

Lemma shorten_ok k path : Forall seg_ok path -> Forall seg_ok (shorten k path).
Proof.
  intros H. unfold shorten.
  destruct path as [|seg [|seg' path']].
  - constructor.
  - destruct (is_file k && is_normalized_windows_drive_letter seg); [assumption | constructor].
  - apply removelast_Forall. assumption.
Qed.

Lemma drive_letter_has_no_slash buf :
  is_windows_drive_letter buf = true -> SLASH ∉ buf.
Proof.
  destruct buf as [|a [|b [|? ?]]]; simpl; try discriminate.
  intros H. apply andb_true_iff in H as [Ha Hb].
  intros Hin. apply elem_of_cons in Hin as [Hin|Hin].
  - subst a. discriminate Ha.
  - apply list_elem_of_singleton in Hin. subst b. discriminate Hb.
Qed.

Lemma normalized_drive_letter_ok buf :
  is_windows_drive_letter buf = true -> seg_ok (normalize_drive_letter buf).
Proof.
  destruct buf as [|a [|b [|? ?]]]; simpl; try discriminate.
  intros H. apply andb_true_iff in H as [Ha _].
  repeat split.
  - intros Hin. apply elem_of_cons in Hin as [Hin|Hin].
    + subst a. discriminate Ha.
    + apply list_elem_of_singleton in Hin. discriminate Hin.
  - apply bool_decide_eq_false. intros Hin. cbn in Hin.
    repeat (apply elem_of_cons in Hin as [Hin|Hin]; [discriminate Hin|]).
    apply elem_of_nil in Hin. exact Hin.
  - apply bool_decide_eq_false. intros Hin. cbn in Hin.
    repeat (apply elem_of_cons in Hin as [Hin|Hin]; [discriminate Hin|]).
    apply elem_of_nil in Hin. exact Hin.
Qed.

Lemma end_segment_ok k path buf slash :
  Forall seg_ok path -> SLASH ∉ buf -> Forall seg_ok (end_segment k path buf slash).
Proof.
  intros Hpath Hbuf. unfold end_segment.
  destruct (is_double_dot buf) eqn:Hdd.
  { destruct slash; [apply shorten_ok; assumption|].
    apply Forall_app; split; [apply shorten_ok; assumption|].
    repeat constructor; apply seg_ok_nil. }
  destruct (is_single_dot buf) eqn:Hsd.
  { destruct slash; [assumption|].
    apply Forall_app; split; [assumption|]. repeat constructor; apply seg_ok_nil. }
  apply Forall_app; split; [assumption|]. constructor; [|constructor].
  destruct (is_file k && bool_decide (path = []) && is_windows_drive_letter buf) eqn:Hd.
  - apply normalized_drive_letter_ok.
    apply andb_true_iff in Hd as [_ Hd]. exact Hd.
  - repeat split; assumption.
Qed.

Lemma path_state_ok k rest : forall path buf,
  Forall seg_ok path -> SLASH ∉ buf -> Forall seg_ok (path_state k path buf rest).
Proof.
  induction rest as [|c rest IH]; intros path buf Hpath Hbuf; simpl.
  - apply end_segment_ok; assumption.
  - destruct (is_slash c || is_special k && is_backslash c) eqn:Hsep.
    + apply IH; [apply end_segment_ok; assumption | apply not_elem_of_nil].
    + destruct (is_question c || is_hash c).
      * apply end_segment_ok; assumption.
      * apply IH; [assumption|].
        apply orb_false_iff in Hsep as [Hc _].
        intros Hin. apply elem_of_app in Hin as [Hin|Hin]; [auto|].
        revert Hin. apply encoded_has_no_slash. exact Hc.
Qed.

Local Arguments path_state : simpl never.

Section States.

Variable host_parser : bool -> list ascii -> bool.

Ltac segments_ok :=
  repeat match goal with
         | |- result_ok (if ?b then _ else _) => destruct b
         | |- path_ok (if ?b then _ else _) => destruct b
         | |- result_ok (Some _) => cbn [result_ok]
         | |- result_ok None => exact I
         | |- path_ok (Segments _) => cbn [path_ok]
         | |- Forall seg_ok (path_state _ _ _ _) => apply path_state_ok
         | |- Forall seg_ok [] => constructor
         | |- _ ∉ [] => apply not_elem_of_nil
         end.

Lemma path_start_state_ok k rest : path_ok (path_start_state k rest).
Proof.
  unfold path_start_state.
  destruct (is_special k); destruct rest as [|c rest']; segments_ok.
Qed.

Lemma port_state_ok k rest : forall buf, result_ok (port_state k buf rest).
Proof.
  induction rest as [|c rest IH]; intros buf; cbn [port_state].
  - destruct (port_in_range buf); cbn [result_ok]; [apply path_start_state_ok | exact I].
  - destruct (is_ascii_digit c); [apply IH|].
    destruct (ends_authority k c); [|exact I].
    destruct (port_in_range buf); cbn [result_ok]; [apply path_start_state_ok | exact I].
Qed.

Lemma host_end_ok k buf rest : result_ok (host_end host_parser k buf rest).
Proof.
  unfold host_end.
  destruct (is_special k && bool_decide (buf = [])); [exact I|].
  destruct (host_parser _ buf); simpl; [apply path_start_state_ok | exact I].
Qed.

Lemma host_state_ok k rest : forall inside buf,
  result_ok (host_state host_parser k inside buf rest).
Proof.
  induction rest as [|c rest IH]; intros inside buf; cbn [host_state].
  - apply host_end_ok.
  - destruct (is_char ":" c && negb inside).
    + destruct (bool_decide (buf = [])); [exact I|].
      destruct (host_parser _ buf); [apply port_state_ok | exact I].
    + destruct (ends_authority k c); [apply host_end_ok | apply IH].
Qed.

Lemma authority_state_ok k rest : forall seen buf,
  result_ok (authority_state host_parser k seen buf rest).
Proof.
  induction rest as [|c rest IH]; intros seen buf; cbn [authority_state].
  - destruct (seen && bool_decide (buf = [])); [exact I | apply host_state_ok].
  - destruct (is_char "@" c); [apply IH|].
    destruct (ends_authority k c); [|apply IH].
    destruct (seen && bool_decide (buf = [])); [exact I | apply host_state_ok].
Qed.

Lemma special_authority_ignore_slashes_state_ok k rest :
  result_ok (special_authority_ignore_slashes_state host_parser k rest).
Proof.
  induction rest as [|c rest IH]; cbn [special_authority_ignore_slashes_state].
  - apply authority_state_ok.
  - destruct (is_slash c || is_backslash c); [apply IH | apply authority_state_ok].
Qed.

Lemma special_authority_slashes_state_ok k rest :
  result_ok (special_authority_slashes_state host_parser k rest).
Proof.
  unfold special_authority_slashes_state.
  destruct rest as [|c [|d rest']];
    try destruct (is_slash c && is_slash d);
    apply special_authority_ignore_slashes_state_ok.
Qed.

Lemma base_path_ok : Forall seg_ok base_path.
Proof. repeat constructor; apply seg_ok_nil. Qed.

Lemma relative_slash_state_ok rest :
  result_ok (relative_slash_state host_parser rest).
Proof.
  unfold relative_slash_state. destruct rest as [|c rest']; segments_ok.
  apply special_authority_ignore_slashes_state_ok.
Qed.

Lemma relative_state_ok rest : result_ok (relative_state host_parser rest).
Proof.
  unfold relative_state. destruct rest as [|c rest']; simpl.
  - apply base_path_ok.
  - destruct (is_slash c || is_backslash c); [apply relative_slash_state_ok|].
    destruct (is_question c || is_hash c); simpl; [apply base_path_ok|].
    apply path_state_ok; [constructor | apply not_elem_of_nil].
Qed.

Lemma special_relative_or_authority_state_ok rest :
  result_ok (special_relative_or_authority_state host_parser rest).
Proof.
  unfold special_relative_or_authority_state.
  destruct rest as [|c [|d rest']]; try apply relative_state_ok.
  destruct (is_slash c && is_slash d);
    [apply special_authority_ignore_slashes_state_ok | apply relative_state_ok].
Qed.

Lemma path_or_authority_state_ok rest :
  result_ok (path_or_authority_state host_parser rest).
Proof.
  unfold path_or_authority_state. destruct rest as [|c rest']; segments_ok.
  apply authority_state_ok.
Qed.

Lemma file_host_end_ok buf rest : result_ok (file_host_end host_parser buf rest).
Proof.
  unfold file_host_end.
  destruct (is_windows_drive_letter buf) eqn:Hd; simpl.
  { apply path_state_ok; [constructor | apply drive_letter_has_no_slash, Hd]. }
  destruct (bool_decide (buf = [])); simpl; [apply path_start_state_ok|].
  destruct (host_parser false buf); simpl; [apply path_start_state_ok | exact I].
Qed.

Lemma file_host_state_ok rest : forall buf,
  result_ok (file_host_state host_parser buf rest).
Proof.
  induction rest as [|c rest IH]; intros buf; cbn [file_host_state].
  - apply file_host_end_ok.
  - destruct (is_slash c || is_backslash c || is_question c || is_hash c);
      [apply file_host_end_ok | apply IH].
Qed.

Lemma file_slash_state_ok rest : result_ok (file_slash_state host_parser rest).
Proof.
  unfold file_slash_state. destruct rest as [|c rest']; segments_ok.
  apply file_host_state_ok.
Qed.

Lemma file_state_ok rest : result_ok (file_state host_parser rest).
Proof.
  unfold file_state. destruct rest as [|c rest']; segments_ok.
  apply file_slash_state_ok.
Qed.

(** An opaque path starts with what follows the colon, which is no
    slash. *)
Lemma opaque_path_state_head c rest :
  is_slash c = false -> head (opaque_path_state (c :: rest)) <> Some SLASH.
Proof.
  intros Hc. simpl.
  destruct (is_question c || is_hash c); [discriminate|].
  destruct (is_char " " c) eqn:Hsp.
  - apply Ascii.eqb_eq in Hsp. subst c.
    destruct rest as [|d rest']; [discriminate|].
    destruct (is_question d || is_hash d); discriminate.
  - unfold utf8_percent_encode.
    destruct (c0_control_percent_encode_set c); simpl; [discriminate|].
    apply is_slash_false in Hc. congruence.
Qed.

Lemma after_scheme_ok scheme rest : result_ok (after_scheme host_parser scheme rest).
Proof.
  unfold after_scheme. destruct (classify scheme).
  - apply file_state_ok.
  - destruct (bool_decide (scheme = base_scheme));
      [apply special_relative_or_authority_state_ok
      | apply special_authority_slashes_state_ok].
  - destruct rest as [|c rest']; [discriminate|].
    destruct (is_slash c) eqn:Hc; [apply path_or_authority_state_ok|].
    apply opaque_path_state_head, Hc.
Qed.

(** Whatever the input and the host parser, a parsed path is a list
    of segments without slashes and dot segments, or an opaque path
    that does not start with a slash. *)
Lemma basic_url_parser_ok input : result_ok (basic_url_parser host_parser input).
Proof.
  unfold basic_url_parser.
  destruct (scheme_start_state (preprocess input)) as [[scheme rest]|].
  - apply after_scheme_ok.
  - apply relative_state_ok.
Qed.

End States.

End URLFacts.

(** ** The logo path resolver *)

Module LogoStorageFacts.

Import URL URLFacts LogoStorage.

Lemma list_ascii_of_string_app (a b : string) :
  list_ascii_of_string (a ++ b) = (list_ascii_of_string a ++ list_ascii_of_string b)%list.
Proof. induction a as [|c a IH]; simpl; [reflexivity | rewrite IH; reflexivity]. Qed.

Lemma string_of_list_ascii_app (a b : list ascii) :
  string_of_list_ascii (a ++ b) = (string_of_list_ascii a ++ string_of_list_ascii b)%string.
Proof. induction a as [|c a IH]; simpl; [reflexivity | rewrite IH; reflexivity]. Qed.

Lemma slice_0 s : slice 0 s = s.
Proof. destruct s; reflexivity. Qed.

Lemma startsWith_slice s p :
  startsWith s p = true -> s = (p ++ slice (String.length p) s)%string.
Proof.
  revert s. induction p as [|a p IH]; intros s H.
  - change (s = slice 0 s). rewrite slice_0. reflexivity.
  - destruct s as [|b s]; simpl in H; [discriminate H|].
    apply andb_true_iff in H as [Hab Hp].
    apply Ascii.eqb_eq in Hab. subst b.
    change (String a s = String a (p ++ slice (String.length p) s)).
    f_equal. apply IH, Hp.
Qed.

Lemma raw_filename_spec p raw :
  raw_filename p = Some raw ->
  p = (API_PREFIX ++ raw)%string \/ p = (UPLOADS_PREFIX ++ raw)%string.
Proof.
  unfold raw_filename.
  destruct (startsWith p API_PREFIX) eqn:Ha.
  - intros [= <-]. left. apply startsWith_slice, Ha.
  - destruct (startsWith p UPLOADS_PREFIX) eqn:Hu; [|discriminate].
    intros [= <-]. right. apply startsWith_slice, Hu.
Qed.

Lemma raw_filename_api f : raw_filename (API_PREFIX ++ f) = Some f.
Proof. vm_compute. reflexivity. Qed.

Lemma raw_filename_uploads f : raw_filename (UPLOADS_PREFIX ++ f) = Some f.
Proof. vm_compute. reflexivity. Qed.

Lemma FILENAME_RE_test_spec f :
  FILENAME_RE_test f = true <->
  f <> EmptyString /\ forallb filename_char (list_ascii_of_string f) = true.
Proof.
  destruct f as [|c f]; simpl.
  - split; [discriminate | intros [H _]; congruence].
  - split; [intros H; split; [discriminate | exact H] | intros [_ H]; exact H].
Qed.

(** What the characters of a file name are not. *)
Lemma filename_char_plain c :
  filename_char c = true ->
  is_slash c = false /\ is_backslash c = false
  /\ is_question c = false /\ is_hash c = false
  /\ path_percent_encode_set c = false
  /\ is_c0_control_or_space c = false.
Proof.
  destruct c as [[] [] [] [] [] [] [] []]; vm_compute; intros H;
    first [ discriminate H | repeat split ].
Qed.

Lemma filename_has_no_slash f :
  forallb filename_char f = true -> SLASH ∉ f.
Proof.
  intros H Hin. rewrite forallb_forall in H.
  apply list_elem_of_In in Hin. specialize (H _ Hin). discriminate H.
Qed.

(** The path state reads a file name into its buffer unchanged. *)
Lemma path_state_filename k f : forall path buf,
  forallb filename_char f = true ->
  path_state k path buf f = end_segment k path (buf ++ f) false.
Proof.
  induction f as [|c f IH]; intros path buf H; cbn [path_state].
  - rewrite app_nil_r. reflexivity.
  - simpl in H. apply andb_true_iff in H as [Hc Hf].
    destruct (filename_char_plain c Hc) as (Hs & Hb & Hq & Hh & He & _).
    rewrite Hs, Hb, Hq, Hh, andb_false_r. simpl.
    unfold utf8_percent_encode. rewrite He, IH by exact Hf.
    rewrite <- app_assoc. reflexivity.
Qed.

(** The same up to a slash: the segment is ended and the next one
    begins. *)
Lemma path_state_segment k seg rest : forall path buf,
  forallb filename_char seg = true ->
  path_state k path buf (seg ++ SLASH :: rest)
  = path_state k (end_segment k path (buf ++ seg) true) [] rest.
Proof.
  induction seg as [|c seg IH]; intros path buf H.
  - rewrite app_nil_r. reflexivity.
  - simpl in H. apply andb_true_iff in H as [Hc Hf].
    destruct (filename_char_plain c Hc) as (Hs & Hb & Hq & Hh & He & _).
    cbn [app path_state]. rewrite Hs, Hb, Hq, Hh, andb_false_r. simpl.
    unfold utf8_percent_encode. rewrite He, IH by exact Hf.
    rewrite <- app_assoc. reflexivity.
Qed.

Local Arguments path_state : simpl never.

Lemma strip_leading_id l :
  forallb (fun c => negb (is_c0_control_or_space c)) l = true -> strip_leading l = l.
Proof.
  destruct l as [|c l]; simpl; [reflexivity|].
  intros H. apply andb_true_iff in H as [Hc _].
  apply negb_true_iff in Hc. rewrite Hc. reflexivity.
Qed.

Lemma tab_or_newline_is_c0 c :
  is_c0_control_or_space c = false -> is_ascii_tab_or_newline c = false.
Proof.
  destruct c as [[] [] [] [] [] [] [] []]; vm_compute; intros H;
    first [ discriminate H | reflexivity ].
Qed.

(** Text without controls and spaces passes the preprocessing
    unchanged. *)
Lemma preprocess_id l :
  forallb (fun c => negb (is_c0_control_or_space c)) l = true -> preprocess l = l.
Proof.
  intros H. unfold preprocess.
  rewrite (strip_leading_id l H).
  rewrite strip_leading_id, rev_involutive.
  - induction l as [|c l IH]; simpl; [reflexivity|].
    simpl in H. apply andb_true_iff in H as [Hc Hl].
    apply negb_true_iff in Hc. rewrite (tab_or_newline_is_c0 c Hc). simpl.
    f_equal. apply IH, Hl.
  - rewrite forallb_forall in *. intros c Hc. apply H, in_rev, Hc.
Qed.

Lemma filename_is_plain_text f :
  forallb filename_char f = true ->
  forallb (fun c => negb (is_c0_control_or_space c)) f = true.
Proof.
  rewrite !forallb_forall. intros H c Hc.
  destruct (filename_char_plain c (H c Hc)) as (_ & _ & _ & _ & _ & Hz).
  rewrite Hz. reflexivity.
Qed.

Lemma serialize_segments_snoc segs s :
  serialize_path (Segments (segs ++ [s]))
  = (serialize_path (Segments segs) ++ SLASH :: s)%list.
Proof.
  unfold serialize_path. rewrite map_app, concat_app. simpl.
  rewrite app_nil_r. reflexivity.
Qed.

(** What follows the last slash of a serialized path is its last
    segment. *)
Lemma last_segment segs pre f :
  Forall seg_ok segs ->
  serialize_path (Segments segs) = (pre ++ SLASH :: f)%list ->
  SLASH ∉ f ->
  last segs = Some f.
Proof.
  intros Hok Heq Hf.
  destruct segs as [|s0 segs0] using rev_ind.
  - simpl in Heq. destruct pre; discriminate Heq.
  - rewrite serialize_segments_snoc in Heq.
    apply Forall_app in Hok as [_ Hs]. apply Forall_inv in Hs as (Hs & _ & _).
    apply not_elem_of_app_cons_inv_r in Heq as (_ & _ & ->); [|assumption..].
    apply last_snoc.
Qed.

Section Resolver.

Variable host_parser : bool -> list ascii -> bool.

(** A path [/c...] without controls and spaces, [c] no separator, is
    parsed relative to the base, from the root. *)
Lemma parse_rooted_path c rest :
  filename_char c = true ->
  forallb (fun c => negb (is_c0_control_or_space c)) rest = true ->
  basic_url_parser host_parser (SLASH :: c :: rest)
  = Some (Segments (path_state Special [] [] (c :: rest))).
Proof.
  intros Hc Hrest.
  destruct (filename_char_plain c Hc) as (Hs & Hb & _ & _ & _ & Hz).
  unfold basic_url_parser. rewrite preprocess_id.
  2: { simpl. rewrite Hz. exact Hrest. }
  unfold scheme_start_state, relative_state, relative_slash_state.
  change (is_ascii_alpha SLASH) with false.
  change (is_slash SLASH) with true.
  rewrite Hs, Hb. reflexivity.
Qed.

(** The resolver's own output parses to itself. *)
Lemma pathname_api f :
  forallb filename_char (list_ascii_of_string f) = true ->
  is_single_dot (list_ascii_of_string f) = false ->
  is_double_dot (list_ascii_of_string f) = false ->
  pathname host_parser (API_PREFIX ++ f) = Some (API_PREFIX ++ f)%string.
Proof.
  set (lf := list_ascii_of_string f). intros Hf Hsd Hdd.
  unfold pathname. rewrite list_ascii_of_string_app. fold lf.
  change (list_ascii_of_string API_PREFIX ++ lf)%list
    with (SLASH :: "a"%char
            :: (chars "pi" ++ SLASH :: chars "upload" ++ SLASH :: chars "logo" ++ SLASH :: lf))%list.
  rewrite parse_rooted_path.
  2: { reflexivity. }
  2: { rewrite !forallb_app. simpl. rewrite (filename_is_plain_text lf Hf).
       reflexivity. }
  change ("a"%char :: (chars "pi" ++ SLASH :: chars "upload" ++ SLASH :: chars "logo" ++ SLASH :: lf))%list
    with (chars "api" ++ SLASH :: chars "upload" ++ SLASH :: chars "logo" ++ SLASH :: lf)%list.
  rewrite !path_state_segment by reflexivity.
  rewrite path_state_filename by exact Hf.
  match goal with
  | |- context [end_segment Special ?P ([] ++ lf) false] =>
      change P with [chars "api"; chars "upload"; chars "logo"]
  end.
  unfold end_segment. rewrite app_nil_l, Hdd, Hsd.
  cbn [is_file andb option_map].
  change (serialize_path _) with (list_ascii_of_string API_PREFIX ++ (lf ++ []))%list.
  rewrite app_nil_r, string_of_list_ascii_app. subst lf.
  rewrite !string_of_list_ascii_of_string. reflexivity.
Qed.

(** The file name [extractLogoFilenameFromUrl] returns: it passes
    [FILENAME_RE], it is the last segment of the parsed path, behind
    one of the two prefixes, and so it is no dot segment. *)
Lemma extractLogoFilenameFromUrl_spec x f :
  extractLogoFilenameFromUrl host_parser x = Some f ->
  FILENAME_RE_test f = true
  /\ seg_ok (list_ascii_of_string f)
  /\ exists url, x = Some url
       /\ (pathname host_parser url = Some (API_PREFIX ++ f)%string
           \/ pathname host_parser url = Some (UPLOADS_PREFIX ++ f)%string).
Proof.
  unfold extractLogoFilenameFromUrl.
  destruct x as [url|]; [|discriminate].
  destruct url as [|c0 url0]; [discriminate|].
  set (url := String c0 url0).
  destruct (pathname host_parser url) as [p|] eqn:Hp; [|discriminate].
  destruct (raw_filename p) as [raw|] eqn:Hraw; [|discriminate].
  destruct (FILENAME_RE_test raw) eqn:Hre; [|discriminate].
  intros [= ->]. split; [exact Hre|].
  apply raw_filename_spec in Hraw.
  split; [|exists url; split; [reflexivity | destruct Hraw; subst p; tauto]].
  apply FILENAME_RE_test_spec in Hre as [_ Hre].
  pose proof (filename_has_no_slash _ Hre) as Hns.
  unfold pathname in Hp.
  pose proof (basic_url_parser_ok host_parser (list_ascii_of_string url)) as Hok.
  destruct (basic_url_parser host_parser (list_ascii_of_string url)) as [up|];
    [|discriminate Hp].
  simpl in Hp. injection Hp as Hp.
  assert (Hser : serialize_path up = list_ascii_of_string p).
  { rewrite <- Hp. symmetry. apply list_ascii_of_string_of_list_ascii. }
  assert (Hform : exists pre,
    list_ascii_of_string p = (SLASH :: pre ++ SLASH :: list_ascii_of_string f)%list).
  { destruct Hraw as [-> | ->]; rewrite list_ascii_of_string_app.
    - exists (chars "api/upload/logo"). reflexivity.
    - exists (chars "uploads"). reflexivity. }
  destruct Hform as [pre Hform]. rewrite Hform in Hser. clear Hform Hp.
  destruct up as [o|segs]; cbn [result_ok path_ok] in Hok.
  - exfalso. cbn [serialize_path] in Hser. subst o. apply Hok. reflexivity.
  - pose proof (last_segment segs (SLASH :: pre) _ Hok Hser Hns) as Hlast.
    apply last_Some_elem_of in Hlast.
    rewrite Forall_forall in Hok. apply Hok. exact Hlast.
Qed.

End Resolver.

Lemma filename_excludes_slash f :
  forallb filename_char (list_ascii_of_string f) = true -> includes f "/" = false.
Proof.
  induction f as [|c f IH]; intros H; [reflexivity|].
  change (forallb filename_char (c :: list_ascii_of_string f) = true) in H.
  apply andb_true_iff in H as [Hc Hf].
  destruct (filename_char_plain c Hc) as (Hs & _).
  apply is_slash_false in Hs.
  change (includes (String c f) "/")
    with (Ascii.eqb "/"%char c && true || includes f "/").
  destruct (Ascii.eqb_spec "/"%char c) as [<-|_];
    [exfalso; apply Hs; reflexivity|].
  apply IH, Hf.
Qed.

Lemma toApiLogoPath_of_filename host_parser x f :
  extractLogoFilenameFromUrl host_parser x = Some f ->
  FILENAME_RE_test f = true ->
  toApiLogoPath host_parser x = Some (API_PREFIX ++ f)%string.
Proof.
  intros Hx Hre. unfold toApiLogoPath. rewrite Hx.
  destruct f; [discriminate Hre | reflexivity].
Qed.

Lemma toApiLogoPath_inv host_parser x p :
  toApiLogoPath host_parser x = Some p ->
  exists f, extractLogoFilenameFromUrl host_parser x = Some f
            /\ p = (API_PREFIX ++ f)%string.
Proof.
  unfold toApiLogoPath.
  destruct (extractLogoFilenameFromUrl host_parser x) as [[|c f]|]; try discriminate.
  intros [= <-]. eexists. split; reflexivity.
Qed.

(** C3, as amended. For every input and every host parser,
    [toApiLogoPath] returns a path exactly when the pathname of the
    input, resolved as a URL against the placeholder base, is
    [/api/upload/logo/] or [/uploads/] followed by a non-empty name over
    [[A-Za-z0-9_.-]], and the path returned is [/api/upload/logo/] and
    that name; it returns null in every other case. The name returned
    holds no slash and is neither [.] nor [..]. *)
Theorem toApiLogoPath_by_resolved_pathname
    (host_parser : bool -> list ascii -> bool) (logoUrl : string) :
  (forall p,
     toApiLogoPath host_parser (Some logoUrl) = Some p <->
     exists f, FILENAME_RE_test f = true
       /\ p = (API_PREFIX ++ f)%string
       /\ (pathname host_parser logoUrl = Some (API_PREFIX ++ f)%string
           \/ pathname host_parser logoUrl = Some (UPLOADS_PREFIX ++ f)%string))
  /\ (forall p,
        toApiLogoPath host_parser (Some logoUrl) = Some p ->
        exists f, p = (API_PREFIX ++ f)%string
          /\ includes f "/" = false /\ f <> "." /\ f <> "..").
Proof.
  split; intros p.
  - split.
    + intros Hp. apply toApiLogoPath_inv in Hp as (f & Hf & ->).
      apply extractLogoFilenameFromUrl_spec in Hf as (Hre & _ & url & [= <-] & Hpath).
      exists f. tauto.
    + intros (f & Hre & -> & Hpath).
      apply toApiLogoPath_of_filename; [|exact Hre].
      unfold extractLogoFilenameFromUrl.
      destruct logoUrl as [|c0 url0].
      { exfalso. destruct Hpath as [H|H]; vm_compute in H; discriminate H. }
      destruct Hpath as [-> | ->].
      * rewrite raw_filename_api, Hre. reflexivity.
      * rewrite raw_filename_uploads, Hre. reflexivity.
  - intros Hp. apply toApiLogoPath_inv in Hp as (f & Hf & ->).
    apply extractLogoFilenameFromUrl_spec in Hf as (Hre & (_ & Hsd & Hdd) & _).
    apply FILENAME_RE_test_spec in Hre as [_ Hre].
    exists f. split; [reflexivity|].
    split; [apply filename_excludes_slash, Hre|].
    split; intros ->; [discriminate Hsd | discriminate Hdd].
Qed.

(** C3, as stated, fails on two inputs: a path with a [../] sequence,
    which the URL parser resolves before the prefix is tested, and an
    absolute external URL, of which only the pathname is read. *)
Lemma toApiLogoPath_accepts_traversal_and_external_url :
  includes "/uploads/../uploads/logo.png" "../" = true
  /\ toApiLogoPath plain_domain_host (Some "/uploads/../uploads/logo.png")
     = Some "/api/upload/logo/logo.png"
  /\ toApiLogoPath plain_domain_host (Some "https://evil.com/uploads/logo.png")
     = Some "/api/upload/logo/logo.png".
Proof. repeat split; vm_compute; reflexivity. Qed.

(** C4. [toApiLogoPath] is idempotent: applied to its own result, a
    path or null, it returns that result, for every input and every
    host parser. *)
Theorem toApiLogoPath_idempotent
    (host_parser : bool -> list ascii -> bool) (logoUrl : option string) :
  toApiLogoPath host_parser (toApiLogoPath host_parser logoUrl)
  = toApiLogoPath host_parser logoUrl.
Proof.
  destruct (toApiLogoPath host_parser logoUrl) as [p|] eqn:Hp; [|reflexivity].
  apply toApiLogoPath_inv in Hp as (f & Hf & ->).
  apply extractLogoFilenameFromUrl_spec in Hf as (Hre & (_ & Hsd & Hdd) & _).
  apply toApiLogoPath_of_filename; [|exact Hre].
  pose proof Hre as Hre'. apply FILENAME_RE_test_spec in Hre' as [_ Hchars].
  unfold extractLogoFilenameFromUrl.
  rewrite (pathname_api host_parser f Hchars Hsd Hdd), raw_filename_api, Hre.
  reflexivity.
Qed.

End LogoStorageFacts.

(** ** The export proxy *)

Module ExportRouteFacts.

Import PlanCapabilities Prisma Handler ExportRoute.

Ltac unfold_handler :=
  unfold handle, run, GET, bind, require, guard, respond, ret, throw.

Section Route.

Context {Json : Type}.
Variable JSON_parse : string -> option Json.
Variable fastapiFetch : UpstreamRequest Json -> option UpstreamResponse.

Lemma non_agency_allows_pdf_only planId format :
  planId <> Some "agency" -> format <> pdf ->
  format ∉ allowedExportFormats (getPlanCapabilities planId).
Proof.
  intros Hplan Hformat. unfold getPlanCapabilities.
  apply strict_eq_false in Hplan. rewrite Hplan. cbn [allowedExportFormats].
  intros Hin. apply list_elem_of_singleton in Hin. contradiction.
Qed.

(** C6. An export request of an authenticated caller whose format is
    one of the three supported ones (in any letter case) and is not
    among the formats of the caller's plan is answered 403 with the
    message that the plan allows PDF export only, and no upstream call
    is made; so it is for docx and html under every plan other than
    agency. *)
Theorem export_format_outside_plan_is_forbidden
    (db : Db) (req : Request) (uid : string) (user : User) (format : ExportFormat) :
  session_user req = Some uid ->
  users db !! uid = Some user ->
  supported_format (requestedFormat req) = Some format ->
  (format ∉ allowedExportFormats (getPlanCapabilities (planId user))
   \/ (planId user <> Some "agency" /\ format <> pdf)) ->
  handle JSON_parse fastapiFetch db req
  = ([], Returned (JsonError 403 "Your plan allows PDF export only")).
Proof.
  intros Hsession Huser Hformat Hout.
  assert (Hnot : format ∉ allowedExportFormats (getPlanCapabilities (planId user))).
  { destruct Hout as [H | [Hplan Hpdf]];
      [exact H | apply non_agency_allows_pdf_only; assumption]. }
  unfold_handler. rewrite Hsession, Hformat, Huser.
  rewrite bool_decide_eq_false_2 by exact Hnot. reflexivity.
Qed.

(** C5, as amended. When the caller is authenticated and the request
    has passed the checks that come first (a supported format, the
    caller's user record, a format of the caller's plan), an audit that
    is absent and an audit of another user get the same response, 404
    with the message Not found, and no upstream call is made. *)
Theorem export_audit_absent_or_foreign_is_not_found
    (db : Db) (req : Request) (uid : string) (user : User) (format : ExportFormat) :
  session_user req = Some uid ->
  supported_format (requestedFormat req) = Some format ->
  users db !! uid = Some user ->
  format ∈ allowedExportFormats (getPlanCapabilities (planId user)) ->
  (audits db !! id req = None
   \/ exists audit, audits db !! id req = Some audit /\ audit_userId audit <> uid) ->
  handle JSON_parse fastapiFetch db req
  = ([], Returned (JsonError 404 "Not found")).
Proof.
  intros Hsession Hformat Huser Hallowed Haudit.
  assert (Hnone : owned_audit db uid (id req) = None).
  { unfold owned_audit. destruct Haudit as [-> | (audit & -> & Hother)]; [reflexivity|].
    rewrite bool_decide_eq_false_2 by exact Hother. reflexivity. }
  unfold_handler. rewrite Hsession, Hformat, Huser.
  rewrite bool_decide_eq_true_2 by exact Hallowed.
  rewrite Hnone. reflexivity.
Qed.

(** The null-body statuses below 200 are outside the range anyway. *)
Lemma json_status_spec (status : nat) :
  json_status status
  = ((200 <=? status) && (status <=? 599)
     && negb ((status =? 204) || (status =? 205) || (status =? 304)))%nat.
Proof.
  unfold json_status, null_body_status.
  destruct (200 <=? status)%nat eqn:Hlow; [|reflexivity].
  apply Nat.leb_le in Hlow.
  replace (status =? 101)%nat with false by (symmetry; apply Nat.eqb_neq; lia).
  replace (status =? 103)%nat with false by (symmetry; apply Nat.eqb_neq; lia).
  reflexivity.
Qed.

(** C1, as amended. When the download of an export request is
    answered 404:
    - with a cached result that is not empty and deserializes, exactly
      one regeneration POST follows; it carries the deserialized
      result, the format, watermark flag and brand of the download, and
      as language the requested one, else the audit's, else en; its
      artifact is returned when it succeeds; when it fails, the
      response is an error with its status if that is a status a JSON
      response can carry (from 200 to 599 and none of 204, 205, 304),
      and the handler throws otherwise;
    - with a cached result that does not deserialize the handler
      throws, and no regeneration call is made;
    - with no cached result, or an empty one, the response is the 404
      and no regeneration call is made. *)
Theorem export_regenerates_from_cached_result
    (db : Db) (req : Request) (uid : string) (user : User)
    (format : ExportFormat) (audit : Audit) (res : UpstreamResponse) :
  session_user req = Some uid ->
  supported_format (requestedFormat req) = Some format ->
  users db !! uid = Some user ->
  let capabilities := getPlanCapabilities (planId user) in
  let brand := brand_for db uid (origin req) capabilities in
  let download :=
    Download (fastApiId audit)
      (download_query format (lang_param req) (showWatermark capabilities) brand) in
  format ∈ allowedExportFormats capabilities ->
  owned_audit db uid (id req) = Some audit ->
  fastapiFetch download = Some res ->
  status res = 404 ->
  handle JSON_parse fastapiFetch db req
  = if Js.truthy (resultJson audit) then
      match JSON_parse (Js.or_else (resultJson audit) "") with
      | Some payload =>
          let generate := Generate {|
            gen_format := format;
            gen_audit := payload;
            gen_language :=
              Js.or_else (lang_param req) (Js.or_else (language audit) "en");
            gen_show_watermark := showWatermark capabilities;
            gen_brand := brand |} in
          ([download; generate],
           match fastapiFetch generate with
           | Some regenerated =>
               if ok regenerated then Returned (relay regenerated)
               else if ((200 <=? status regenerated) && (status regenerated <=? 599)
                        && negb ((status regenerated =? 204)
                                 || (status regenerated =? 205)
                                 || (status regenerated =? 304)))%nat
               then Returned (JsonError (status regenerated)
                                "Report generation failed")
               else Threw
           | None => Threw
           end)
      | None => ([download], Threw)
      end
    else ([download], Returned (JsonError 404 "Export failed")).
Proof.
  intros Hsession Hformat Huser capabilities brand download
         Hallowed Haudit Hfetch Hstatus.
  unfold_handler. rewrite Hsession, Hformat, Huser.
  fold capabilities. rewrite bool_decide_eq_true_2 by exact Hallowed.
  rewrite Haudit. fold brand. unfold fetch. fold download.
  rewrite Hfetch, Hstatus. cbn [Nat.eqb andb app].
  destruct (Js.truthy (resultJson audit)) eqn:Hcached.
  - unfold parse, ret, throw.
    destruct (JSON_parse (Js.or_else (resultJson audit) "")) as [payload|];
      [|reflexivity].
    cbn zeta. cbn [app].
    match goal with
    | |- context [fastapiFetch ?g] => destruct (fastapiFetch g) as [regenerated|]
    end; [|reflexivity].
    destruct (ok regenerated); [reflexivity|].
    cbn [negb]. unfold respond_json. rewrite <- json_status_spec.
    destruct (json_status (status regenerated)); reflexivity.
  - unfold ok. rewrite Hstatus. reflexivity.
Qed.

Lemma ascii_lowercase_idempotent c :
  URL.ascii_lowercase (URL.ascii_lowercase c) = URL.ascii_lowercase c.
Proof. destruct c as [[] [] [] [] [] [] [] []]; vm_compute; reflexivity. Qed.

Lemma toLowerCase_idempotent s : Js.toLowerCase (Js.toLowerCase s) = Js.toLowerCase s.
Proof.
  unfold Js.toLowerCase. rewrite list_ascii_of_string_of_list_ascii, map_map.
  f_equal. apply map_ext. intros c. apply ascii_lowercase_idempotent.
Qed.

Lemma requestedFormat_lowercase req f :
  requestedFormat (with_format req (Some (Js.toLowerCase f)))
  = requestedFormat (with_format req (Some f)).
Proof.
  unfold requestedFormat, with_format. cbn [format_param].
  destruct f as [|c f]; [reflexivity|].
  change (Js.toLowerCase (String c f))
    with (String (URL.ascii_lowercase c) (Js.toLowerCase f)).
  cbn [Js.or_else].
  change (String (URL.ascii_lowercase c) (Js.toLowerCase f))
    with (Js.toLowerCase (String c f)).
  apply toLowerCase_idempotent.
Qed.

(** The capital of a lower-case letter, written out: the character
    32 code points below it. *)
Definition capital (x : ascii) : ascii := ascii_of_N (N_of_ascii x - 32).

(** [s] spells the lower-case word [word] in some letter case:
    character by character, the letter of the word or its capital. *)
Fixpoint spells (s word : string) : Prop :=
  match s, word with
  | EmptyString, EmptyString => True
  | String c s', String x word' => (c = x \/ c = capital x) /\ spells s' word'
  | _, _ => False
  end.

Lemma lowercase_of_letter_and_capital x :
  URL.is_ascii_lower_alpha x = true ->
  URL.ascii_lowercase x = x /\ URL.ascii_lowercase (capital x) = x.
Proof.
  destruct x as [[] [] [] [] [] [] [] []]; vm_compute;
    first [ discriminate | split; reflexivity ].
Qed.

Lemma spells_lowercase s word :
  forallb URL.is_ascii_lower_alpha (list_ascii_of_string word) = true ->
  spells s word -> Js.toLowerCase s = word.
Proof.
  revert s. induction word as [|x word IH]; intros s Hword Hspells.
  - destruct s; [reflexivity | destruct Hspells].
  - destruct s as [|c s]; [destruct Hspells|].
    destruct Hspells as [Hc Hs].
    change (forallb URL.is_ascii_lower_alpha (x :: list_ascii_of_string word) = true)
      in Hword.
    apply andb_true_iff in Hword as [Hx Hword].
    change (Js.toLowerCase (String c s))
      with (String (URL.ascii_lowercase c) (Js.toLowerCase s)).
    destruct (lowercase_of_letter_and_capital x Hx) as [Hletter Hcapital].
    rewrite (IH s Hword Hs).
    destruct Hc as [-> | ->]; [rewrite Hletter | rewrite Hcapital]; reflexivity.
Qed.

Lemma format_name_is_lowercase format :
  forallb URL.is_ascii_lower_alpha (list_ascii_of_string (format_name format)) = true.
Proof. destruct format; reflexivity. Qed.

Lemma requestedFormat_of_spelling req f format :
  spells f (format_name format) ->
  requestedFormat (with_format req (Some f)) = format_name format.
Proof.
  intros Hspells. unfold requestedFormat, with_format. cbn [format_param].
  assert (Hlower : Js.toLowerCase f = format_name format)
    by (apply spells_lowercase; [apply format_name_is_lowercase | exact Hspells]).
  destruct f as [|c f]; [destruct format; destruct Hspells|].
  cbn [Js.or_else]. exact Hlower.
Qed.

Lemma spells_itself word : spells word word.
Proof. induction word as [|x word IH]; cbn; auto. Qed.

(** C10. The format parameter is matched without regard to letter
    case: a request is handled exactly as the request with the
    parameter in lower case; and a spelling of pdf, html or docx with
    any of its letters capital is the format it spells, not an
    unsupported one, and the request is handled exactly as the request
    that names the format in lower case. *)
Theorem export_format_is_case_insensitive
    (db : Db) (req : Request) (f : string) :
  handle JSON_parse fastapiFetch db (with_format req (Some f))
  = handle JSON_parse fastapiFetch db (with_format req (Some (Js.toLowerCase f)))
  /\ (forall format, Js.toLowerCase f = format_name format ->
        supported_format (requestedFormat (with_format req (Some f))) = Some format)
  /\ (forall format, spells f (format_name format) ->
        supported_format (requestedFormat (with_format req (Some f))) = Some format
        /\ handle JSON_parse fastapiFetch db (with_format req (Some f))
           = handle JSON_parse fastapiFetch db
               (with_format req (Some (format_name format)))).
Proof.
  split; [|split].
  - unfold handle, GET. rewrite requestedFormat_lowercase. reflexivity.
  - intros format Hf. unfold requestedFormat, with_format. cbn [format_param].
    destruct f as [|c f].
    + destruct format; discriminate Hf.
    + cbn [Js.or_else]. rewrite Hf. destruct format; reflexivity.
  - intros format Hspells. split.
    + rewrite (requestedFormat_of_spelling req f format Hspells).
      destruct format; reflexivity.
    + unfold handle, GET.
      rewrite (requestedFormat_of_spelling req f format Hspells).
      rewrite (requestedFormat_of_spelling req (format_name format) format
                 (spells_itself _)).
      reflexivity.
Qed.

End Route.

(** C6 at a request for docx by a user on the free plan. *)
Lemma export_format_outside_plan_is_forbidden_witness :
  handle example_parse (evicted_upstream 200) example_db
    (example_request "a1" (Some "docx"))
  = ([], Returned (JsonError 403 "Your plan allows PDF export only")).
Proof.
  apply (export_format_outside_plan_is_forbidden example_parse (evicted_upstream 200)
           example_db (example_request "a1" (Some "docx")) "u1"
           {| planId := Some "free"; gscConnected := false; gscConnectedAt := None |}
           docx).
  - reflexivity.
  - vm_compute. reflexivity.
  - vm_compute. reflexivity.
  - right. split; [discriminate | discriminate].
Defined.

(** C5, as stated, fails when the format check comes first: a caller
    on the free plan who asks for docx of an audit that does not exist
    is answered 403, not 404. *)
Lemma export_absent_audit_answered_403 :
  audits example_db !! "missing" = None
  /\ handle example_parse (evicted_upstream 200) example_db
       (example_request "missing" (Some "docx"))
     = ([], Returned (JsonError 403 "Your plan allows PDF export only")).
Proof. split; vm_compute; reflexivity. Qed.

(** C5 at a request for the PDF of an audit that does not exist. *)
Lemma export_audit_absent_or_foreign_is_not_found_witness :
  handle example_parse (evicted_upstream 200) example_db
    (example_request "missing" None)
  = ([], Returned (JsonError 404 "Not found")).
Proof.
  apply (export_audit_absent_or_foreign_is_not_found example_parse
           (evicted_upstream 200) example_db (example_request "missing" None) "u1"
           {| planId := Some "free"; gscConnected := false; gscConnectedAt := None |}
           pdf).
  - reflexivity.
  - vm_compute. reflexivity.
  - vm_compute. reflexivity.
  - vm_compute. left.
  - left. vm_compute. reflexivity.
Defined.

(** C1, as stated, fails when the regeneration fails: the cached
    result is present, one regeneration POST is made, and the response
    is an error with the regeneration's status, not an artifact. The
    POST carries the language en, which the download did not name. *)
Lemma export_regeneration_failure_is_an_error :
  option_map resultJson (audits example_db !! "a1") = Some (Some "{}")
  /\ handle example_parse (evicted_upstream 500) example_db
       (example_request "a1" None)
     = ([Download "f1" [("format", "pdf"); ("show_watermark", "true")];
         Generate {| gen_format := pdf; gen_audit := "{}"; gen_language := "en";
                     gen_show_watermark := true; gen_brand := None |}],
        Returned (JsonError 500 "Report generation failed")).
Proof. split; vm_compute; reflexivity. Qed.

(** C1 at the same request with a regeneration that succeeds, and
    with one answered 304, a status no JSON response can carry: the
    handler throws after the two calls. *)
Lemma export_regenerates_from_cached_result_witness :
  handle example_parse (evicted_upstream 200) example_db
    (example_request "a1" None)
  = ([Download "f1" [("format", "pdf"); ("show_watermark", "true")];
      Generate {| gen_format := pdf; gen_audit := "{}"; gen_language := "en";
                  gen_show_watermark := true; gen_brand := None |}],
     Returned (Artifact "application/pdf" "attachment" "%PDF"))
  /\ handle example_parse (evicted_upstream 304) example_db
       (example_request "a1" None)
     = ([Download "f1" [("format", "pdf"); ("show_watermark", "true")];
         Generate {| gen_format := pdf; gen_audit := "{}"; gen_language := "en";
                     gen_show_watermark := true; gen_brand := None |}],
        Threw).
Proof.
  split.
  - apply (export_regenerates_from_cached_result example_parse
             (evicted_upstream 200) example_db (example_request "a1" None) "u1"
             {| planId := Some "free"; gscConnected := false;
                gscConnectedAt := None |}
             pdf
             {| audit_userId := "u1"; fastApiId := "f1";
                resultJson := Some "{}"; language := None |}
             {| status := 404; content_type := Some "application/json";
                content_disposition := None; body := "{}" |}).
    + reflexivity.
    + vm_compute. reflexivity.
    + vm_compute. reflexivity.
    + vm_compute. left.
    + vm_compute. reflexivity.
    + reflexivity.
    + reflexivity.
  - apply (export_regenerates_from_cached_result example_parse
             (evicted_upstream 304) example_db (example_request "a1" None) "u1"
             {| planId := Some "free"; gscConnected := false;
                gscConnectedAt := None |}
             pdf
             {| audit_userId := "u1"; fastApiId := "f1";
                resultJson := Some "{}"; language := None |}
             {| status := 404; content_type := Some "application/json";
                content_disposition := None; body := "{}" |}).
    + reflexivity.
    + vm_compute. reflexivity.
    + vm_compute. reflexivity.
    + vm_compute. left.
    + vm_compute. reflexivity.
    + reflexivity.
    + reflexivity.
Defined.

(** C10 at the spellings PDF and Html of a user on the free plan:
    PDF is exported as pdf is, with the artifact of the regeneration,
    and Html is refused by the plan as html is, not as an unsupported
    format. *)
Lemma export_format_is_case_insensitive_witness :
  (supported_format (requestedFormat (example_request "a1" (Some "PDF"))) = Some pdf
   /\ handle example_parse (evicted_upstream 200) example_db
        (example_request "a1" (Some "PDF"))
      = ([Download "f1" [("format", "pdf"); ("show_watermark", "true")];
          Generate {| gen_format := pdf; gen_audit := "{}"; gen_language := "en";
                      gen_show_watermark := true; gen_brand := None |}],
         Returned (Artifact "application/pdf" "attachment" "%PDF")))
  /\ (supported_format (requestedFormat (example_request "a1" (Some "Html")))
      = Some html
      /\ handle example_parse (evicted_upstream 200) example_db
           (example_request "a1" (Some "Html"))
         = ([], Returned (JsonError 403 "Your plan allows PDF export only"))).
Proof.
  split.
  - destruct (export_format_is_case_insensitive example_parse
                (evicted_upstream 200) example_db
                (example_request "a1" None) "PDF") as (_ & _ & Hspelling).
    destruct (Hspelling pdf) as [Hformat Hhandled].
    + cbn. unfold capital. repeat split; auto.
    + split; [exact Hformat|].
      change (with_format (example_request "a1" None) (Some "PDF"))
        with (example_request "a1" (Some "PDF")) in Hhandled.
      rewrite Hhandled. vm_compute. reflexivity.
  - destruct (export_format_is_case_insensitive example_parse
                (evicted_upstream 200) example_db
                (example_request "a1" None) "Html") as (_ & _ & Hspelling).
    destruct (Hspelling html) as [Hformat Hhandled].
    + cbn. unfold capital. repeat split; auto.
    + split; [exact Hformat|].
      change (with_format (example_request "a1" None) (Some "Html"))
        with (example_request "a1" (Some "Html")) in Hhandled.
      rewrite Hhandled. vm_compute. reflexivity.
Defined.

End ExportRouteFacts.

(** ** The brand-settings write *)

Module BrandSettingsRouteFacts.

Import Prisma Handler BrandSettingsRoute.

Section Route.

Variable host_parser : bool -> list ascii -> bool.

(** A path of the resolver is not the empty string. *)
Lemma toApiLogoPath_value_truthy v p :
  toApiLogoPath_value host_parser v = Some p -> Js.truthy (Some p) = true.
Proof.
  unfold toApiLogoPath_value. destruct (Js.truthy_value v); [|discriminate].
  intros Hp. apply LogoStorageFacts.toApiLogoPath_inv in Hp as (f & _ & ->).
  reflexivity.
Qed.

Lemma normalize_supplied logoUrl db :
  supplied logoUrl = true ->
  normalize host_parser logoUrl db
  = match toApiLogoPath_value host_parser logoUrl with
    | Some p => (db, Next (Js.str p))
    | None => (db, Return (JsonError 400 "Invalid logo URL"))
    end.
Proof.
  intros Hs. unfold normalize. rewrite Hs.
  destruct (toApiLogoPath_value host_parser logoUrl) as [p|] eqn:Hp.
  - rewrite (toApiLogoPath_value_truthy _ _ Hp).
    destruct p; [discriminate (toApiLogoPath_value_truthy _ _ Hp) | reflexivity].
  - reflexivity.
Qed.

Lemma normalize_not_supplied logoUrl db :
  supplied logoUrl = false -> normalize host_parser logoUrl db = (db, Next logoUrl).
Proof. intros Hs. unfold normalize. rewrite Hs. reflexivity. Qed.

(** The handler up to the write, once the caller is known to be an
    agency user and the body is read. *)
Lemma handle_agency req db uid companyName logoUrl :
  session_user req = Some uid ->
  is_agency (users db !! uid) = true ->
  body req = Some (companyName, logoUrl) ->
  handle host_parser req db
  = if valid_company_name companyName then
      match normalize host_parser logoUrl db with
      | (_, Next normalized) =>
          match upsert uid companyName normalized db with
          | (db', Next row) => (db', Returned (JsonBranding row))
          | (db', Return r) => (db', Returned r)
          | (db', Throw) => (db', Threw)
          end
      | (_, Return r) => (db, Returned r)
      | (_, Throw) => (db, Threw)
      end
    else (db, Returned
                (JsonError 400 "Company name must be a string under 100 characters")).
Proof.
  intros Hsession Hagency Hbody.
  unfold handle, run, PUT, bind, require, guard, respond, ret, get.
  rewrite Hsession, Hagency, Hbody. cbn [fst snd].
  destruct (valid_company_name companyName); [|reflexivity].
  destruct (supplied logoUrl) eqn:Hs.
  - rewrite (normalize_supplied _ _ Hs).
    destruct (toApiLogoPath_value host_parser logoUrl); [|reflexivity].
    destruct (upsert uid companyName (Js.str s) db) as [db' [row|r|]]; reflexivity.
  - rewrite (normalize_not_supplied _ _ Hs).
    destruct (upsert uid companyName logoUrl db) as [db' [row|r|]]; reflexivity.
Qed.

Lemma upsert_row uid companyName logo db :
  valid_company_name companyName = true ->
  exists name,
    upsert uid companyName (Js.str logo) db
    = (let old := default empty_branding (brandSettings db !! uid) in
       let row := {| companyName := name; logoUrl := Some logo;
                     primaryColor := primaryColor old;
                     accentColor := accentColor old |} in
       (with_brandSettings db (<[uid := row]> (brandSettings db)), Next row)).
Proof.
  intros Hvalid. unfold upsert.
  destruct companyName; try discriminate Hvalid; eexists; reflexivity.
Qed.

Lemma upsert_state uid companyName logoUrl db db' row :
  upsert uid companyName logoUrl db = (db', Next row) ->
  db' = with_brandSettings db (<[uid := row]> (brandSettings db)).
Proof.
  unfold upsert.
  destruct (assign companyName _) as [name|]; [|discriminate].
  destruct (assign logoUrl _) as [logo|]; [|discriminate].
  intros [= <- <-]. reflexivity.
Qed.

Lemma upsert_never_responds uid companyName logoUrl db db' r :
  upsert uid companyName logoUrl db <> (db', Return r).
Proof.
  unfold upsert.
  destruct (assign companyName _) as [name|]; [|discriminate].
  destruct (assign logoUrl _) as [logo|]; discriminate.
Qed.

(** C7. In a write by an agency caller:
    - a company name that is present and is no string, or is longer
      than 100, fails the write with 400 and the database is as it was;
    - a logo value that is supplied (not undefined, null or the empty
      string, the handler's guard) and that the logo resolver rejects
      fails the write with 400 and the database is as it was;
    - a write that succeeds had a valid company name, stores for a
      supplied logo the path the resolver made of it, and changes the
      caller's brand row only;
    - a write with a valid company name and a supplied logo that the
      resolver accepts succeeds, and stores the resolver's path. *)
Theorem brand_settings_write_is_validated
    (req : Request) (db : Db) (uid : string) (companyName logoUrl : Js.value) :
  session_user req = Some uid ->
  is_agency (users db !! uid) = true ->
  body req = Some (companyName, logoUrl) ->
  (valid_company_name companyName = false ->
   handle host_parser req db
   = (db, Returned (JsonError 400 "Company name must be a string under 100 characters")))
  /\ (supplied logoUrl = true ->
      toApiLogoPath_value host_parser logoUrl = None ->
      exists message,
        handle host_parser req db = (db, Returned (JsonError 400 message)))
  /\ (forall db' row,
        handle host_parser req db = (db', Returned (JsonBranding row)) ->
        valid_company_name companyName = true
        /\ (supplied logoUrl = true ->
            exists p, toApiLogoPath_value host_parser logoUrl = Some p
                      /\ Prisma.logoUrl row = Some p)
        /\ db' = with_brandSettings db (<[uid := row]> (brandSettings db)))
  /\ (valid_company_name companyName = true ->
      forall p, toApiLogoPath_value host_parser logoUrl = Some p ->
      supplied logoUrl = true ->
      exists row,
        handle host_parser req db
        = (with_brandSettings db (<[uid := row]> (brandSettings db)),
           Returned (JsonBranding row))
        /\ Prisma.logoUrl row = Some p).
Proof.
  intros Hsession Hagency Hbody.
  rewrite (handle_agency req db uid companyName logoUrl Hsession Hagency Hbody).
  split; [|split; [|split]].
  - intros ->. reflexivity.
  - intros Hs Hnone.
    destruct (valid_company_name companyName); [|eexists; reflexivity].
    rewrite (normalize_supplied _ _ Hs), Hnone. eexists; reflexivity.
  - intros db' row H.
    destruct (valid_company_name companyName) eqn:Hvalid; [|discriminate H].
    split; [reflexivity|]. split.
    + intros Hs. rewrite (normalize_supplied _ _ Hs) in H.
      destruct (toApiLogoPath_value host_parser logoUrl) as [p|]; [|discriminate H].
      destruct (upsert_row uid companyName p db Hvalid) as [name Hup].
      rewrite Hup in H. cbn zeta in H. injection H as <- <-.
      exists p. split; reflexivity.
    + assert (Hnorm : exists normalized,
                normalize host_parser logoUrl db = (db, Next normalized)
                \/ exists message,
                     normalize host_parser logoUrl db
                     = (db, Return (JsonError 400 message))).
      { destruct (supplied logoUrl) eqn:Hs.
        - rewrite (normalize_supplied _ _ Hs).
          destruct (toApiLogoPath_value host_parser logoUrl) as [p|];
            [exists (Js.str p); left; reflexivity
            | exists logoUrl; right; eexists; reflexivity].
        - rewrite (normalize_not_supplied _ _ Hs).
          exists logoUrl. left. reflexivity. }
      destruct Hnorm as [normalized [Hnorm | [message Hnorm]]];
        rewrite Hnorm in H; [|discriminate H].
      destruct (upsert uid companyName normalized db) as [db2 [row'|r|]] eqn:Hup;
        try discriminate H.
      * injection H as <- <-. apply (upsert_state _ _ _ _ _ _ Hup).
      * exfalso. exact (upsert_never_responds _ _ _ _ _ _ Hup).
  - intros Hvalid p Hp Hs. rewrite Hvalid, (normalize_supplied _ _ Hs), Hp.
    destruct (upsert_row uid companyName p db Hvalid) as [name ->].
    cbn zeta. eexists. split; reflexivity.
Qed.

End Route.

(** C7 at a write whose logo is an external URL with no recognized
    path: it is refused and the database is as it was. *)
Lemma brand_settings_write_is_validated_witness :
  exists message,
    handle URL.plain_domain_host
      (example_request (Js.str "New name") (Js.str "https://evil.com/logo.png"))
      example_db
    = (example_db, Returned (JsonError 400 message)).
Proof.
  apply (brand_settings_write_is_validated URL.plain_domain_host
           (example_request (Js.str "New name") (Js.str "https://evil.com/logo.png"))
           example_db "u1" (Js.str "New name") (Js.str "https://evil.com/logo.png")).
  - reflexivity.
  - vm_compute. reflexivity.
  - reflexivity.
  - reflexivity.
  - vm_compute. reflexivity.
Defined.

End BrandSettingsRouteFacts.

(** ** The Search Console disconnect *)

Module DisconnectRouteFacts.

Import Prisma Handler DisconnectRoute.

Section Route.

Variable getGoogleAccount : Db -> string -> option (string * Account).
Variable fault : Write -> bool.

(** The writes keep the tables they do not name. *)
Lemma account_update_tables id d d' :
  account_update fault id d = Some d' ->
  users d' = users d /\ sites d' = sites d.
Proof.
  unfold account_update. destruct (fault AccountUpdate); [discriminate|].
  destruct (accounts d !! id); [|discriminate].
  intros [= <-]. split; reflexivity.
Qed.

Lemma user_update_spec uid d d' :
  user_update fault uid d = Some d' ->
  exists u, users d !! uid = Some u
            /\ d' = with_users d (<[uid := disconnected u]> (users d)).
Proof.
  unfold user_update. destruct (fault UserUpdate); [discriminate|].
  destruct (users d !! uid) as [u|]; [|discriminate].
  intros [= <-]. exists u. split; reflexivity.
Qed.

(** The transaction of the handler, when it commits. *)
Lemma purge_spec uid d d' :
  transaction [user_update fault uid; site_deleteMany fault uid] d = Some d' ->
  exists u, users d !! uid = Some u
            /\ users d' = <[uid := disconnected u]> (users d)
            /\ sites d' = filter (fun p => site_userId p.2 <> uid) (sites d)
            /\ accounts d' = accounts d.
Proof.
  cbn [transaction].
  destruct (user_update fault uid d) as [d1|] eqn:H1; [|discriminate].
  apply user_update_spec in H1 as (u & Hu & ->).
  unfold site_deleteMany. destruct (fault SiteDeleteMany); [discriminate|].
  intros [= <-]. exists u. repeat split; assumption || reflexivity.
Qed.

(** The handler after the session check: the state after the token
    steps, then the last write. *)
Definition after_tokens (uid : string) (d : Db) : State * step Response unit :=
  bind
    (match getGoogleAccount d uid with
     | Some (_, a) =>
         if Js.truthy (access_token a)
         then revoke (Js.or_else (access_token a) "")
         else ret tt
     | None => ret tt
     end)
    (fun _ =>
       match getGoogleAccount d uid with
       | Some (aid, _) => write (account_update fault aid)
       | None => ret tt
       end)
    {| db := d; revoked := [] |}.

Lemma after_tokens_tables uid d :
  users (db (after_tokens uid d).1) = users d
  /\ sites (db (after_tokens uid d).1) = sites d
  /\ (forall r, (after_tokens uid d).2 <> Return r).
Proof.
  unfold after_tokens, bind, revoke, ret, write.
  destruct (getGoogleAccount d uid) as [[aid a]|]; cbn [db fst snd].
  - destruct (Js.truthy (access_token a)); cbn [db fst snd];
      destruct (account_update fault aid d) as [d1|] eqn:Hup; cbn [db fst snd];
      try (apply account_update_tables in Hup as [-> ->]);
      repeat split; discriminate.
  - repeat split; discriminate.
Qed.

Lemma handle_authenticated req uid d :
  session_user req = Some uid ->
  handle getGoogleAccount fault req d
  = match after_tokens uid d with
    | (s, Next _) =>
        match
          (if negb (bool_decide (deleteData_param req = Some "false"))
           then transaction [user_update fault uid; site_deleteMany fault uid]
           else user_update fault uid) (db s)
        with
        | Some d' => ({| db := d'; revoked := revoked s |}, Returned Success)
        | None => (s, Threw)
        end
    | (s, Return r) => (s, Returned r)
    | (s, Throw) => (s, Threw)
    end.
Proof.
  intros Hsession.
  unfold handle, run, DELETE, after_tokens, bind, require, respond, ret, get,
    revoke, write.
  rewrite Hsession. cbn [db revoked].
  destruct (getGoogleAccount d uid) as [[aid a]|];
    [destruct (Js.truthy (access_token a)); cbn [db revoked];
     (destruct (account_update fault aid d) as [d1|]; [|reflexivity]) |];
    cbn [db revoked];
    destruct (negb (bool_decide (deleteData_param req = Some "false")));
    cbv beta iota; cbn [db revoked];
    match goal with
    | |- context [transaction ?ops ?x] => destruct (transaction ops x); reflexivity
    | |- context [user_update fault uid ?x] => destruct (user_update fault uid x); reflexivity
    end.
Qed.

(** The token steps, when they go through: the account that
    [getGoogleAccount] names has its tokens cleared, and nothing else
    changes. *)
Lemma after_tokens_next uid d s x :
  after_tokens uid d = (s, Next x) ->
  users (db s) = users d /\ sites (db s) = sites d
  /\ plans (db s) = plans d /\ audits (db s) = audits d
  /\ brandSettings (db s) = brandSettings d
  /\ match getGoogleAccount d uid with
     | Some (aid, _) =>
         exists a, accounts d !! aid = Some a
                   /\ accounts (db s) = <[aid := cleared a]> (accounts d)
     | None => accounts (db s) = accounts d
     end.
Proof.
  unfold after_tokens, bind, revoke, ret, write.
  destruct (getGoogleAccount d uid) as [[aid a0]|]; cbn [db revoked].
  - assert (Hup : forall r,
      match account_update fault aid d with
      | Some d' => ({| db := d'; revoked := r |}, @Next Response unit tt)
      | None => ({| db := d; revoked := r |}, Throw)
      end = (s, Next x) ->
      users (db s) = users d /\ sites (db s) = sites d
      /\ plans (db s) = plans d /\ audits (db s) = audits d
      /\ brandSettings (db s) = brandSettings d
      /\ exists a, accounts d !! aid = Some a
                   /\ accounts (db s) = <[aid := cleared a]> (accounts d)).
    { intros r. unfold account_update.
      destruct (fault AccountUpdate); [discriminate|].
      destruct (accounts d !! aid) as [a|]; [|discriminate].
      intros [= <- _]. repeat split. exists a. split; reflexivity. }
    destruct (Js.truthy (access_token a0)); cbn [db revoked]; apply Hup.
  - intros [= <- _]. repeat split.
Qed.

(** C8. A disconnect request of an authenticated caller:
    - unless [deleteData] is exactly false, ends in one of two ways:
      with success, the caller's record with [gscConnected] false and
      [gscConnectedAt] null and its plan as before, and exactly the
      sites of the other users left; or with an exception, the users
      and the sites as they were. It never ends with one of the two
      applied and not the other, whichever write the database refuses;
    - with [deleteData] exactly false, leaves all sites, and on
      success stores the caller's record with [gscConnected] false and
      [gscConnectedAt] null, and the caller's Google account with its
      four token fields null, and changes nothing else;
    - succeeds when the database refuses no write, the caller's user
      record exists, and so does the account that [getGoogleAccount]
      names. *)
Theorem disconnect_purges_atomically
    (req : Request) (uid : string) (d : Db) :
  session_user req = Some uid ->
  let result := handle getGoogleAccount fault req d in
  let d' := db result.1 in
  (deleteData_param req <> Some "false" ->
   (result.2 = Returned Success
    /\ (exists u, users d !! uid = Some u
                  /\ users d'
                     = <[uid := {| planId := planId u; gscConnected := false;
                                   gscConnectedAt := None |}]> (users d))
    /\ (forall id site, sites d' !! id = Some site <->
                        sites d !! id = Some site /\ site_userId site <> uid))
   \/ (result.2 = Threw /\ users d' = users d /\ sites d' = sites d))
  /\ (deleteData_param req = Some "false" ->
      sites d' = sites d
      /\ (result.2 = Returned Success ->
          (exists u, users d !! uid = Some u
                     /\ users d'
                        = <[uid := {| planId := planId u; gscConnected := false;
                                      gscConnectedAt := None |}]> (users d))
          /\ plans d' = plans d /\ audits d' = audits d
          /\ brandSettings d' = brandSettings d
          /\ match getGoogleAccount d uid with
             | Some (aid, _) =>
                 exists a, accounts d !! aid = Some a
                           /\ accounts d'
                              = <[aid := {| account_userId := account_userId a;
                                            access_token := None;
                                            refresh_token := None;
                                            expires_at := None;
                                            scope := None |}]> (accounts d)
             | None => accounts d' = accounts d
             end))
  /\ ((forall w, fault w = false) ->
      is_Some (users d !! uid) ->
      (forall aid a, getGoogleAccount d uid = Some (aid, a) ->
                     is_Some (accounts d !! aid)) ->
      result.2 = Returned Success).
Proof.
  intros Hsession result d'. subst d' result.
  rewrite (handle_authenticated req uid d Hsession).
  pose proof (after_tokens_tables uid d) as (Husers & Hsites & Hnoreturn).
  pose proof (after_tokens_next uid d) as Hnext.
  destruct (after_tokens uid d) as [s [[]|r|]] eqn:Hafter; cbn [fst snd] in *.
  2: { exfalso. exact (Hnoreturn r eq_refl). }
  2: { split; [|split].
       - intros _. right. repeat split; assumption.
       - intros _. split; [assumption | discriminate].
       - intros Hfault _ Hacc. exfalso. clear Hnext Hnoreturn.
         unfold after_tokens, bind, revoke, ret, write in Hafter.
         destruct (getGoogleAccount d uid) as [[aid a0]|]; [|discriminate Hafter].
         destruct (Hacc aid a0 eq_refl) as [a Ha].
         unfold account_update in Hafter. rewrite Hfault in Hafter.
         destruct (Js.truthy (access_token a0)); cbn [db revoked] in Hafter;
           rewrite Ha in Hafter; discriminate Hafter. }
  specialize (Hnext s tt eq_refl)
    as (_ & _ & Hplans & Haudits & Hbrand & Haccounts).
  split; [|split].
  - intros Hdelete.
    rewrite bool_decide_eq_false_2 by exact Hdelete. cbn [negb].
    destruct (transaction _ (db s)) as [d1|] eqn:Htx; cbn [fst snd db].
    + left. apply purge_spec in Htx as (u & Hu & Hu' & Hs' & _).
      rewrite Husers in Hu, Hu'. rewrite Hsites in Hs'.
      split; [reflexivity|]. split; [exists u; split; assumption|].
      intros id site. rewrite Hs'. apply map_lookup_filter_Some.
    + right. repeat split; assumption.
  - intros Hkeep.
    rewrite bool_decide_eq_true_2 by exact Hkeep. cbn [negb].
    destruct (user_update fault uid (db s)) as [d1|] eqn:Hup; cbn [fst snd db].
    + apply user_update_spec in Hup as (u & Hu & ->). cbn.
      rewrite Husers in *. split; [assumption|]. intros _.
      split; [exists u; split; [assumption | reflexivity]|].
      repeat split; assumption.
    + split; [assumption | discriminate].
  - intros Hfault [u Hu] _.
    assert (Hup : user_update fault uid (db s)
                  = Some (with_users (db s) (<[uid := disconnected u]> (users (db s))))).
    { unfold user_update. rewrite Hfault, Husers, Hu. reflexivity. }
    destruct (negb (bool_decide (deleteData_param req = Some "false"))).
    + cbn [transaction]. rewrite Hup. unfold site_deleteMany. rewrite Hfault.
      reflexivity.
    + rewrite Hup. reflexivity.
Qed.

End Route.

(** C8 at three requests of the first user: a purge that goes
    through, a disconnect that keeps the data, and a purge whose
    deletion of the sites the database refuses. *)
Lemma disconnect_purges_atomically_witness :
  (let result :=
     handle example_getGoogleAccount no_fault
       {| session_user := Some "u1"; deleteData_param := None |} example_db in
   result.2 = Returned Success
   /\ users (db result.1) !! "u1"
      = Some {| planId := Some "pro"; gscConnected := false;
                gscConnectedAt := None |}
   /\ sites (db result.1) !! "s1" = None
   /\ sites (db result.1) !! "s2"
      = Some {| site_userId := "u2"; autoIndexGoogle := false;
                autoIndexBing := false |})
  /\ (let result :=
        handle example_getGoogleAccount no_fault
          {| session_user := Some "u1"; deleteData_param := Some "false" |}
          example_db in
      result.2 = Returned Success
      /\ sites (db result.1) = sites example_db
      /\ users (db result.1) !! "u1"
         = Some {| planId := Some "pro"; gscConnected := false;
                   gscConnectedAt := None |}
      /\ accounts (db result.1) !! "acc1"
         = Some {| account_userId := "u1"; access_token := None;
                   refresh_token := None; expires_at := None; scope := None |})
  /\ (let result :=
        handle example_getGoogleAccount deletion_fault
          {| session_user := Some "u1"; deleteData_param := None |} example_db in
      result.2 = Threw
      /\ users (db result.1) = users example_db
      /\ sites (db result.1) = sites example_db).
Proof.
  assert (Huser : is_Some (users example_db !! "u1"))
    by (vm_compute; eexists; reflexivity).
  assert (Haccount : forall aid a,
            example_getGoogleAccount example_db "u1" = Some (aid, a) ->
            is_Some (accounts example_db !! aid)).
  { intros aid a Hnamed. vm_compute in Hnamed. injection Hnamed as <- _.
    vm_compute. eexists. reflexivity. }
  split; [|split]; cbn zeta.
  - destruct (disconnect_purges_atomically example_getGoogleAccount no_fault
                {| session_user := Some "u1"; deleteData_param := None |}
                "u1" example_db eq_refl) as (Hpurge & _ & Hsucceeds).
    cbn zeta in Hpurge, Hsucceeds.
    specialize (Hsucceeds (fun w => eq_refl) Huser Haccount).
    destruct Hpurge as [(_ & (u & Hu & Husers) & Hsites) | (Hthrew & _)];
      [discriminate| |rewrite Hsucceeds in Hthrew; discriminate Hthrew].
    split; [exact Hsucceeds|]. split; [|split].
    + rewrite Husers, lookup_insert_eq. vm_compute in Hu. injection Hu as <-.
      reflexivity.
    + match goal with |- ?l = None => destruct l as [site|] eqn:Hs1 end;
        [|reflexivity].
      apply Hsites in Hs1 as [Hs1 Hother]. vm_compute in Hs1.
      injection Hs1 as <-. destruct (Hother eq_refl).
    + apply Hsites. split; [vm_compute; reflexivity | discriminate].
  - destruct (disconnect_purges_atomically example_getGoogleAccount no_fault
                {| session_user := Some "u1"; deleteData_param := Some "false" |}
                "u1" example_db eq_refl) as (_ & Hkeep & Hsucceeds).
    cbn zeta in Hkeep, Hsucceeds.
    specialize (Hsucceeds (fun w => eq_refl) Huser Haccount).
    destruct (Hkeep eq_refl) as [Hsites Hcleared].
    destruct (Hcleared Hsucceeds)
      as ((u & Hu & Husers) & _ & _ & _ & a & Ha & Haccounts).
    split; [exact Hsucceeds|]. split; [exact Hsites|]. split.
    + rewrite Husers, lookup_insert_eq. vm_compute in Hu. injection Hu as <-.
      reflexivity.
    + rewrite Haccounts, lookup_insert_eq. vm_compute in Ha. injection Ha as <-.
      reflexivity.
  - destruct (disconnect_purges_atomically example_getGoogleAccount deletion_fault
                {| session_user := Some "u1"; deleteData_param := None |}
                "u1" example_db eq_refl) as (Hpurge & _ & _).
    cbn zeta in Hpurge.
    destruct Hpurge as [(Hsuccess & _) | Hthrew]; [discriminate| |exact Hthrew].
    vm_compute in Hsuccess. discriminate Hsuccess.
Defined.

End DisconnectRouteFacts.

(** ** The auto-index toggle *)

Module AutoIndexRouteFacts.

Import Prisma Handler AutoIndexRoute.

(** The handler once the caller is known to own the site and the
    body is an object. *)
Lemma handle_owned_site req d uid site google bing :
  session_user req = Some uid ->
  sites d !! siteId req = Some site ->
  site_userId site = uid ->
  body req = json_object google bing ->
  let g := as_boolean google in
  let b := as_boolean bing in
  handle req d
  = if bool_decide (is_Some g) || bool_decide (is_Some b) then
      if enables g b then
        if plan_autoIndexing d uid then
          ({| db := with_site d (siteId req) (updated site g b);
              queries := [FindSite (siteId req); FindUserPlan uid;
                          UpdateSite (siteId req)] |},
           Returned (Flags (autoIndexGoogle (updated site g b))
                           (autoIndexBing (updated site g b))))
        else
          ({| db := d; queries := [FindSite (siteId req); FindUserPlan uid] |},
           Returned (JsonError 403 "Auto-indexing is not available on your plan"))
      else
        ({| db := with_site d (siteId req) (updated site g b);
            queries := [FindSite (siteId req); UpdateSite (siteId req)] |},
         Returned (Flags (autoIndexGoogle (updated site g b))
                         (autoIndexBing (updated site g b))))
    else
      ({| db := d; queries := [FindSite (siteId req)] |},
       Returned (JsonError 400 "No fields to update")).
Proof.
  intros Hsession Hsite Howner Hbody g b.
  unfold handle, run, PATCH, bind, require, guard, respond, ret, query, site_update.
  rewrite Hsession, Hbody. cbn [db queries app fst snd]. rewrite Hsite.
  rewrite bool_decide_eq_true_2 by exact Howner.
  fold g b.
  destruct (bool_decide (is_Some g) || bool_decide (is_Some b)); [|reflexivity].
  destruct (enables g b); cbn [db queries app].
  - destruct (plan_autoIndexing d uid); [|reflexivity].
    cbn [db queries app]. rewrite Hsite. reflexivity.
  - rewrite Hsite. reflexivity.
Qed.

(** C9. On a site the caller owns, with a body that can be read:
    - a request that sets a flag to true while the plan of the caller,
      who is the owner, has no auto-indexing is answered 403, and the
      database is as it was;
    - a request that sets flags to false only succeeds, and the plan
      is not looked up: the calls are the lookup of the site and its
      update; a flag the body gives as a boolean is stored false, the
      other one keeps its value, the owner is as before, and the answer
      carries the two flags stored. *)
Theorem auto_index_enable_needs_plan
    (req : Request) (d : Db) (uid : string) (site : Site) (google bing : Js.value) :
  session_user req = Some uid ->
  sites d !! siteId req = Some site ->
  site_userId site = uid ->
  body req = json_object google bing ->
  ((google = Js.boolean true \/ bing = Js.boolean true) ->
   plan_autoIndexing d uid = false ->
   handle req d
   = ({| db := d; queries := [FindSite (siteId req); FindUserPlan uid] |},
      Returned (JsonError 403 "Auto-indexing is not available on your plan")))
  /\ ((google = Js.boolean false \/ bing = Js.boolean false) ->
      google <> Js.boolean true -> bing <> Js.boolean true ->
      let site' :=
        {| site_userId := site_userId site;
           autoIndexGoogle :=
             match google with Js.boolean _ => false | _ => autoIndexGoogle site end;
           autoIndexBing :=
             match bing with Js.boolean _ => false | _ => autoIndexBing site end |} in
      handle req d
      = ({| db := with_site d (siteId req) site';
            queries := [FindSite (siteId req); UpdateSite (siteId req)] |},
         Returned (Flags (autoIndexGoogle site') (autoIndexBing site')))).
Proof.
  intros Hsession Hsite Howner Hbody.
  rewrite (handle_owned_site req d uid site google bing Hsession Hsite Howner Hbody).
  cbn zeta. split.
  - intros Htrue Hplan. rewrite Hplan.
    destruct Htrue as [-> | ->]; cbn [as_boolean].
    + reflexivity.
    + destruct (as_boolean google) as [[]|]; reflexivity.
  - intros Hfalse Hg Hb.
    assert (Hoff : enables (as_boolean google) (as_boolean bing) = false).
    { destruct google as [| |[]| |], bing as [| |[]| |]; try reflexivity; congruence. }
    rewrite Hoff.
    assert (Hstored : updated site (as_boolean google) (as_boolean bing)
                      = {| site_userId := site_userId site;
                           autoIndexGoogle :=
                             match google with
                             | Js.boolean _ => false
                             | _ => autoIndexGoogle site
                             end;
                           autoIndexBing :=
                             match bing with
                             | Js.boolean _ => false
                             | _ => autoIndexBing site
                             end |}).
    { destruct google as [| |[]| |], bing as [| |[]| |];
        try reflexivity; congruence. }
    rewrite Hstored.
    destruct Hfalse as [-> | ->]; cbn [as_boolean].
    + reflexivity.
    + destruct (as_boolean google) as [[]|]; reflexivity.
Qed.

(** C9 at a request that turns Google on under the free plan, and
    at one that turns Google off: the site had Google on and Bing off,
    and is stored and answered with both off. *)
Lemma auto_index_enable_needs_plan_witness :
  handle (example_request (Js.boolean true) Js.undefined) example_db
  = ({| db := example_db; queries := [FindSite "s1"; FindUserPlan "u1"] |},
     Returned (JsonError 403 "Auto-indexing is not available on your plan"))
  /\ handle (example_request (Js.boolean false) Js.undefined) example_db
     = ({| db := with_site example_db "s1"
                   {| site_userId := "u1"; autoIndexGoogle := false;
                      autoIndexBing := false |};
           queries := [FindSite "s1"; UpdateSite "s1"] |},
        Returned (Flags false false)).
Proof.
  split.
  - apply (auto_index_enable_needs_plan
             (example_request (Js.boolean true) Js.undefined) example_db "u1"
             {| site_userId := "u1"; autoIndexGoogle := true;
                autoIndexBing := false |}
             (Js.boolean true) Js.undefined).
    + reflexivity.
    + vm_compute. reflexivity.
    + reflexivity.
    + reflexivity.
    + left. reflexivity.
    + vm_compute. reflexivity.
  - apply (auto_index_enable_needs_plan
             (example_request (Js.boolean false) Js.undefined) example_db "u1"
             {| site_userId := "u1"; autoIndexGoogle := true;
                autoIndexBing := false |}
             (Js.boolean false) Js.undefined).
    + reflexivity.
    + vm_compute. reflexivity.
    + reflexivity.
    + reflexivity.
    + left. reflexivity.
    + discriminate.
    + discriminate.
Defined.

End AutoIndexRouteFacts.

(** * Further properties *)

(** ** The logo path resolver: which paths it accepts *)

Module LogoStorageRoundTrips.

Import URL URLFacts LogoStorage LogoStorageFacts.

Local Arguments path_state : simpl never.

Lemma lowercase_is_dot c : ascii_lowercase c = "."%char -> c = "."%char.
Proof.
  destruct c as [[] [] [] [] [] [] [] []]; vm_compute; intros H;
    first [ discriminate H | reflexivity ].
Qed.

Lemma lowercase_is_percent c : ascii_lowercase c = "%"%char -> c = "%"%char.
Proof.
  destruct c as [[] [] [] [] [] [] [] []]; vm_compute; intros H;
    first [ discriminate H | reflexivity ].
Qed.

Lemma percent_is_no_filename_char f :
  forallb filename_char ("%"%char :: f) = false.
Proof. reflexivity. Qed.

(** A name over the file-name characters is a dot segment only when
    it is [.] or [..]: the percent-encoded spellings need a percent
    sign. *)
Lemma filename_dot_segments f :
  forallb filename_char f = true ->
  (is_single_dot f = true -> f = chars ".")
  /\ (is_double_dot f = true -> f = chars "..").
Proof.
  intros Hf. unfold is_single_dot, is_double_dot, lower.
  split; intros H; apply bool_decide_eq_true in H; cbn in H;
    repeat (apply elem_of_cons in H as [H|H]);
    try (apply elem_of_nil in H; contradiction).
  - destruct f as [|a [|? ?]]; try discriminate H.
    injection H as H. apply lowercase_is_dot in H. subst. reflexivity.
  - exfalso. destruct f as [|a f]; [discriminate H|].
    injection H as H _. apply lowercase_is_percent in H. subst a.
    discriminate Hf.
  - destruct f as [|a [|b [|? ?]]]; try discriminate H.
    injection H as Ha Hb.
    apply lowercase_is_dot in Ha. apply lowercase_is_dot in Hb. subst.
    reflexivity.
  - exfalso. destruct f as [|a [|b f]]; try discriminate H.
    injection H as _ Hb _. apply lowercase_is_percent in Hb. subst b.
    simpl in Hf. apply andb_true_iff in Hf as [_ Hf]. discriminate Hf.
  - exfalso. destruct f as [|a f]; [discriminate H|].
    injection H as H _. apply lowercase_is_percent in H. subst a.
    discriminate Hf.
  - exfalso. destruct f as [|a f]; [discriminate H|].
    injection H as H _. apply lowercase_is_percent in H. subst a.
    discriminate Hf.
Qed.

Lemma list_ascii_of_string_inj a b :
  list_ascii_of_string a = list_ascii_of_string b -> a = b.
Proof.
  intros H. apply (f_equal string_of_list_ascii) in H.
  rewrite !string_of_list_ascii_of_string in H. exact H.
Qed.

Lemma proper_name_is_no_dot_segment f :
  FILENAME_RE_test f = true -> f <> "." -> f <> ".." ->
  forallb filename_char (list_ascii_of_string f) = true
  /\ is_single_dot (list_ascii_of_string f) = false
  /\ is_double_dot (list_ascii_of_string f) = false.
Proof.
  intros Hre Hdot Hdots. apply FILENAME_RE_test_spec in Hre as [_ Hf].
  destruct (filename_dot_segments _ Hf) as [Hs Hd].
  split; [exact Hf|]. split.
  - destruct (is_single_dot (list_ascii_of_string f)); [|reflexivity].
    exfalso. apply Hdot, list_ascii_of_string_inj, Hs. reflexivity.
  - destruct (is_double_dot (list_ascii_of_string f)); [|reflexivity].
    exfalso. apply Hdots, list_ascii_of_string_inj, Hd. reflexivity.
Qed.

Section Resolver.

Variable host_parser : bool -> list ascii -> bool.

(** A relative uploads path parses to itself. *)
Lemma pathname_uploads f :
  forallb filename_char (list_ascii_of_string f) = true ->
  is_single_dot (list_ascii_of_string f) = false ->
  is_double_dot (list_ascii_of_string f) = false ->
  pathname host_parser (UPLOADS_PREFIX ++ f) = Some (UPLOADS_PREFIX ++ f)%string.
Proof.
  set (lf := list_ascii_of_string f). intros Hf Hsd Hdd.
  unfold pathname. rewrite list_ascii_of_string_app. fold lf.
  change (list_ascii_of_string UPLOADS_PREFIX ++ lf)%list
    with (SLASH :: "u"%char :: (chars "ploads" ++ SLASH :: lf))%list.
  rewrite parse_rooted_path.
  2: { reflexivity. }
  2: { rewrite !forallb_app. simpl. rewrite (filename_is_plain_text lf Hf).
       reflexivity. }
  change ("u"%char :: (chars "ploads" ++ SLASH :: lf))%list
    with (chars "uploads" ++ SLASH :: lf)%list.
  rewrite !path_state_segment by reflexivity.
  rewrite path_state_filename by exact Hf.
  match goal with
  | |- context [end_segment Special ?P ([] ++ lf) false] =>
      change P with [chars "uploads"]
  end.
  unfold end_segment. rewrite app_nil_l, Hdd, Hsd.
  cbn [is_file andb option_map].
  change (serialize_path _) with (list_ascii_of_string UPLOADS_PREFIX ++ (lf ++ []))%list.
  rewrite app_nil_r, string_of_list_ascii_app. subst lf.
  rewrite !string_of_list_ascii_of_string. reflexivity.
Qed.

(** X1. Every name that passes the file-name pattern, other than [.]
    and [..], is accepted behind either prefix: the uploads path and
    the serving path of that name both resolve to the serving path. *)
Theorem toApiLogoPath_accepts_proper_names (f : string) :
  FILENAME_RE_test f = true -> f <> "." -> f <> ".." ->
  toApiLogoPath host_parser (Some (UPLOADS_PREFIX ++ f)%string)
    = Some (API_PREFIX ++ f)%string
  /\ toApiLogoPath host_parser (Some (API_PREFIX ++ f)%string)
    = Some (API_PREFIX ++ f)%string.
Proof.
  intros Hre Hdot Hdots.
  destruct (proper_name_is_no_dot_segment f Hre Hdot Hdots) as (Hf & Hsd & Hdd).
  split; apply toApiLogoPath_of_filename; try exact Hre;
    unfold extractLogoFilenameFromUrl.
  - rewrite (pathname_uploads f Hf Hsd Hdd), raw_filename_uploads, Hre.
    reflexivity.
  - rewrite (pathname_api host_parser f Hf Hsd Hdd), raw_filename_api, Hre.
    reflexivity.
Qed.

(** X2. The file name read from a normalized path is the file name
    read from the original value: extracting after [toApiLogoPath]
    gives what extracting gives, null included. *)
Theorem extract_after_toApiLogoPath (logoUrl : option string) :
  extractLogoFilenameFromUrl host_parser (toApiLogoPath host_parser logoUrl)
  = extractLogoFilenameFromUrl host_parser logoUrl.
Proof.
  destruct (extractLogoFilenameFromUrl host_parser logoUrl) as [f|] eqn:Hx.
  - pose proof (extractLogoFilenameFromUrl_spec host_parser _ _ Hx)
      as (Hre & (_ & Hsd & Hdd) & _).
    rewrite (toApiLogoPath_of_filename host_parser _ _ Hx Hre).
    pose proof Hre as Hre'. apply FILENAME_RE_test_spec in Hre' as [_ Hf].
    unfold extractLogoFilenameFromUrl.
    rewrite (pathname_api host_parser f Hf Hsd Hdd), raw_filename_api, Hre.
    reflexivity.
  - unfold toApiLogoPath. rewrite Hx. reflexivity.
Qed.

End Resolver.

(** X1 at the name of an uploaded logo. *)
Lemma toApiLogoPath_accepts_proper_names_witness :
  toApiLogoPath plain_domain_host (Some "/uploads/logo-2.png")
    = Some "/api/upload/logo/logo-2.png"
  /\ toApiLogoPath plain_domain_host (Some "/api/upload/logo/logo-2.png")
    = Some "/api/upload/logo/logo-2.png".
Proof.
  apply (toApiLogoPath_accepts_proper_names plain_domain_host "logo-2.png").
  - reflexivity.
  - discriminate.
  - discriminate.
Defined.

End LogoStorageRoundTrips.

(** ** The logo serving route *)

Module LogoRouteFacts.

Import Handler LogoStorage LogoRoute.

(** The route by cases. *)
Lemma logo_handle_cases readFile filename :
  handle readFile filename
  = if FILENAME_RE_test filename then
      match mime_lookup (extension filename) with
      | absent => ([], Returned (JsonError 400 "Unsupported format"))
      | mime =>
          ([filename],
           Returned match readFile filename with
                    | Some b => File mime "public, max-age=86400" b
                    | None => JsonError 404 "Not found"
                    end)
      end
    else ([], Returned (JsonError 400 "Invalid filename")).
Proof.
  unfold handle, run, GET, bind, guard, respond, ret, read.
  destruct (FILENAME_RE_test filename); [|reflexivity].
  destruct (mime_lookup (extension filename)); cbn [app];
    try reflexivity; destruct (readFile filename); reflexivity.
Qed.

Lemma split_without_separator sep s :
  (forall c, In c (list_ascii_of_string s) -> Ascii.eqb c sep = false) ->
  split sep s = [s].
Proof.
  induction s as [|c s IH]; intros H; [reflexivity|].
  cbn [split]. rewrite (H c) by (left; reflexivity).
  rewrite IH; [reflexivity|]. intros d Hd. apply H. right. exact Hd.
Qed.

Lemma split_not_nil sep s : split sep s <> [].
Proof.
  destruct s as [|c s]; [discriminate|]. cbn [split].
  destruct (Ascii.eqb c sep); [discriminate|].
  destruct (split sep s); discriminate.
Qed.

(** A split of one part is the text, which holds no separator. *)
Lemma split_single sep s e : split sep s = [e] -> s = e.
Proof.
  revert e. induction s as [|d s IH]; intros e.
  - intros [= <-]. reflexivity.
  - cbn [split]. pose proof (split_not_nil sep s) as Hne.
    destruct (Ascii.eqb d sep).
    + destruct (split sep s); [contradiction | discriminate].
    + destruct (split sep s) as [|p [|q ps]]; [contradiction | | discriminate].
      intros [= <-]. f_equal. apply IH. reflexivity.
Qed.

Lemma separator_in_text sep stem e :
  In sep (list_ascii_of_string (stem ++ String sep e)).
Proof.
  induction stem as [|d stem IH]; [left; reflexivity | right; exact IH].
Qed.

(** The last part of a split is what follows the last separator. *)
Lemma last_split sep stem e :
  (forall c, In c (list_ascii_of_string e) -> Ascii.eqb c sep = false) ->
  last (split sep (stem ++ String sep e)) = Some e.
Proof.
  intros He. induction stem as [|c stem IH].
  - change (last (split sep (String sep e)) = Some e). cbn [split].
    rewrite Ascii.eqb_refl, (split_without_separator sep e He). reflexivity.
  - change (last (split sep (String c (stem ++ String sep e))) = Some e).
    cbn [split]. pose proof (split_not_nil sep (stem ++ String sep e)) as Hne.
    destruct (Ascii.eqb c sep).
    + destruct (split sep (stem ++ String sep e)) as [|p ps]; [contradiction|].
      exact IH.
    + destruct (split sep (stem ++ String sep e)) as [|p [|q ps]] eqn:Hs.
      * contradiction.
      * exfalso. injection IH as ->. apply split_single in Hs.
        pose proof (separator_in_text sep stem e) as Hin. rewrite Hs in Hin.
        specialize (He sep Hin). rewrite Ascii.eqb_refl in He. discriminate He.
      * exact IH.
Qed.

Definition dot_free (e : string) : Prop :=
  forall c, In c (list_ascii_of_string e) -> Ascii.eqb c "."%char = false.

(** The extension is what follows the last dot, in lower case; a
    name without a dot is its own extension. *)
Lemma extension_spec stem e :
  dot_free e ->
  extension (stem ++ String "." e) = Js.toLowerCase e
  /\ extension e = Js.toLowerCase e.
Proof.
  intros He. unfold extension. split.
  - rewrite (last_split "." stem e He). reflexivity.
  - rewrite (split_without_separator "." e He). reflexivity.
Qed.

Section Route.

Variable readFile : string -> option string.

(** X3. The route reads at most one file, and only under a name
    that passes the pattern, holds no slash and is neither [.] nor
    [..]: a file of the uploads directory itself. A file is sent only
    as the content read under the requested name. *)
Theorem logo_route_reads_inside_uploads (filename : string) :
  ((handle readFile filename).1 = []
   \/ ((handle readFile filename).1 = [filename]
       /\ FILENAME_RE_test filename = true
       /\ includes filename "/" = false
       /\ filename <> "." /\ filename <> ".."))
  /\ (forall mime cache buffer,
        (handle readFile filename).2 = Returned (File mime cache buffer) ->
        (handle readFile filename).1 = [filename]
        /\ readFile filename = Some buffer
        /\ mime = mime_lookup (extension filename)
        /\ cache = "public, max-age=86400").
Proof.
  rewrite logo_handle_cases.
  destruct (FILENAME_RE_test filename) eqn:Hre.
  2: { split; [left; reflexivity | intros ? ? ? [=]]. }
  assert (Hname : mime_lookup (extension filename) <> absent ->
                  includes filename "/" = false
                  /\ filename <> "." /\ filename <> "..").
  { intros Hmime. split.
    - apply LogoStorageFacts.filename_excludes_slash.
      apply LogoStorageFacts.FILENAME_RE_test_spec in Hre as [_ Hf]. exact Hf.
    - split; intros ->; apply Hmime; reflexivity. }
  destruct (mime_lookup (extension filename)) as [type|property|] eqn:Hmime.
  - split.
    + right. repeat split; try reflexivity; apply Hname; discriminate.
    + cbn [fst snd]. intros mime cache buffer H.
      destruct (readFile filename) as [b|]; [|discriminate H].
      injection H as <- <- <-. repeat split.
  - split.
    + right. repeat split; try reflexivity; apply Hname; discriminate.
    + cbn [fst snd]. intros mime cache buffer H.
      destruct (readFile filename) as [b|]; [|discriminate H].
      injection H as <- <- <-. repeat split.
  - split; [left; reflexivity | intros ? ? ? [=]].
Qed.

(** X4. The content type follows the last extension, whatever its
    letter case: a name that passes the pattern and ends in a dot and
    one of the six extensions of the table, in any case, is served with
    the type of the table when the file can be read. *)
Theorem logo_route_type_by_extension (stem e type buffer : string) :
  FILENAME_RE_test (stem ++ String "." e) = true ->
  dot_free e ->
  ExportRoute.field MIME_TYPES (Js.toLowerCase e) = Some type ->
  readFile (stem ++ String "." e) = Some buffer ->
  handle readFile (stem ++ String "." e)
  = ([(stem ++ String "." e)%string],
     Returned (File (own type) "public, max-age=86400" buffer)).
Proof.
  intros Hre He Htype Hfile.
  rewrite logo_handle_cases, Hre.
  destruct (extension_spec stem e He) as [-> _].
  unfold mime_lookup. rewrite Htype, Hfile. reflexivity.
Qed.

End Route.

(** X5. A path that the resolver returns names a file that the
    serving route does not refuse as a name: behind the serving prefix
    stands a name that passes the route's own pattern. *)
Theorem resolved_path_is_servable
    (host_parser : bool -> list ascii -> bool) (readFile : string -> option string)
    (logoUrl : option string) (p : string) :
  toApiLogoPath host_parser logoUrl = Some p ->
  exists filename,
    p = (API_PREFIX ++ filename)%string
    /\ (handle readFile filename).2 <> Returned (JsonError 400 "Invalid filename").
Proof.
  intros Hp. apply LogoStorageFacts.toApiLogoPath_inv in Hp as (f & Hf & ->).
  apply LogoStorageFacts.extractLogoFilenameFromUrl_spec in Hf as (Hre & _).
  exists f. split; [reflexivity|].
  rewrite logo_handle_cases, Hre.
  destruct (mime_lookup (extension f)); cbn [snd];
    try destruct (readFile f); discriminate.
Qed.

(** X4 at a logo stored with an upper-case extension. *)
Lemma logo_route_type_by_extension_witness :
  handle example_readFile "logo.PNG"
  = (["logo.PNG"], Returned (File (own "image/png") "public, max-age=86400" "PNG-bytes")).
Proof.
  apply (logo_route_type_by_extension example_readFile "logo" "PNG"
           "image/png" "PNG-bytes").
  - reflexivity.
  - intros c [<- | [<- | [<- | []]]]; reflexivity.
  - reflexivity.
  - reflexivity.
Defined.

(** X5 at an uploads path. *)
Lemma resolved_path_is_servable_witness :
  exists filename,
    "/api/upload/logo/logo.PNG" = (API_PREFIX ++ filename)%string
    /\ (handle example_readFile filename).2
       <> Returned (JsonError 400 "Invalid filename").
Proof.
  apply (resolved_path_is_servable URL.plain_domain_host example_readFile
           (Some "/uploads/logo.PNG") "/api/upload/logo/logo.PNG").
  vm_compute. reflexivity.
Defined.

End LogoRouteFacts.

(** ** The export proxy: calls, provenance and branding *)

Module ExportRouteInvariants.

Import PlanCapabilities Prisma Handler ExportRoute.

Section Route.

Context {Json : Type}.
Variable JSON_parse : string -> option Json.
Variable fastapiFetch : UpstreamRequest Json -> option UpstreamResponse.

(** The handler from the first upstream call on. *)
Definition proxy (format : ExportFormat) (lang : option string)
    (capabilities : PlanCapabilities.t) (brand : option Brand) (audit : Audit)
    : list (UpstreamRequest Json) * outcome Response :=
  let download :=
    Download (fastApiId audit)
      (download_query format lang (showWatermark capabilities) brand) in
  match fastapiFetch download with
  | None => ([download], Threw)
  | Some res =>
      if (status res =? 404)%nat && Js.truthy (resultJson audit) then
        match JSON_parse (Js.or_else (resultJson audit) "") with
        | None => ([download], Threw)
        | Some payload =>
            let generate := Generate {|
              gen_format := format;
              gen_audit := payload;
              gen_language := Js.or_else lang (Js.or_else (language audit) "en");
              gen_show_watermark := showWatermark capabilities;
              gen_brand := brand |} in
            ([download; generate],
             match fastapiFetch generate with
             | None => Threw
             | Some regenerated =>
                 if ok regenerated then Returned (relay regenerated)
                 else if json_status (status regenerated)
                 then Returned (JsonError (status regenerated)
                                  "Report generation failed")
                 else Threw
             end)
        end
      else ([download],
            if ok res then Returned (relay res)
            else if json_status (status res)
            then Returned (JsonError (status res) "Export failed")
            else Threw)
  end.

(** The handler by cases: the four gates, then the proxy. *)
Lemma export_handle_cases db req :
  handle JSON_parse fastapiFetch db req
  = match session_user req with
    | None => ([], Returned (JsonError 401 "Unauthorized"))
    | Some uid =>
        match supported_format (requestedFormat req) with
        | None => ([], Returned (JsonError 400 "Unsupported export format"))
        | Some format =>
            match users db !! uid with
            | None => ([], Returned (JsonError 404 "User not found"))
            | Some user =>
                let capabilities := getPlanCapabilities (planId user) in
                if bool_decide (format ∈ allowedExportFormats capabilities) then
                  match owned_audit db uid (id req) with
                  | None => ([], Returned (JsonError 404 "Not found"))
                  | Some audit =>
                      proxy format (lang_param req) capabilities
                        (brand_for db uid (origin req) capabilities) audit
                  end
                else ([], Returned
                            (JsonError 403 "Your plan allows PDF export only"))
            end
        end
    end.
Proof.
  unfold handle, run, GET, bind, require, guard, respond, ret, proxy.
  destruct (session_user req) as [uid|]; [|reflexivity].
  destruct (supported_format (requestedFormat req)) as [format|]; [|reflexivity].
  destruct (users db !! uid) as [user|]; [|reflexivity].
  cbn zeta.
  destruct (bool_decide (format ∈ allowedExportFormats (getPlanCapabilities (planId user))));
    [|reflexivity].
  destruct (owned_audit db uid (id req)) as [audit|]; [|reflexivity].
  unfold fetch. cbn [app].
  match goal with
  | |- context [fastapiFetch ?d] => destruct (fastapiFetch d) as [res|]
  end; [|reflexivity].
  destruct ((status res =? 404)%nat && Js.truthy (resultJson audit)).
  - unfold parse, ret, throw.
    destruct (JSON_parse (Js.or_else (resultJson audit) "")) as [payload|];
      [|reflexivity].
    cbn [app].
    match goal with
    | |- context [fastapiFetch ?g] => destruct (fastapiFetch g) as [regenerated|]
    end; [|reflexivity].
    unfold respond_json, respond, throw.
    destruct (ok regenerated); [reflexivity|].
    cbn [negb]. destruct (json_status (status regenerated)); reflexivity.
  - unfold respond_json, respond, throw.
    destruct (ok res); [reflexivity|].
    cbn [negb]. destruct (json_status (status res)); reflexivity.
Qed.

(** X6. Whatever the request, the database and the report service,
    the handler calls the service not at all, or downloads once, or
    downloads once and regenerates once after a download answered 404;
    and an artifact it returns is the relay of a successful answer to
    its last call: that answer's body, with its headers or their
    defaults. *)
Theorem export_upstream_calls (db : Db) (req : Request) :
  ((handle JSON_parse fastapiFetch db req).1 = []
   \/ (exists fid q, (handle JSON_parse fastapiFetch db req).1 = [Download fid q])
   \/ (exists fid q body res,
         (handle JSON_parse fastapiFetch db req).1 = [Download fid q; Generate body]
         /\ fastapiFetch (Download fid q) = Some res
         /\ status res = 404))
  /\ (forall contentType disposition blob,
        (handle JSON_parse fastapiFetch db req).2
        = Returned (Artifact contentType disposition blob) ->
        exists call res,
          last (handle JSON_parse fastapiFetch db req).1 = Some call
          /\ fastapiFetch call = Some res
          /\ ok res = true
          /\ Artifact contentType disposition blob = relay res).
Proof.
  rewrite export_handle_cases.
  destruct (session_user req) as [uid|];
    [|split; [left; reflexivity | intros ? ? ? [=]]].
  destruct (supported_format (requestedFormat req)) as [format|];
    [|split; [left; reflexivity | intros ? ? ? [=]]].
  destruct (users db !! uid) as [user|];
    [|split; [left; reflexivity | intros ? ? ? [=]]].
  cbn zeta.
  destruct (bool_decide _);
    [|split; [left; reflexivity | intros ? ? ? [=]]].
  destruct (owned_audit db uid (id req)) as [audit|];
    [|split; [left; reflexivity | intros ? ? ? [=]]].
  unfold proxy.
  set (download := Download _ _).
  destruct (fastapiFetch download) as [res|] eqn:Hres; cbn zeta.
  2: { split; [right; left; eexists _, _; reflexivity | intros ? ? ? [=]]. }
  destruct ((status res =? 404)%nat && Js.truthy (resultJson audit)) eqn:H404.
  - apply andb_true_iff in H404 as [H404 _]. apply Nat.eqb_eq in H404.
    destruct (JSON_parse _) as [payload|].
    2: { split; [right; left; eexists _, _; reflexivity | intros ? ? ? [=]]. }
    set (generate := Generate _).
    split.
    + right. right. eexists _, _, _, res. repeat split; assumption.
    + cbn [fst snd]. intros ct disp blob H.
      destruct (fastapiFetch generate) as [regenerated|] eqn:Hgen;
        [|discriminate H].
      destruct (ok regenerated) eqn:Hok;
        [|destruct (json_status (status regenerated)); discriminate H].
      injection H as <- <- <-. exists generate, regenerated.
      repeat split; assumption.
  - split.
    + right. left. eexists _, _. reflexivity.
    + cbn [fst snd]. intros ct disp blob H.
      destruct (ok res) eqn:Hok;
        [|destruct (json_status (status res)); discriminate H].
      injection H as <- <- <-. exists download, res.
      repeat split; assumption.
Qed.

(** X7. The stored branding of a caller whose plan is not agency has
    no influence on the export: the upstream calls and the response are
    those of the same request on a database with any other brand
    settings. *)
Theorem export_ignores_branding_outside_agency
    (db : Db) (req : Request) (uid : string) (user : User)
    (others : gmap string BrandSettings) :
  session_user req = Some uid ->
  users db !! uid = Some user ->
  planId user <> Some "agency" ->
  handle JSON_parse fastapiFetch (BrandSettingsRoute.with_brandSettings db others) req
  = handle JSON_parse fastapiFetch db req.
Proof.
  intros Hsession Huser Hplan. rewrite !export_handle_cases, Hsession.
  cbn [BrandSettingsRoute.with_brandSettings users]. rewrite Huser.
  destruct (supported_format (requestedFormat req)) as [format|]; [|reflexivity].
  cbn zeta.
  destruct (bool_decide _); [|reflexivity].
  change (owned_audit (BrandSettingsRoute.with_brandSettings db others) uid (id req))
    with (owned_audit db uid (id req)).
  destruct (owned_audit db uid (id req)) as [audit|]; [|reflexivity].
  unfold brand_for, getPlanCapabilities.
  apply strict_eq_false in Hplan. rewrite Hplan. reflexivity.
Qed.

Lemma field_params_set key v ps : field (params_set key v ps) key = Some v.
Proof.
  unfold field. induction ps as [|[k w] ps IH]; cbn [params_set].
  - cbn. rewrite String.eqb_refl. reflexivity.
  - destruct (String.eqb k key) eqn:Hk.
    + cbn. rewrite Hk. reflexivity.
    + cbn. rewrite Hk. exact IH.
Qed.

Lemma proxy_first_call format lang capabilities brand audit :
  exists rest,
    (proxy format lang capabilities brand audit).1
    = Download (fastApiId audit)
        (download_query format lang (showWatermark capabilities) brand)
        :: rest.
Proof.
  unfold proxy. destruct (fastapiFetch _) as [res|]; [|eexists; reflexivity].
  destruct (_ && _); [|eexists; reflexivity].
  destruct (JSON_parse _); eexists; reflexivity.
Qed.

Lemma field_filter_other k key ps :
  String.eqb k key = false ->
  field (List.filter (fun e => negb (String.eqb (fst e) k)) ps) key = field ps key.
Proof.
  intros Hk. unfold field. induction ps as [|[k0 w] ps IH]; [reflexivity|].
  cbn [List.filter fst]. destruct (String.eqb k0 k) eqn:Hk0.
  - apply String.eqb_eq in Hk0 as ->. cbn [negb List.find fst]. rewrite Hk. exact IH.
  - cbn [negb List.find fst]. destruct (String.eqb k0 key); [reflexivity | exact IH].
Qed.

Lemma field_params_set_other k key v ps :
  String.eqb k key = false -> field (params_set k v ps) key = field ps key.
Proof.
  intros Hk. induction ps as [|[k0 w] ps IH]; cbn [params_set].
  - unfold field. cbn. rewrite Hk. reflexivity.
  - destruct (String.eqb k0 k) eqn:Hk0.
    + apply String.eqb_eq in Hk0 as ->.
      pose proof (field_filter_other k key ps Hk) as Hf.
      unfold field in *. cbn [List.find fst]. rewrite Hk. exact Hf.
    + unfold field in *. cbn [List.find fst].
      destruct (String.eqb k0 key); [reflexivity | exact IH].
Qed.

Lemma field_set_if_other k key v ps :
  String.eqb k key = false -> field (set_if k v ps) key = field ps key.
Proof.
  intros Hk. unfold set_if. destruct (Js.truthy v); [|reflexivity].
  apply field_params_set_other. exact Hk.
Qed.

(** The logo parameter of a download is a logo of the brand data. *)
Lemma download_query_logo_inv format lang watermark brand u :
  field (download_query format lang watermark brand) "logo_url" = Some u ->
  exists b, brand = Some b /\ field b "logo_url" = Some u.
Proof.
  unfold download_query. destruct brand as [b|].
  - unfold set_if at 1. destruct (Js.truthy (field b "logo_url")) eqn:Ht.
    + rewrite field_params_set. intros [= <-]. exists b. split; [reflexivity|].
      destruct (field b "logo_url") as [[|c s]|]; try discriminate Ht. reflexivity.
    + rewrite !field_set_if_other, field_params_set_other, field_set_if_other
        by reflexivity.
      discriminate.
  - rewrite field_params_set_other, field_set_if_other by reflexivity.
    discriminate.
Qed.

(** The logo URL a call hands to the report service: the [logo_url]
    parameter of a download, the [logo_url] of the brand of a
    regeneration. *)
Definition call_logo (c : UpstreamRequest Json) : option string :=
  match c with
  | Download _ q => field q "logo_url"
  | Generate g =>
      match gen_brand g with
      | Some b => field b "logo_url"
      | None => None
      end
  end.

Lemma proxy_call_logo format lang capabilities brand audit c u :
  c ∈ (proxy format lang capabilities brand audit).1 ->
  call_logo c = Some u ->
  exists b, brand = Some b /\ field b "logo_url" = Some u.
Proof.
  assert (Hdownload :
            call_logo (Download (fastApiId audit)
                         (download_query format lang (showWatermark capabilities)
                            brand)) = Some u ->
            exists b, brand = Some b /\ field b "logo_url" = Some u)
    by apply download_query_logo_inv.
  assert (Hgenerate : forall payload language,
            call_logo (Generate {| gen_format := format; gen_audit := payload;
                                   gen_language := language;
                                   gen_show_watermark := showWatermark capabilities;
                                   gen_brand := brand |}) = Some u ->
            exists b, brand = Some b /\ field b "logo_url" = Some u).
  { intros payload language. cbn [call_logo gen_brand].
    destruct brand as [b|]; [|discriminate]. intros Hb. exists b. split; [reflexivity | exact Hb]. }
  assert (Hnil : c ∈ @nil (UpstreamRequest Json) -> call_logo c = Some u ->
                 exists b, brand = Some b /\ field b "logo_url" = Some u).
  { intros Hin. apply elem_of_nil in Hin. contradiction. }
  unfold proxy.
  destruct (fastapiFetch _) as [res|]; cbn [fst].
  - destruct (_ && _); cbn [fst].
    + destruct (JSON_parse _) as [payload|]; cbn [fst]; intros Hin.
      * apply elem_of_cons in Hin as [-> | Hin]; [exact Hdownload|].
        apply elem_of_cons in Hin as [-> | Hin]; [apply Hgenerate | exact (Hnil Hin)].
      * apply elem_of_cons in Hin as [-> | Hin]; [exact Hdownload | exact (Hnil Hin)].
    + intros Hin.
      apply elem_of_cons in Hin as [-> | Hin]; [exact Hdownload | exact (Hnil Hin)].
  - intros Hin.
    apply elem_of_cons in Hin as [-> | Hin]; [exact Hdownload | exact (Hnil Hin)].
Qed.

End Route.

Lemma export_ignores_branding_outside_agency_witness :
  handle example_parse (evicted_upstream 200)
    (BrandSettingsRoute.with_brandSettings example_db
       (brandSettings BrandingRoutes.example_db))
    (example_request "a1" (Some "pdf"))
  = handle example_parse (evicted_upstream 200) example_db
      (example_request "a1" (Some "pdf")).
Proof.
  apply (export_ignores_branding_outside_agency example_parse
           (evicted_upstream 200) example_db (example_request "a1" (Some "pdf"))
           "u1"
           {| planId := Some "free"; gscConnected := false;
              gscConnectedAt := None |}
           (brandSettings BrandingRoutes.example_db)).
  - reflexivity.
  - vm_compute. reflexivity.
  - discriminate.
Defined.

End ExportRouteInvariants.

(** ** Branding: from the write to the export, the gate, the logo
       deletion *)

Module BrandingFacts.

Import PlanCapabilities Prisma Handler.

Lemma truthy_append o p :
  Js.truthy_string p = true -> Js.truthy_string (o ++ p) = true.
Proof.
  intros Hp. destruct o as [|c o]; [exact Hp | reflexivity].
Qed.

Lemma entry_truthy key x :
  Js.truthy_string x = true -> ExportRoute.entry key (Some x) = [(key, x)].
Proof.
  intros Hx. unfold ExportRoute.entry. cbn [Js.truthy]. rewrite Hx.
  destruct x; [discriminate Hx | reflexivity].
Qed.

Lemma field_skips_entry k v key l :
  String.eqb k key = false ->
  ExportRoute.field (ExportRoute.entry k v ++ l) key = ExportRoute.field l key.
Proof.
  intros Hk. unfold ExportRoute.entry, ExportRoute.field.
  destruct (Js.truthy v); [|reflexivity].
  cbn. rewrite Hk. reflexivity.
Qed.

(** A stored serving path is sent with the origin before it. *)
Lemma absolute_stored_path origin f :
  ExportRoute.absolute_logo_url origin (Some (LogoStorage.API_PREFIX ++ f)%string)
  = Some (origin ++ LogoStorage.API_PREFIX ++ f)%string.
Proof. reflexivity. Qed.

Lemma agency_user db uid :
  BrandSettingsRoute.is_agency (users db !! uid) = true ->
  exists user, users db !! uid = Some user /\ planId user = Some "agency".
Proof.
  unfold BrandSettingsRoute.is_agency.
  destruct (users db !! uid) as [user|]; [|discriminate].
  intros H. apply strict_eq_true in H. exists user. split; [reflexivity | exact H].
Qed.

Lemma agency_allows_every_format format :
  bool_decide (format ∈ allowedExportFormats (getPlanCapabilities (Some "agency")))
  = true.
Proof. destruct format; vm_compute; reflexivity. Qed.

(** The brand of a row with a stored serving path names the logo by
    its absolute URL. *)
Lemma brand_of_stored_logo origin name f primary accent :
  exists brand,
    ExportRoute.brand_of origin
      (Some {| companyName := name;
               logoUrl := Some (LogoStorage.API_PREFIX ++ f)%string;
               primaryColor := primary; accentColor := accent |})
    = Some brand
    /\ ExportRoute.field brand "logo_url"
       = Some (origin ++ LogoStorage.API_PREFIX ++ f)%string.
Proof.
  unfold ExportRoute.brand_of.
  cbn [companyName logoUrl primaryColor accentColor].
  rewrite absolute_stored_path.
  assert (Htruthy : Js.truthy_string (origin ++ LogoStorage.API_PREFIX ++ f) = true)
    by (apply truthy_append; reflexivity).
  rewrite (entry_truthy "logo_url" _ Htruthy).
  set (brand := (_ ++ _ ++ _ ++ [_])%list).
  exists brand. split.
  - destruct brand eqn:Hb; [|reflexivity].
    exfalso. subst brand.
    repeat (apply app_eq_nil in Hb as [_ Hb]). discriminate Hb.
  - subst brand. rewrite !field_skips_entry by reflexivity.
    unfold ExportRoute.field. cbn. reflexivity.
Qed.

Lemma download_query_logo format lang watermark brand url :
  ExportRoute.field brand "logo_url" = Some url ->
  Js.truthy_string url = true ->
  ExportRoute.field
    (ExportRoute.download_query format lang watermark (Some brand)) "logo_url"
  = Some url.
Proof.
  intros Hfield Htruthy. unfold ExportRoute.download_query.
  rewrite Hfield. unfold ExportRoute.set_if at 1. cbn [Js.truthy].
  rewrite Htruthy.
  replace (Js.or_else (Some url) "") with url
    by (destruct url; [discriminate Htruthy | reflexivity]).
  apply ExportRouteInvariants.field_params_set.
Qed.

Section Routes.

Context {Json : Type}.
Variable host_parser : bool -> list ascii -> bool.
Variable JSON_parse : string -> option Json.
Variable fastapiFetch : ExportRoute.UpstreamRequest Json -> option ExportRoute.UpstreamResponse.

(** X8. After a brand-settings write with a supplied logo has
    succeeded, an export by the same caller of an audit the caller
    owns, in any supported format, first downloads with the parameter
    [logo_url] set to the request's origin followed by the path the
    resolver made of the logo. *)
Theorem stored_logo_reaches_report_service
    (put : BrandSettingsRoute.Request) (db db' : Db) (uid : string)
    (companyName logo : Js.value) (row : BrandSettings)
    (req : ExportRoute.Request) (audit : Audit) :
  BrandSettingsRoute.session_user put = Some uid ->
  BrandSettingsRoute.is_agency (users db !! uid) = true ->
  BrandSettingsRoute.body put = Some (companyName, logo) ->
  BrandSettingsRoute.supplied logo = true ->
  BrandSettingsRoute.handle host_parser put db
  = (db', Returned (BrandSettingsRoute.JsonBranding row)) ->
  ExportRoute.session_user req = Some uid ->
  ExportRoute.owned_audit db uid (ExportRoute.id req) = Some audit ->
  is_Some (ExportRoute.supported_format (ExportRoute.requestedFormat req)) ->
  exists p q rest,
    BrandSettingsRoute.toApiLogoPath_value host_parser logo = Some p
    /\ (ExportRoute.handle JSON_parse fastapiFetch db' req).1
       = ExportRoute.Download (fastApiId audit) q :: rest
    /\ ExportRoute.field q "logo_url" = Some (ExportRoute.origin req ++ p)%string.
Proof.
  intros Hsession Hagency Hbody Hsupplied Hput Hcaller Haudit [format Hformat].
  rewrite (BrandSettingsRouteFacts.handle_agency host_parser put db uid
             companyName logo Hsession Hagency Hbody) in Hput.
  destruct (BrandSettingsRoute.valid_company_name companyName) eqn:Hvalid;
    [|discriminate Hput].
  rewrite (BrandSettingsRouteFacts.normalize_supplied host_parser _ _ Hsupplied)
    in Hput.
  destruct (BrandSettingsRoute.toApiLogoPath_value host_parser logo) as [p|] eqn:Hp;
    [|discriminate Hput].
  destruct (BrandSettingsRouteFacts.upsert_row uid companyName p db Hvalid)
    as [name Hup].
  rewrite Hup in Hput. cbn zeta in Hput. injection Hput as <- <-.
  assert (Hf : exists f, p = (LogoStorage.API_PREFIX ++ f)%string).
  { unfold BrandSettingsRoute.toApiLogoPath_value in Hp.
    destruct (Js.truthy_value logo); [|discriminate Hp].
    apply LogoStorageFacts.toApiLogoPath_inv in Hp as (f & _ & ->).
    exists f. reflexivity. }
  destruct Hf as [f ->].
  destruct (agency_user db uid Hagency) as (user & Huser & Hplan).
  set (old := default BrandSettingsRoute.empty_branding (brandSettings db !! uid)).
  destruct (brand_of_stored_logo (ExportRoute.origin req) name f
              (primaryColor old) (accentColor old)) as (brand & Hbrand & Hlogo).
  exists (LogoStorage.API_PREFIX ++ f)%string.
  rewrite ExportRouteInvariants.export_handle_cases, Hcaller, Hformat.
  cbn [BrandSettingsRoute.with_brandSettings users]. rewrite Huser, Hplan.
  cbn zeta. rewrite agency_allows_every_format.
  change (ExportRoute.owned_audit (BrandSettingsRoute.with_brandSettings db _) uid
            (ExportRoute.id req))
    with (ExportRoute.owned_audit db uid (ExportRoute.id req)).
  rewrite Haudit.
  destruct (ExportRouteInvariants.proxy_first_call JSON_parse fastapiFetch format
              (ExportRoute.lang_param req) (getPlanCapabilities (Some "agency"))
              (ExportRoute.brand_for
                 (BrandSettingsRoute.with_brandSettings db
                    (<[uid := {| companyName := name;
                                 logoUrl := Some (LogoStorage.API_PREFIX ++ f)%string;
                                 primaryColor := primaryColor old;
                                 accentColor := accentColor old |}]>
                       (brandSettings db)))
                 uid (ExportRoute.origin req) (getPlanCapabilities (Some "agency")))
              audit) as [rest Hrest].
  eexists _, rest. split; [reflexivity|]. split; [exact Hrest|].
  unfold ExportRoute.brand_for.
  cbn [canUseBranding getPlanCapabilities strict_eq
         BrandSettingsRoute.with_brandSettings brandSettings].
  rewrite bool_decide_eq_true_2 by reflexivity.
  rewrite lookup_insert_eq, Hbrand.
  apply download_query_logo; [exact Hlogo|].
  apply truthy_append. reflexivity.
Qed.

End Routes.

Lemma stored_logo_reaches_report_service_witness :
  exists p q rest,
    BrandSettingsRoute.toApiLogoPath_value URL.plain_domain_host
      (Js.str "/uploads/new.png") = Some p
    /\ (ExportRoute.handle ExportRoute.example_parse
          (ExportRoute.evicted_upstream 200)
          (BrandSettingsRoute.handle URL.plain_domain_host
             (BrandSettingsRoute.example_request (Js.str "Acme")
                (Js.str "/uploads/new.png"))
             BrandingRoutes.example_db).1
          (ExportRoute.example_request "a1" (Some "html"))).1
       = ExportRoute.Download "f1" q :: rest
    /\ ExportRoute.field q "logo_url" = Some ("https://app.example" ++ p)%string.
Proof.
  apply (stored_logo_reaches_report_service URL.plain_domain_host
           ExportRoute.example_parse (ExportRoute.evicted_upstream 200)
           (BrandSettingsRoute.example_request (Js.str "Acme")
              (Js.str "/uploads/new.png"))
           BrandingRoutes.example_db
           (BrandSettingsRoute.handle URL.plain_domain_host
              (BrandSettingsRoute.example_request (Js.str "Acme")
                 (Js.str "/uploads/new.png"))
              BrandingRoutes.example_db).1
           "u1" (Js.str "Acme") (Js.str "/uploads/new.png")
           {| companyName := Some "Acme";
              logoUrl := Some "/api/upload/logo/new.png";
              primaryColor := Some "#112233"; accentColor := None |}
           (ExportRoute.example_request "a1" (Some "html"))
           {| audit_userId := "u1"; fastApiId := "f1";
              resultJson := Some "{}"; language := None |}).
  - reflexivity.
  - vm_compute. reflexivity.
  - reflexivity.
  - reflexivity.
  - vm_compute. reflexivity.
  - reflexivity.
  - vm_compute. reflexivity.
  - exists html. vm_compute. reflexivity.
Defined.

(** *** Stored logos stay on the logo route *)

(** A stored logo that the export can only turn into a URL of this
    application's logo route: none, the empty string, or the serving
    path of a name of the file-name pattern. *)
Definition local_logo (logo : option string) : Prop :=
  logo = None \/ logo = Some ""
  \/ exists f, LogoStorage.FILENAME_RE_test f = true
               /\ logo = Some (LogoStorage.API_PREFIX ++ f)%string.

Definition logos_are_local (db : Db) : Prop :=
  forall uid row, brandSettings db !! uid = Some row -> local_logo (logoUrl row).

Lemma insert_keeps_logos_local db uid row :
  logos_are_local db -> local_logo (logoUrl row) ->
  logos_are_local
    (BrandSettingsRoute.with_brandSettings db (<[uid := row]> (brandSettings db))).
Proof.
  intros Hdb Hrow k r. cbn [BrandSettingsRoute.with_brandSettings brandSettings].
  intros Hk. apply lookup_insert_Some in Hk as [[_ <-] | [_ Hk]].
  - exact Hrow.
  - exact (Hdb k r Hk).
Qed.

Lemma old_logo_is_local db uid :
  logos_are_local db ->
  local_logo
    (logoUrl (default BrandSettingsRoute.empty_branding (brandSettings db !! uid))).
Proof.
  intros Hdb. destruct (brandSettings db !! uid) as [row|] eqn:Hrow.
  - exact (Hdb uid row Hrow).
  - left. reflexivity.
Qed.

Lemma resolved_logo_is_local host_parser v p :
  BrandSettingsRoute.toApiLogoPath_value host_parser v = Some p ->
  local_logo (Some p).
Proof.
  unfold BrandSettingsRoute.toApiLogoPath_value.
  destruct (Js.truthy_value v); [|discriminate].
  intros Hp. apply LogoStorageFacts.toApiLogoPath_inv in Hp as (f & Hf & ->).
  apply LogoStorageFacts.extractLogoFilenameFromUrl_spec in Hf as [Hre _].
  right. right. exists f. split; [exact Hre | reflexivity].
Qed.

Lemma upsert_keeps_logos_local uid companyName logo db :
  logos_are_local db ->
  (match logo with
   | Js.str s => local_logo (Some s)
   | Js.undefined | Js.null => True
   | _ => False
   end) ->
  logos_are_local (BrandSettingsRoute.upsert uid companyName logo db).1.
Proof.
  intros Hdb Hlogo. unfold BrandSettingsRoute.upsert.
  destruct (BrandSettingsRoute.assign companyName _) as [name|]; [|exact Hdb].
  destruct logo as [| |b|s|t image]; try contradiction;
    cbn [BrandSettingsRoute.assign fst];
    apply insert_keeps_logos_local; try exact Hdb; cbn [logoUrl].
  - apply old_logo_is_local. exact Hdb.
  - left. reflexivity.
  - exact Hlogo.
Qed.

Lemma put_state host_parser req db :
  (BrandSettingsRoute.handle host_parser req db).1 = db
  \/ exists uid companyName logoUrl,
       BrandSettingsRoute.is_agency (users db !! uid) = true
       /\ BrandSettingsRoute.body req = Some (companyName, logoUrl)
       /\ BrandSettingsRoute.session_user req = Some uid
       /\ exists normalized,
            BrandSettingsRoute.normalize host_parser logoUrl db = (db, Next normalized)
            /\ (BrandSettingsRoute.handle host_parser req db).1
               = (BrandSettingsRoute.upsert uid companyName normalized db).1.
Proof.
  destruct (BrandSettingsRoute.session_user req) as [uid|] eqn:Hsession.
  2: { left. unfold BrandSettingsRoute.handle, run, BrandSettingsRoute.PUT, bind,
         require. rewrite Hsession. reflexivity. }
  destruct (BrandSettingsRoute.is_agency (users db !! uid)) eqn:Hagency.
  2: { left. unfold BrandSettingsRoute.handle, run, BrandSettingsRoute.PUT, bind,
         require, guard, get, respond, ret.
       rewrite Hsession. cbn [fst snd]. rewrite Hagency. reflexivity. }
  destruct (BrandSettingsRoute.body req) as [[companyName logoUrl]|] eqn:Hbody.
  2: { left. unfold BrandSettingsRoute.handle, run, BrandSettingsRoute.PUT, bind,
         require, guard, get, respond, ret, throw.
       rewrite Hsession. cbn [fst snd]. rewrite Hagency, Hbody. reflexivity. }
  rewrite (BrandSettingsRouteFacts.handle_agency host_parser req db uid
             companyName logoUrl Hsession Hagency Hbody).
  destruct (BrandSettingsRoute.valid_company_name companyName); [|left; reflexivity].
  assert (Hstate : exists o, BrandSettingsRoute.normalize host_parser logoUrl db = (db, o)).
  { destruct (BrandSettingsRoute.supplied logoUrl) eqn:Hs.
    - rewrite (BrandSettingsRouteFacts.normalize_supplied _ _ _ Hs).
      destruct (BrandSettingsRoute.toApiLogoPath_value host_parser logoUrl);
        eexists; reflexivity.
    - rewrite (BrandSettingsRouteFacts.normalize_not_supplied _ _ _ Hs).
      eexists; reflexivity. }
  destruct Hstate as [o Hnorm]. rewrite Hnorm.
  destruct o as [normalized|r|]; [|left; reflexivity|left; reflexivity].
  right. exists uid, companyName, logoUrl.
  split; [exact Hagency|]. split; [reflexivity|]. split; [reflexivity|].
  exists normalized. split; [exact Hnorm|].
  destruct (BrandSettingsRoute.upsert uid companyName normalized db)
    as [db' [row|r|]]; reflexivity.
Qed.

Lemma delete_state req db :
  BrandingRoutes.handle_DELETE req db
  = match BrandingRoutes.session_user req with
    | None => (db, Returned (BrandingRoutes.JsonError 401 "Unauthorized"))
    | Some uid =>
        if BrandSettingsRoute.is_agency (users db !! uid)
        then (BrandSettingsRoute.with_brandSettings db
                (alter BrandingRoutes.without_logo uid (brandSettings db)),
              Returned BrandingRoutes.Ok)
        else (db, Returned (BrandingRoutes.JsonError 403 "Agency plan required"))
    end.
Proof.
  unfold BrandingRoutes.handle_DELETE, run, BrandingRoutes.DELETE, bind, require,
    guard, get, respond, ret, BrandingRoutes.updateMany.
  destruct (BrandingRoutes.session_user req) as [uid|]; [|reflexivity].
  cbn [fst snd]. destruct (BrandSettingsRoute.is_agency _); reflexivity.
Qed.

(** X9. The brand-settings write and the logo deletion keep the
    stored logos on the logo route: when every stored logo is null, the
    empty string or a serving path of a name of the file-name pattern
    before a request, so it is after it, whatever the request and
    however it ends. *)
Theorem brand_writes_keep_logos_local
    (host_parser : bool -> list ascii -> bool)
    (put : BrandSettingsRoute.Request) (del : BrandingRoutes.Request) (db : Db) :
  logos_are_local db ->
  logos_are_local (BrandSettingsRoute.handle host_parser put db).1
  /\ logos_are_local (BrandingRoutes.handle_DELETE del db).1.
Proof.
  intros Hdb. split.
  - destruct (put_state host_parser put db)
      as [-> | (uid & companyName & logoUrl & _ & _ & _ & normalized & Hnorm & ->)];
      [exact Hdb|].
    apply upsert_keeps_logos_local; [exact Hdb|].
    destruct (BrandSettingsRoute.supplied logoUrl) eqn:Hs.
    + rewrite (BrandSettingsRouteFacts.normalize_supplied _ _ _ Hs) in Hnorm.
      destruct (BrandSettingsRoute.toApiLogoPath_value host_parser logoUrl)
        as [p|] eqn:Hp; [|discriminate Hnorm].
      injection Hnorm as <-. exact (resolved_logo_is_local _ _ _ Hp).
    + rewrite (BrandSettingsRouteFacts.normalize_not_supplied _ _ _ Hs) in Hnorm.
      injection Hnorm as <-.
      destruct logoUrl as [| |b|[|c s]|t image]; try discriminate Hs; try exact I.
      right. left. reflexivity.
  - rewrite delete_state.
    destruct (BrandingRoutes.session_user del) as [uid|]; [|exact Hdb].
    destruct (BrandSettingsRoute.is_agency _); [|exact Hdb].
    intros k row. cbn [fst BrandSettingsRoute.with_brandSettings brandSettings].
    destruct (decide (k = uid)) as [-> | Hk].
    + rewrite lookup_alter_eq. destruct (brandSettings db !! uid); [|discriminate].
      intros [= <-]. left. reflexivity.
    + rewrite lookup_alter_ne by congruence. apply Hdb.
Qed.

Lemma example_logos_are_local : logos_are_local BrandingRoutes.example_db.
Proof.
  intros uid row Hrow. cbn [BrandingRoutes.example_db brandSettings] in Hrow.
  apply lookup_insert_Some in Hrow as [[_ <-] | [_ Hrow]].
  - right. right. exists "old.png". split; reflexivity.
  - apply lookup_singleton_Some in Hrow as [_ <-].
    right. right. exists "u2.png". split; reflexivity.
Qed.

Lemma brand_writes_keep_logos_local_witness :
  logos_are_local
    (BrandSettingsRoute.handle URL.plain_domain_host
       (BrandSettingsRoute.example_request Js.undefined
          (Js.str "https://cdn.example/uploads/next.png"))
       BrandingRoutes.example_db).1
  /\ logos_are_local
       (BrandingRoutes.handle_DELETE {| BrandingRoutes.session_user := Some "u1" |}
          BrandingRoutes.example_db).1.
Proof.
  apply (brand_writes_keep_logos_local URL.plain_domain_host
           (BrandSettingsRoute.example_request Js.undefined
              (Js.str "https://cdn.example/uploads/next.png"))
           {| BrandingRoutes.session_user := Some "u1" |}
           BrandingRoutes.example_db).
  exact example_logos_are_local.
Defined.

Section Exports.

Context {Json : Type}.
Variable JSON_parse : string -> option Json.
Variable fastapiFetch : ExportRoute.UpstreamRequest Json -> option ExportRoute.UpstreamResponse.

Lemma brand_logo origin b :
  forall brand,
    ExportRoute.brand_of origin (Some b) = Some brand ->
    ExportRoute.field brand "logo_url"
    = ExportRoute.field
        (ExportRoute.entry "logo_url"
           (ExportRoute.absolute_logo_url origin (logoUrl b))) "logo_url".
Proof.
  intros brand. unfold ExportRoute.brand_of.
  set (entries := (_ ++ _ ++ _ ++ _)%list).
  intros Hbrand.
  assert (brand = entries) as -> by (destruct entries; congruence).
  subst entries. rewrite !field_skips_entry by reflexivity. reflexivity.
Qed.

(** The calls of an export and the brand row behind their logo. *)
Lemma export_call_logo db req c u :
  c ∈ (ExportRoute.handle JSON_parse fastapiFetch db req).1 ->
  ExportRouteInvariants.call_logo c = Some u ->
  exists uid row,
    ExportRoute.session_user req = Some uid
    /\ brandSettings db !! uid = Some row
    /\ ExportRoute.field
         (ExportRoute.entry "logo_url"
            (ExportRoute.absolute_logo_url (ExportRoute.origin req) (logoUrl row)))
         "logo_url" = Some u.
Proof.
  rewrite ExportRouteInvariants.export_handle_cases.
  assert (Hnil : c ∈ @nil (ExportRoute.UpstreamRequest Json) -> False)
    by (intros Hin; apply elem_of_nil in Hin; exact Hin).
  destruct (ExportRoute.session_user req) as [uid|]; [|intros Hin; destruct (Hnil Hin)].
  destruct (ExportRoute.supported_format _) as [format|];
    [|intros Hin; destruct (Hnil Hin)].
  destruct (users db !! uid) as [user|]; [|intros Hin; destruct (Hnil Hin)].
  cbn zeta. destruct (bool_decide _); [|intros Hin; destruct (Hnil Hin)].
  destruct (ExportRoute.owned_audit db uid _) as [audit|];
    [|intros Hin; destruct (Hnil Hin)].
  intros Hin Hlogo.
  destruct (ExportRouteInvariants.proxy_call_logo _ _ _ _ _ _ _ _ _ Hin Hlogo)
    as (b & Hbrand & Hfield).
  unfold ExportRoute.brand_for in Hbrand.
  destruct (canUseBranding _); [|discriminate Hbrand].
  destruct (brandSettings db !! uid) as [row|] eqn:Hrow; [|discriminate Hbrand].
  exists uid, row. split; [reflexivity|]. split; [exact Hrow|].
  rewrite <- (brand_logo _ _ _ Hbrand). exact Hfield.
Qed.

(** X10. While the stored logos are on the logo route, every logo URL
    that an export hands to the report service, as the [logo_url]
    parameter of a download or in the brand of a regeneration, is the
    request's origin followed by the serving path of a name of the
    file-name pattern. *)
Theorem export_sends_local_logos_only
    (db : Db) (req : ExportRoute.Request)
    (c : ExportRoute.UpstreamRequest Json) (u : string) :
  logos_are_local db ->
  c ∈ (ExportRoute.handle JSON_parse fastapiFetch db req).1 ->
  ExportRouteInvariants.call_logo c = Some u ->
  exists f,
    LogoStorage.FILENAME_RE_test f = true
    /\ u = (ExportRoute.origin req ++ LogoStorage.API_PREFIX ++ f)%string.
Proof.
  intros Hdb Hin Hlogo.
  destruct (export_call_logo db req c u Hin Hlogo) as (uid & row & _ & Hrow & Hu).
  destruct (Hdb uid row Hrow) as [Hl | [Hl | (f & Hre & Hl)]]; rewrite Hl in Hu.
  - discriminate Hu.
  - discriminate Hu.
  - rewrite absolute_stored_path in Hu.
    rewrite entry_truthy in Hu by (apply truthy_append; reflexivity).
    injection Hu as <-. exists f. split; [exact Hre | reflexivity].
Qed.

(** X11. After a logo deletion that answered ok, no export of the
    same caller hands a logo URL to the report service. *)
Theorem deleted_logo_is_not_sent
    (del : BrandingRoutes.Request) (db db' : Db) (req : ExportRoute.Request)
    (c : ExportRoute.UpstreamRequest Json) :
  BrandingRoutes.handle_DELETE del db = (db', Returned BrandingRoutes.Ok) ->
  ExportRoute.session_user req = BrandingRoutes.session_user del ->
  c ∈ (ExportRoute.handle JSON_parse fastapiFetch db' req).1 ->
  ExportRouteInvariants.call_logo c = None.
Proof.
  rewrite delete_state. intros Hdel Hcaller Hin.
  destruct (ExportRouteInvariants.call_logo c) as [u|] eqn:Hlogo; [|reflexivity].
  exfalso.
  destruct (export_call_logo db' req c u Hin Hlogo) as (uid & row & Hs & Hrow & Hu).
  rewrite Hcaller in Hs. rewrite Hs in Hdel.
  destruct (BrandSettingsRoute.is_agency _); [|discriminate Hdel].
  injection Hdel as <-.
  cbn [BrandSettingsRoute.with_brandSettings brandSettings] in Hrow.
  rewrite lookup_alter_eq in Hrow.
  destruct (brandSettings db !! uid) as [old|]; [|discriminate Hrow].
  injection Hrow as <-. discriminate Hu.
Qed.

End Exports.

Lemma export_sends_local_logos_only_witness :
  exists f,
    LogoStorage.FILENAME_RE_test f = true
    /\ "https://app.example/api/upload/logo/old.png"
       = ("https://app.example" ++ LogoStorage.API_PREFIX ++ f)%string.
Proof.
  apply (export_sends_local_logos_only ExportRoute.example_parse
           (ExportRoute.evicted_upstream 200) BrandingRoutes.example_db
           (ExportRoute.example_request "a1" (Some "html"))
           (ExportRoute.Generate
              {| ExportRoute.gen_format := html;
                 ExportRoute.gen_audit := "{}";
                 ExportRoute.gen_language := "en";
                 ExportRoute.gen_show_watermark := false;
                 ExportRoute.gen_brand :=
                   Some [("company_name", "Acme"); ("primary_color", "#112233");
                         ("logo_url",
                          "https://app.example/api/upload/logo/old.png")] |})
           "https://app.example/api/upload/logo/old.png").
  - exact example_logos_are_local.
  - vm_compute. do 2 constructor.
  - reflexivity.
Defined.

Lemma deleted_logo_is_not_sent_witness :
  ExportRouteInvariants.call_logo
    (ExportRoute.Download (Json := string) "f1"
       [("format", "pdf"); ("show_watermark", "false");
        ("company_name", "Acme"); ("primary_color", "#112233")])
  = None.
Proof.
  apply (deleted_logo_is_not_sent ExportRoute.example_parse
           (ExportRoute.evicted_upstream 200)
           {| BrandingRoutes.session_user := Some "u1" |}
           BrandingRoutes.example_db
           (BrandingRoutes.handle_DELETE
              {| BrandingRoutes.session_user := Some "u1" |}
              BrandingRoutes.example_db).1
           (ExportRoute.example_request "a1" (Some "pdf"))).
  - vm_compute. reflexivity.
  - reflexivity.
  - vm_compute. constructor.
Defined.

(** *** Reading the brand settings back, and the plan gate *)

Lemma get_state req db :
  BrandingRoutes.handle_GET req db
  = match BrandingRoutes.session_user req with
    | None => (db, Returned (BrandingRoutes.JsonError 401 "Unauthorized"))
    | Some uid =>
        if BrandSettingsRoute.is_agency (users db !! uid)
        then (db, Returned (BrandingRoutes.JsonBranding (brandSettings db !! uid)))
        else (db, Returned (BrandingRoutes.JsonError 403 "Agency plan required"))
    end.
Proof.
  unfold BrandingRoutes.handle_GET, run, BrandingRoutes.GET, bind, require,
    guard, get, respond, ret.
  destruct (BrandingRoutes.session_user req) as [uid|]; [|reflexivity].
  cbn [fst snd]. destruct (BrandSettingsRoute.is_agency _); reflexivity.
Qed.

(** The write that answers with a row stored that row for an agency
    caller. *)
Lemma put_answer host_parser put db db' row :
  BrandSettingsRoute.handle host_parser put db
  = (db', Returned (BrandSettingsRoute.JsonBranding row)) ->
  exists uid,
    BrandSettingsRoute.session_user put = Some uid
    /\ BrandSettingsRoute.is_agency (users db !! uid) = true
    /\ db' = BrandSettingsRoute.with_brandSettings db
               (<[uid := row]> (brandSettings db)).
Proof.
  intros Hput.
  destruct (BrandSettingsRoute.session_user put) as [uid|] eqn:Hsession.
  2: { unfold BrandSettingsRoute.handle, run, BrandSettingsRoute.PUT, bind,
         require in Hput. rewrite Hsession in Hput. discriminate Hput. }
  destruct (BrandSettingsRoute.is_agency (users db !! uid)) eqn:Hagency.
  2: { unfold BrandSettingsRoute.handle, run, BrandSettingsRoute.PUT, bind,
         require, guard, get, respond, ret in Hput.
       rewrite Hsession in Hput. cbn [fst snd] in Hput.
       rewrite Hagency in Hput. discriminate Hput. }
  destruct (BrandSettingsRoute.body put) as [[companyName logoUrl]|] eqn:Hbody.
  2: { unfold BrandSettingsRoute.handle, run, BrandSettingsRoute.PUT, bind,
         require, guard, get, respond, ret, throw in Hput.
       rewrite Hsession in Hput. cbn [fst snd] in Hput.
       rewrite Hagency, Hbody in Hput. discriminate Hput. }
  rewrite (BrandSettingsRouteFacts.handle_agency host_parser put db uid
             companyName logoUrl Hsession Hagency Hbody) in Hput.
  destruct (BrandSettingsRoute.valid_company_name companyName);
    [|discriminate Hput].
  assert (Hnorm : exists o,
            BrandSettingsRoute.normalize host_parser logoUrl db = (db, o)
            /\ forall r, o = Return r -> r <> BrandSettingsRoute.JsonBranding row).
  { destruct (BrandSettingsRoute.supplied logoUrl) eqn:Hs.
    - rewrite (BrandSettingsRouteFacts.normalize_supplied _ _ _ Hs).
      destruct (BrandSettingsRoute.toApiLogoPath_value host_parser logoUrl);
        eexists; (split; [reflexivity|]); intros r [= <-]; discriminate.
    - rewrite (BrandSettingsRouteFacts.normalize_not_supplied _ _ _ Hs).
      eexists. split; [reflexivity|]. intros r [=]. }
  destruct Hnorm as (o & Hnorm & Hanswer). rewrite Hnorm in Hput.
  destruct o as [normalized|r|]; [| |discriminate Hput].
  2: { injection Hput as _ Hr. destruct (Hanswer r eq_refl Hr). }
  destruct (BrandSettingsRoute.upsert uid companyName normalized db)
    as [db1 [row1|r|]] eqn:Hup; [| |discriminate Hput].
  2: { destruct (BrandSettingsRouteFacts.upsert_never_responds _ _ _ _ _ _ Hup). }
  injection Hput as <- <-.
  apply BrandSettingsRouteFacts.upsert_state in Hup.
  exists uid. split; [reflexivity|]. split; [exact Hagency | exact Hup].
Qed.

(** X12. The brand settings are read back as written: after a write
    that answered with a row, the read of the same caller answers with
    that row; and after a logo deletion that answered ok, it answers
    with the caller's row as it was but for the logo, which is null, or
    with null when the caller had no row. Neither read changes the
    database. *)
Theorem brand_settings_are_read_back
    (host_parser : bool -> list ascii -> bool)
    (put : BrandSettingsRoute.Request) (del read : BrandingRoutes.Request)
    (db : Db) :
  BrandSettingsRoute.session_user put = BrandingRoutes.session_user read ->
  BrandingRoutes.session_user del = BrandingRoutes.session_user read ->
  (forall db' row,
     BrandSettingsRoute.handle host_parser put db
     = (db', Returned (BrandSettingsRoute.JsonBranding row)) ->
     BrandingRoutes.handle_GET read db'
     = (db', Returned (BrandingRoutes.JsonBranding (Some row))))
  /\ (forall db',
       BrandingRoutes.handle_DELETE del db = (db', Returned BrandingRoutes.Ok) ->
       exists uid,
         BrandingRoutes.session_user read = Some uid
         /\ BrandingRoutes.handle_GET read db'
            = (db', Returned
                      (BrandingRoutes.JsonBranding
                         (BrandingRoutes.without_logo <$> brandSettings db !! uid)))).
Proof.
  intros Hput Hdel. split.
  - intros db' row Hanswer.
    apply put_answer in Hanswer as (uid & Hsession & Hagency & ->).
    rewrite get_state, <- Hput, Hsession.
    cbn [BrandSettingsRoute.with_brandSettings users brandSettings].
    rewrite Hagency, lookup_insert_eq. reflexivity.
  - intros db'. rewrite delete_state, Hdel.
    destruct (BrandingRoutes.session_user read) as [uid|] eqn:Hread;
      [|discriminate].
    destruct (BrandSettingsRoute.is_agency (users db !! uid)) eqn:Hagency;
      [|discriminate].
    intros [= <-]. exists uid. split; [reflexivity|].
    rewrite get_state, Hread.
    cbn [BrandSettingsRoute.with_brandSettings users brandSettings].
    rewrite Hagency, lookup_alter_eq. reflexivity.
Qed.

Lemma brand_settings_are_read_back_witness :
  (forall db' row,
     BrandSettingsRoute.handle URL.plain_domain_host
       (BrandSettingsRoute.example_request (Js.str "Acme")
          (Js.str "/uploads/new.png"))
       BrandingRoutes.example_db
     = (db', Returned (BrandSettingsRoute.JsonBranding row)) ->
     BrandingRoutes.handle_GET {| BrandingRoutes.session_user := Some "u1" |} db'
     = (db', Returned (BrandingRoutes.JsonBranding (Some row))))
  /\ (forall db',
       BrandingRoutes.handle_DELETE {| BrandingRoutes.session_user := Some "u1" |}
         BrandingRoutes.example_db
       = (db', Returned BrandingRoutes.Ok) ->
       exists uid,
         Some "u1" = Some uid
         /\ BrandingRoutes.handle_GET
              {| BrandingRoutes.session_user := Some "u1" |} db'
            = (db', Returned
                      (BrandingRoutes.JsonBranding
                         (BrandingRoutes.without_logo
                            <$> brandSettings BrandingRoutes.example_db !! uid)))).
Proof.
  apply (brand_settings_are_read_back URL.plain_domain_host
           (BrandSettingsRoute.example_request (Js.str "Acme")
              (Js.str "/uploads/new.png"))
           {| BrandingRoutes.session_user := Some "u1" |}
           {| BrandingRoutes.session_user := Some "u1" |}
           BrandingRoutes.example_db).
  - reflexivity.
  - reflexivity.
Defined.

(** X13. The three branding endpoints answer 403 exactly to an
    authenticated caller whose user record is missing or whose plan is
    not the agency plan, and such a caller changes nothing: the
    database after the request is the one before. *)
Theorem branding_needs_agency_plan
    (host_parser : bool -> list ascii -> bool)
    (put : BrandSettingsRoute.Request) (del read : BrandingRoutes.Request)
    (db : Db) :
  let refused (caller : option string) :=
    exists uid, caller = Some uid
                /\ BrandSettingsRoute.is_agency (users db !! uid) = false in
  ((exists message,
      (BrandSettingsRoute.handle host_parser put db).2
      = Returned (BrandSettingsRoute.JsonError 403 message))
   <-> refused (BrandSettingsRoute.session_user put))
  /\ ((exists message,
         (BrandingRoutes.handle_GET read db).2
         = Returned (BrandingRoutes.JsonError 403 message))
      <-> refused (BrandingRoutes.session_user read))
  /\ ((exists message,
         (BrandingRoutes.handle_DELETE del db).2
         = Returned (BrandingRoutes.JsonError 403 message))
      <-> refused (BrandingRoutes.session_user del))
  /\ (refused (BrandSettingsRoute.session_user put) ->
      (BrandSettingsRoute.handle host_parser put db).1 = db)
  /\ (refused (BrandingRoutes.session_user del) ->
      (BrandingRoutes.handle_DELETE del db).1 = db)
  /\ (BrandingRoutes.handle_GET read db).1 = db.
Proof.
  cbn zeta.
  assert (Hput :
    BrandSettingsRoute.handle host_parser put db
    = match BrandSettingsRoute.session_user put with
      | None => (db, Returned (BrandSettingsRoute.JsonError 401 "Unauthorized"))
      | Some uid =>
          if BrandSettingsRoute.is_agency (users db !! uid)
          then BrandSettingsRoute.handle host_parser put db
          else (db, Returned
                      (BrandSettingsRoute.JsonError 403 "Agency plan required"))
      end).
  { unfold BrandSettingsRoute.handle, run, BrandSettingsRoute.PUT, bind, require,
      guard, get, respond, ret.
    destruct (BrandSettingsRoute.session_user put) as [uid|]; [|reflexivity].
    cbn [fst snd]. destruct (BrandSettingsRoute.is_agency _); reflexivity. }
  assert (Hagency : forall uid message,
    BrandSettingsRoute.session_user put = Some uid ->
    BrandSettingsRoute.is_agency (users db !! uid) = true ->
    (BrandSettingsRoute.handle host_parser put db).2
    <> Returned (BrandSettingsRoute.JsonError 403 message)).
  { intros uid message Hsession Hyes.
    destruct (BrandSettingsRoute.body put) as [[companyName logoUrl]|] eqn:Hbody.
    2: { unfold BrandSettingsRoute.handle, run, BrandSettingsRoute.PUT, bind,
           require, guard, get, respond, ret, throw.
         rewrite Hsession. cbn [fst snd]. rewrite Hyes, Hbody. discriminate. }
    rewrite (BrandSettingsRouteFacts.handle_agency host_parser put db uid
               companyName logoUrl Hsession Hyes Hbody).
    destruct (BrandSettingsRoute.valid_company_name companyName); [|discriminate].
    destruct (BrandSettingsRoute.supplied logoUrl) eqn:Hs.
    - rewrite (BrandSettingsRouteFacts.normalize_supplied _ _ _ Hs).
      destruct (BrandSettingsRoute.toApiLogoPath_value host_parser logoUrl);
        [|discriminate].
      destruct (BrandSettingsRoute.upsert uid companyName (Js.str s) db)
        as [db1 [row|r|]] eqn:Hup; try discriminate.
      destruct (BrandSettingsRouteFacts.upsert_never_responds _ _ _ _ _ _ Hup).
    - rewrite (BrandSettingsRouteFacts.normalize_not_supplied _ _ _ Hs).
      destruct (BrandSettingsRoute.upsert uid companyName logoUrl db)
        as [db1 [row|r|]] eqn:Hup; try discriminate.
      destruct (BrandSettingsRouteFacts.upsert_never_responds _ _ _ _ _ _ Hup). }
  split; [|split; [|split; [|split; [|split]]]].
  - split.
    + intros [message Hanswer].
      destruct (BrandSettingsRoute.session_user put) as [uid|] eqn:Hsession.
      * exists uid. split; [reflexivity|].
        destruct (BrandSettingsRoute.is_agency (users db !! uid)) eqn:Hyes;
          [|reflexivity].
        destruct (Hagency uid message eq_refl Hyes Hanswer).
      * rewrite Hput in Hanswer. discriminate Hanswer.
    + intros (uid & Hsession & Hno). rewrite Hput, Hsession, Hno.
      eexists. reflexivity.
  - rewrite get_state. split.
    + intros [message Hanswer].
      destruct (BrandingRoutes.session_user read) as [uid|];
        [|discriminate Hanswer].
      exists uid. split; [reflexivity|].
      destruct (BrandSettingsRoute.is_agency (users db !! uid));
        [discriminate Hanswer | reflexivity].
    + intros (uid & -> & ->). eexists. reflexivity.
  - rewrite delete_state. split.
    + intros [message Hanswer].
      destruct (BrandingRoutes.session_user del) as [uid|];
        [|discriminate Hanswer].
      exists uid. split; [reflexivity|].
      destruct (BrandSettingsRoute.is_agency (users db !! uid));
        [discriminate Hanswer | reflexivity].
    + intros (uid & -> & ->). eexists. reflexivity.
  - intros (uid & Hsession & Hno). rewrite Hput, Hsession, Hno. reflexivity.
  - intros (uid & Hsession & Hno). rewrite delete_state, Hsession, Hno. reflexivity.
  - rewrite get_state.
    destruct (BrandingRoutes.session_user read) as [uid|]; [|reflexivity].
    destruct (BrandSettingsRoute.is_agency _); reflexivity.
Qed.

End BrandingFacts.

(** ** The plan switch *)

Module UserPlanRouteFacts.

Import PlanCapabilities Prisma Handler UserPlanRoute.

(** The handler by cases. *)
Lemma plan_switch_cases req db :
  handle req db
  = match session_user req with
    | None => (db, Returned (JsonError 401 "Unauthorized"))
    | Some uid =>
        match body req with
        | invalid_json => (db, Returned (JsonError 400 "Invalid JSON body"))
        | json_null => (db, Threw)
        | json_object value =>
            match plan_id value with
            | None => (db, Returned (JsonError 400 "planId is required"))
            | Some p =>
                match plans db !! p with
                | None => (db, Returned (JsonError 404 "Plan not found"))
                | Some _ =>
                    match users db !! uid with
                    | Some u =>
                        (with_users db (<[uid := on_plan p u]> (users db)),
                         Returned (Switched p))
                    | None => (db, Threw)
                    end
                end
            end
        end
    end.
Proof.
  unfold handle, run, PATCH, bind, require, respond, ret, throw, get, user_update.
  destruct (session_user req) as [uid|]; [|reflexivity].
  destruct (body req) as [| |value]; try reflexivity.
  cbn [fst snd]. destruct (plan_id value) as [p|]; [|reflexivity].
  cbn [fst snd]. destruct (plans db !! p); [|reflexivity].
  cbn [fst snd]. destruct (users db !! uid); reflexivity.
Qed.

Lemma plan_id_spec value p :
  plan_id value = Some p <-> value = Js.str p /\ p <> "".
Proof.
  destruct value as [| |b|[|c s]|t image]; cbn [plan_id];
    (split; [intros H; try discriminate H | intros [H Hp]; try discriminate H]).
  - injection H as <-. contradiction.
  - injection H as <-. split; [reflexivity | discriminate].
  - injection H as <-. reflexivity.
Qed.

(** A request that is not answered with the switch: the four parts
    of the frame, given why the conditions of the switch fail. *)
Ltac not_switched why :=
  cbn [fst snd];
  split;
  [ intros ?; split; [discriminate | intros (? & ? & ? & ? & ? & ?); why]
  | split;
    [ intros ? ? ? [=]
    | split;
      [ reflexivity
      | split;
        [ match goal with |- with_users ?d _ = ?d => destruct d; reflexivity end
        | reflexivity ] ] ] ].

(** X14. A plan-switch request is answered with the switch exactly
    when the caller is authenticated, the body's [planId] is a
    non-empty string that names a plan of the plans table, and the
    caller's user record exists; the caller's record is then stored
    with that [planId] and with its connection fields as before.
    Whatever the request, the records of the other users and the other
    tables are as they were, and a request that is not answered with
    the switch leaves the database as it was. *)
Theorem plan_switch_changes_only_callers_plan (req : Request) (db : Db) :
  let result := handle req db in
  (forall p,
     result.2 = Returned (Switched p) <->
     exists uid,
       session_user req = Some uid /\ body req = json_object (Js.str p)
       /\ p <> "" /\ is_Some (plans db !! p) /\ is_Some (users db !! uid))
  /\ (forall p uid u,
        result.2 = Returned (Switched p) ->
        session_user req = Some uid ->
        users db !! uid = Some u ->
        users result.1 !! uid
        = Some {| planId := Some p; gscConnected := gscConnected u;
                  gscConnectedAt := gscConnectedAt u |})
  /\ (forall k, session_user req <> Some k -> users result.1 !! k = users db !! k)
  /\ with_users result.1 (users db) = db
  /\ ((forall p, result.2 <> Returned (Switched p)) -> result.1 = db).
Proof.
  cbn zeta. rewrite plan_switch_cases.
  destruct (session_user req) as [uid|]; [|not_switched discriminate].
  destruct (body req) as [| |value];
    [not_switched discriminate | not_switched discriminate |].
  destruct (plan_id value) as [p|] eqn:Hvalue.
  2: { not_switched idtac.
       match goal with
       | Hbody : json_object value = json_object (Js.str ?q), Hq : ?q <> "" |- _ =>
           injection Hbody as ->;
           assert (plan_id (Js.str q) = Some q) as Hid
             by (apply plan_id_spec; split; [reflexivity | exact Hq]);
           rewrite Hid in Hvalue; discriminate Hvalue
       end. }
  apply plan_id_spec in Hvalue as [-> Hp].
  destruct (plans db !! p) as [plan|] eqn:Hplan.
  2: { not_switched idtac.
       match goal with
       | Hbody : json_object (Js.str p) = json_object (Js.str ?q),
         Hsome : is_Some (plans db !! ?q) |- _ =>
           injection Hbody as <-; rewrite Hplan in Hsome;
           destruct Hsome as [? Hsome]; discriminate Hsome
       end. }
  destruct (users db !! uid) as [u|] eqn:Hu.
  2: { not_switched idtac.
       match goal with
       | Hcaller : Some uid = Some ?k, Hsome : is_Some (users db !! ?k) |- _ =>
           injection Hcaller as <-; rewrite Hu in Hsome;
           destruct Hsome as [? Hsome]; discriminate Hsome
       end. }
  cbn [fst snd with_users users]. split; [|split; [|split; [|split]]].
  - intros q. split.
    + intros [= <-]. exists uid.
      split; [reflexivity|]. split; [reflexivity|]. split; [exact Hp|].
      split; [exists plan; exact Hplan | exists u; exact Hu].
    + intros (uid' & _ & [= <-] & _). reflexivity.
  - intros q uid' u' [= <-] [= <-] Hu'. rewrite Hu in Hu'. injection Hu' as <-.
    apply lookup_insert_eq.
  - intros k Hk. apply lookup_insert_ne. congruence.
  - destruct db; reflexivity.
  - intros Hnever. destruct (Hnever p eq_refl).
Qed.

Section Exports.

Context {Json : Type}.
Variable JSON_parse : string -> option Json.
Variable fastapiFetch : ExportRoute.UpstreamRequest Json -> option ExportRoute.UpstreamResponse.

Lemma allowed_formats_by_plan p format :
  bool_decide (format ∈ allowedExportFormats (getPlanCapabilities (Some p)))
  = negb (bool_decide (format <> pdf /\ p <> "agency")).
Proof.
  destruct (decide (p = "agency")) as [-> | Hp].
  - rewrite BrandingFacts.agency_allows_every_format.
    rewrite bool_decide_eq_false_2 by tauto. reflexivity.
  - assert (Hallowed : allowedExportFormats (getPlanCapabilities (Some p)) = [pdf]).
    { unfold getPlanCapabilities.
      rewrite (proj2 (strict_eq_false (Some p) "agency")) by congruence.
      destruct (strict_eq (Some p) "free"); reflexivity. }
    rewrite Hallowed. destruct format.
    + rewrite bool_decide_eq_true_2 by (apply list_elem_of_here).
      rewrite bool_decide_eq_false_2 by tauto. reflexivity.
    + rewrite bool_decide_eq_false_2
        by (intros Hin; apply elem_of_cons in Hin as [Hin|Hin];
            [discriminate Hin | apply elem_of_nil in Hin; exact Hin]).
      rewrite bool_decide_eq_true_2 by (split; [discriminate | exact Hp]).
      reflexivity.
    + rewrite bool_decide_eq_false_2
        by (intros Hin; apply elem_of_cons in Hin as [Hin|Hin];
            [discriminate Hin | apply elem_of_nil in Hin; exact Hin]).
      rewrite bool_decide_eq_true_2 by (split; [discriminate | exact Hp]).
      reflexivity.
Qed.

(** X15. After a plan switch that was answered with the switch to
    [p], an export by the same caller in a supported format is refused
    with the plan's 403, before any upstream call, exactly when the
    format is not PDF and [p] is not the agency plan. *)
Theorem plan_switch_decides_export_formats
    (req : Request) (db db' : Db) (p : string)
    (export : ExportRoute.Request) (format : ExportFormat) :
  handle req db = (db', Returned (Switched p)) ->
  ExportRoute.session_user export = session_user req ->
  ExportRoute.supported_format (ExportRoute.requestedFormat export) = Some format ->
  ExportRoute.handle JSON_parse fastapiFetch db' export
  = ([], Returned (ExportRoute.JsonError 403 "Your plan allows PDF export only"))
  <-> format <> pdf /\ p <> "agency".
Proof.
  rewrite plan_switch_cases. intros Hswitch Hcaller Hformat.
  destruct (session_user req) as [uid|]; [|discriminate Hswitch].
  destruct (body req) as [| |value]; try discriminate Hswitch.
  destruct (plan_id value) as [q|]; [|discriminate Hswitch].
  destruct (plans db !! q); [|discriminate Hswitch].
  destruct (users db !! uid) as [u|]; [|discriminate Hswitch].
  injection Hswitch as <- <-.
  rewrite ExportRouteInvariants.export_handle_cases, Hcaller, Hformat.
  cbn [with_users users]. rewrite lookup_insert_eq. cbn zeta. cbn [on_plan planId].
  rewrite allowed_formats_by_plan.
  destruct (decide (format <> pdf /\ q <> "agency")) as [Hrefused | Hallowed].
  - rewrite bool_decide_eq_true_2 by exact Hrefused. cbn [negb].
    split; [intros _; exact Hrefused | reflexivity].
  - rewrite bool_decide_eq_false_2 by exact Hallowed. cbn [negb].
    split; [|intros H; destruct (Hallowed H)].
    intros Hexport. exfalso.
    destruct (ExportRoute.owned_audit _ uid (ExportRoute.id export)) as [audit|];
      [|discriminate Hexport].
    destruct (ExportRouteInvariants.proxy_first_call JSON_parse fastapiFetch format
                (ExportRoute.lang_param export) (getPlanCapabilities (Some q))
                (ExportRoute.brand_for
                   (with_users db (<[uid := on_plan q u]> (users db))) uid
                   (ExportRoute.origin export) (getPlanCapabilities (Some q)))
                audit) as [rest Hrest].
    apply (f_equal fst) in Hexport. cbn [fst] in Hexport.
    rewrite Hexport in Hrest. discriminate Hrest.
Qed.

End Exports.

Lemma plan_switch_decides_export_formats_witness :
  ExportRoute.handle ExportRoute.example_parse (ExportRoute.evicted_upstream 200)
    (handle (example_request (Js.str "pro")) example_db).1
    (ExportRoute.example_request "a1" (Some "html"))
  = ([], Returned (ExportRoute.JsonError 403 "Your plan allows PDF export only"))
  <-> html <> pdf /\ "pro" <> "agency".
Proof.
  apply (plan_switch_decides_export_formats ExportRoute.example_parse
           (ExportRoute.evicted_upstream 200)
           (example_request (Js.str "pro")) example_db
           (handle (example_request (Js.str "pro")) example_db).1 "pro"
           (ExportRoute.example_request "a1" (Some "html")) html).
  - vm_compute. reflexivity.
  - reflexivity.
  - vm_compute. reflexivity.
Defined.

End UserPlanRouteFacts.

(** ** The auto-index switch: what a request can change *)

Module AutoIndexRouteInvariants.

Import Prisma Handler AutoIndexRoute.

(** A flag after the update is the old one or the one of the body. *)
Lemma updated_flag (old : bool) (v : option bool) :
  default old v = true -> old = true \/ v = Some true.
Proof. destruct v as [[]|]; cbn; intros H; auto; discriminate H. Qed.

Lemma enables_spec g b :
  enables g b = true <-> g = Some true \/ b = Some true.
Proof.
  unfold enables. destruct g as [[]|], b as [[]|]; cbn;
    split; intros H; try reflexivity; try discriminate H; auto;
    destruct H as [H|H]; discriminate H.
Qed.

(** The two ways a request ends: nothing written and no flags in the
    answer, or the flags of the caller's own site written and
    answered, after the plan was asked if a flag is set to true. *)
Lemma auto_index_state req d :
  (db (handle req d).1 = d /\ forall g b, (handle req d).2 <> Returned (Flags g b))
  \/ exists uid site g b,
       session_user req = Some uid
       /\ sites d !! siteId req = Some site
       /\ site_userId site = uid
       /\ (enables g b = true -> plan_autoIndexing d uid = true)
       /\ db (handle req d).1 = with_site d (siteId req) (updated site g b)
       /\ (handle req d).2
          = Returned (Flags (autoIndexGoogle (updated site g b))
                            (autoIndexBing (updated site g b))).
Proof.
  destruct (session_user req) as [uid|] eqn:Hsession.
  2: { left. unfold handle, run, PATCH, bind, require. rewrite Hsession.
       split; [reflexivity | discriminate]. }
  destruct (sites d !! siteId req) as [site|] eqn:Hsite.
  2: { left. unfold handle, run, PATCH, bind, require, guard, query, respond, ret.
       rewrite Hsession. cbn [db queries fst snd]. rewrite Hsite.
       split; [reflexivity | discriminate]. }
  destruct (decide (site_userId site = uid)) as [Howner | Hother].
  2: { left. unfold handle, run, PATCH, bind, require, guard, query, respond, ret.
       rewrite Hsession. cbn [db queries fst snd]. rewrite Hsite.
       rewrite bool_decide_eq_false_2 by exact Hother.
       split; [reflexivity | discriminate]. }
  destruct (body req) as [| |google bing] eqn:Hbody.
  1, 2: left; unfold handle, run, PATCH, bind, require, guard, query, respond, ret,
          throw;
        rewrite Hsession, Hbody; cbn [db queries fst snd]; rewrite Hsite;
        rewrite bool_decide_eq_true_2 by exact Howner;
        (split; [reflexivity | discriminate]).
  rewrite (AutoIndexRouteFacts.handle_owned_site req d uid site google bing
             Hsession Hsite Howner Hbody).
  cbn zeta. set (g := as_boolean google). set (b := as_boolean bing).
  destruct (bool_decide (is_Some g) || bool_decide (is_Some b));
    [|left; split; [reflexivity | discriminate]].
  destruct (enables g b) eqn:Henables.
  - destruct (plan_autoIndexing d uid) eqn:Hplan;
      [|left; split; [reflexivity | discriminate]].
    right. exists uid, site, g, b. rewrite Henables.
    split; [reflexivity|]. split; [reflexivity|]. split; [exact Howner|].
    split; [intros _; exact Hplan|]. split; reflexivity.
  - right. exists uid, site, g, b. rewrite Henables.
    split; [reflexivity|]. split; [reflexivity|]. split; [exact Howner|].
    split; [discriminate|]. split; reflexivity.
Qed.

(** X16. Whatever the request, either nothing is written and the
    answer carries no flags, or exactly the row of the requested site
    is rewritten: the caller owns it before and after, and the flags
    answered are the flags stored. No other site and no other table
    changes. *)
Theorem auto_index_changes_flags_of_one_owned_site (req : Request) (d : Db) :
  let result := handle req d in
  (db result.1 = d /\ forall g b, result.2 <> Returned (Flags g b))
  \/ exists uid site site',
       session_user req = Some uid
       /\ sites d !! siteId req = Some site
       /\ site_userId site = uid /\ site_userId site' = uid
       /\ db result.1 = with_site d (siteId req) site'
       /\ sites (db result.1) !! siteId req = Some site'
       /\ (forall id, id <> siteId req ->
                      sites (db result.1) !! id = sites d !! id)
       /\ result.2 = Returned (Flags (autoIndexGoogle site') (autoIndexBing site')).
Proof.
  cbn zeta.
  destruct (auto_index_state req d)
    as [Hsame | (uid & site & g & b & Hsession & Hsite & Howner & _ & Hdb & Hout)].
  - left. exact Hsame.
  - right. exists uid, site, (updated site g b). rewrite Hdb.
    split; [exact Hsession|]. split; [exact Hsite|]. split; [exact Howner|].
    split; [exact Howner|]. split; [reflexivity|].
    split; [apply lookup_insert_eq|].
    split; [|exact Hout].
    intros id Hid. apply lookup_insert_ne. congruence.
Qed.

(** X17. No request turns a flag of a site from off to on unless the
    caller is authenticated, owns that site, named it in the request,
    and is on a plan with auto-indexing. *)
Theorem auto_index_never_enabled_without_plan
    (req : Request) (d : Db) (id : string) (site site' : Site) :
  sites d !! id = Some site ->
  sites (db (handle req d).1) !! id = Some site' ->
  (autoIndexGoogle site = false /\ autoIndexGoogle site' = true)
  \/ (autoIndexBing site = false /\ autoIndexBing site' = true) ->
  exists uid,
    session_user req = Some uid /\ site_userId site = uid
    /\ id = siteId req /\ plan_autoIndexing d uid = true.
Proof.
  intros Hbefore Hafter Hturned.
  destruct (auto_index_state req d)
    as [[Hsame _] | (uid & old & g & b & Hsession & Hsite & Howner & Hplan & Hdb & _)].
  - exfalso. rewrite Hsame, Hbefore in Hafter. injection Hafter as <-.
    destruct Hturned as [[H0 H1] | [H0 H1]]; congruence.
  - rewrite Hdb in Hafter. cbn [with_site sites] in Hafter.
    destruct (decide (id = siteId req)) as [-> | Hid].
    + rewrite lookup_insert_eq in Hafter. injection Hafter as <-.
      rewrite Hsite in Hbefore. injection Hbefore as <-.
      exists uid. repeat split; try assumption.
      apply Hplan. apply enables_spec. cbn [updated autoIndexGoogle autoIndexBing] in Hturned.
      destruct Hturned as [[H0 H1] | [H0 H1]];
        apply updated_flag in H1 as [H1 | H1]; try congruence; auto.
    + exfalso. rewrite lookup_insert_ne in Hafter by congruence.
      rewrite Hbefore in Hafter. injection Hafter as <-.
      destruct Hturned as [[H0 H1] | [H0 H1]]; congruence.
Qed.

(** X17 at a request of a user on the pro plan that turns Bing on. *)
Lemma auto_index_never_enabled_without_plan_witness :
  exists uid,
    Some "u1" = Some uid /\ "u1" = uid /\ "s1" = "s1"
    /\ plan_autoIndexing (UserPlanRoute.handle
                            (UserPlanRoute.example_request (Js.str "pro"))
                            (with_site UserPlanRoute.example_db "s1"
                               {| site_userId := "u1"; autoIndexGoogle := true;
                                  autoIndexBing := false |})).1 uid
       = true.
Proof.
  apply (auto_index_never_enabled_without_plan
           (example_request Js.undefined (Js.boolean true))
           (UserPlanRoute.handle (UserPlanRoute.example_request (Js.str "pro"))
              (with_site UserPlanRoute.example_db "s1"
                 {| site_userId := "u1"; autoIndexGoogle := true;
                    autoIndexBing := false |})).1
           "s1"
           {| site_userId := "u1"; autoIndexGoogle := true; autoIndexBing := false |}
           {| site_userId := "u1"; autoIndexGoogle := true; autoIndexBing := true |}).
  - vm_compute. reflexivity.
  - vm_compute. reflexivity.
  - right. split; reflexivity.
Defined.

End AutoIndexRouteInvariants.

(** ** The disconnect: what a request can change *)

Module DisconnectRouteInvariants.

Import Prisma Handler DisconnectRoute.

Section Route.

Variable getGoogleAccount : Db -> string -> option (string * Account).
Variable fault : Write -> bool.

(** The state after the token steps, however they end: the
    revocation of a truthy access token, and the tokens of the named
    account cleared unless that write fails. *)
Lemma after_tokens_state uid d :
  let s := (DisconnectRouteFacts.after_tokens getGoogleAccount fault uid d).1 in
  revoked s
  = match getGoogleAccount d uid with
    | Some (_, a) =>
        if Js.truthy (access_token a)
        then [Js.or_else (access_token a) ""] else []
    | None => []
    end
  /\ (db s = d
      \/ exists aid a0 a,
           getGoogleAccount d uid = Some (aid, a0)
           /\ accounts d !! aid = Some a
           /\ fault AccountUpdate = false
           /\ (DisconnectRouteFacts.after_tokens getGoogleAccount fault uid d).2
              = Next tt
           /\ db s = with_accounts d (<[aid := cleared a]> (accounts d))).
Proof.
  unfold DisconnectRouteFacts.after_tokens, bind, revoke, ret, write, account_update.
  destruct (getGoogleAccount d uid) as [[aid a0]|]; cbn [db revoked fst snd];
    [|split; [reflexivity | left; reflexivity]].
  destruct (Js.truthy (access_token a0)); cbn [db revoked fst snd app];
    (destruct (fault AccountUpdate) eqn:Hfault; cbn [db revoked fst snd];
     [split; [reflexivity | left; reflexivity]|]);
    (destruct (accounts d !! aid) as [a|] eqn:Ha; cbn [db revoked fst snd];
     [|split; [reflexivity | left; reflexivity]]);
    (split; [reflexivity|]; right; exists aid, a0, a;
     split; [reflexivity|]; split; [exact Ha|]; split; [reflexivity|];
     split; reflexivity).
Qed.

(** The last write, when it goes through. *)
Lemma last_write_state (purge : bool) uid d d' :
  (if purge
   then transaction [user_update fault uid; site_deleteMany fault uid]
   else user_update fault uid) d = Some d' ->
  exists u,
    users d !! uid = Some u
    /\ d' = with_sites (with_users d (<[uid := disconnected u]> (users d)))
              (if purge
               then filter (fun p => site_userId p.2 <> uid) (sites d)
               else sites d).
Proof.
  destruct purge.
  - cbn [transaction].
    destruct (user_update fault uid d) as [d1|] eqn:H1; [|discriminate].
    apply DisconnectRouteFacts.user_update_spec in H1 as (u & Hu & ->).
    unfold site_deleteMany. destruct (fault SiteDeleteMany); [discriminate|].
    intros [= <-]. exists u. split; [exact Hu | reflexivity].
  - intros H1.
    apply DisconnectRouteFacts.user_update_spec in H1 as (u & Hu & ->).
    exists u. split; [exact Hu | reflexivity].
Qed.

(** What a database can differ in from the one before the request:
    the connection of user [uid], sites of [uid] that are gone, and
    the tokens of the account named for [uid]. *)
Definition only_disconnects (uid : string) (d d' : Db) : Prop :=
  plans d' = plans d /\ audits d' = audits d
  /\ brandSettings d' = brandSettings d
  /\ (forall k, k <> uid -> users d' !! k = users d !! k)
  /\ (forall u, users d !! uid = Some u ->
                users d' !! uid = Some u
                \/ users d' !! uid = Some (disconnected u))
  /\ (forall id site, sites d' !! id = Some site -> sites d !! id = Some site)
  /\ (forall id site, sites d !! id = Some site -> site_userId site <> uid ->
                      sites d' !! id = Some site)
  /\ (forall aid, accounts d' !! aid <> accounts d !! aid ->
                  exists a0 a, getGoogleAccount d uid = Some (aid, a0)
                               /\ accounts d !! aid = Some a
                               /\ accounts d' !! aid = Some (cleared a)).

Lemma only_disconnects_refl uid d : only_disconnects uid d d.
Proof.
  unfold only_disconnects. repeat split; auto.
  intros aid H. destruct (H eq_refl).
Qed.

Lemma only_disconnects_tokens uid d aid a0 a :
  getGoogleAccount d uid = Some (aid, a0) ->
  accounts d !! aid = Some a ->
  only_disconnects uid d (with_accounts d (<[aid := cleared a]> (accounts d))).
Proof.
  intros Hnamed Ha. unfold only_disconnects. cbn [with_accounts plans audits
    brandSettings users sites accounts].
  repeat split; auto.
  intros k Hk. destruct (decide (k = aid)) as [-> | Hne].
  - exists a0, a. rewrite lookup_insert_eq. repeat split; assumption.
  - rewrite lookup_insert_ne in Hk by congruence. destruct (Hk eq_refl).
Qed.

Lemma only_disconnects_last_write (purge : bool) uid d0 d u :
  only_disconnects uid d0 d ->
  users d = users d0 -> sites d = sites d0 ->
  users d !! uid = Some u ->
  only_disconnects uid d0
    (with_sites (with_users d (<[uid := disconnected u]> (users d)))
       (if purge
        then filter (fun p => site_userId p.2 <> uid) (sites d)
        else sites d)).
Proof.
  intros (Hplans & Haudits & Hbrand & _ & _ & _ & _ & Haccounts) Husers Hsites Hu.
  unfold only_disconnects.
  cbn [with_sites with_users plans audits brandSettings users sites accounts].
  rewrite Husers, Hsites in *.
  split; [exact Hplans|]. split; [exact Haudits|]. split; [exact Hbrand|].
  split; [|split; [|split; [|split]]].
  - intros k Hk. apply lookup_insert_ne. congruence.
  - intros u0 Hu0. right. rewrite lookup_insert_eq. congruence.
  - intros id site. destruct purge; [|auto].
    intros Hin. apply map_lookup_filter_Some in Hin as [Hin _]. exact Hin.
  - intros id site Hin Hother. destruct purge; [|exact Hin].
    apply map_lookup_filter_Some. split; [exact Hin | exact Hother].
  - exact Haccounts.
Qed.

(** X18. Whatever the request, the account lookup and the writes the
    database refuses, and however the request ends, the database
    differs from the one before in this only: the caller's connection
    flag and date may be cleared, sites of the caller may be gone, and
    the four token fields of the account named for the caller may be
    cleared. The plans, the audits, the brand settings, the records and
    sites of the other users and every other account are as they were,
    no site is created or altered, and an unauthenticated request
    changes nothing and revokes nothing. *)
Theorem disconnect_touches_only_the_caller (req : Request) (d : Db) :
  let s := (handle getGoogleAccount fault req d).1 in
  match session_user req with
  | Some uid => only_disconnects uid d (db s)
  | None => db s = d /\ revoked s = []
  end.
Proof.
  cbn zeta. destruct (session_user req) as [uid|] eqn:Hsession.
  2: { unfold handle, run, DELETE, bind, require. rewrite Hsession.
       split; reflexivity. }
  rewrite (DisconnectRouteFacts.handle_authenticated getGoogleAccount fault
             req uid d Hsession).
  pose proof (after_tokens_state uid d) as [_ Hstate]. cbn zeta in Hstate.
  pose proof (DisconnectRouteFacts.after_tokens_tables getGoogleAccount fault uid d)
    as (Husers & Hsites & _).
  assert (Hafter : only_disconnects uid d
            (db (DisconnectRouteFacts.after_tokens getGoogleAccount fault uid d).1)).
  { destruct Hstate as [-> | (aid & a0 & a & Hnamed & Ha & _ & _ & ->)].
    - apply only_disconnects_refl.
    - apply only_disconnects_tokens with a0; assumption. }
  destruct (DisconnectRouteFacts.after_tokens getGoogleAccount fault uid d)
    as [s [[]|r|]]; cbn [fst snd] in *; try exact Hafter.
  destruct ((if negb (bool_decide (deleteData_param req = Some "false"))
             then transaction [user_update fault uid; site_deleteMany fault uid]
             else user_update fault uid) (db s)) as [d'|] eqn:Hwrite;
    cbn [fst db]; [|exact Hafter].
  apply last_write_state in Hwrite as (u & Hu & ->).
  apply only_disconnects_last_write; assumption.
Qed.

(** X19. The token steps are not part of the purge. When the account
    that [getGoogleAccount] names for the caller exists and the
    database takes its update, then however the request ends, also
    with an exception from the later writes, a truthy access token has
    been sent to the revocation endpoint, once, and that account is
    stored with its four token fields null and its user as before; no
    other account changes. *)
Theorem tokens_are_cleared_before_the_purge
    (req : Request) (uid aid : string) (a0 a : Account) (d : Db) :
  session_user req = Some uid ->
  getGoogleAccount d uid = Some (aid, a0) ->
  accounts d !! aid = Some a ->
  fault AccountUpdate = false ->
  let s := (handle getGoogleAccount fault req d).1 in
  revoked s
  = (if Js.truthy (access_token a0) then [Js.or_else (access_token a0) ""] else [])
  /\ accounts (db s)
     = <[aid := {| account_userId := account_userId a; access_token := None;
                   refresh_token := None; expires_at := None; scope := None |}]>
         (accounts d).
Proof.
  intros Hsession Hnamed Ha Hfault. cbn zeta.
  rewrite (DisconnectRouteFacts.handle_authenticated getGoogleAccount fault
             req uid d Hsession).
  pose proof (after_tokens_state uid d) as [Hrevoked Hstate]. cbn zeta in *.
  rewrite Hnamed in Hrevoked.
  assert (Hdb : db (DisconnectRouteFacts.after_tokens getGoogleAccount fault uid d).1
                = with_accounts d (<[aid := cleared a]> (accounts d))
                /\ (DisconnectRouteFacts.after_tokens getGoogleAccount fault uid d).2
                   = Next tt).
  { clear Hstate Hrevoked.
    unfold DisconnectRouteFacts.after_tokens, bind, revoke, ret, write,
      account_update.
    rewrite Hnamed, Hfault.
    destruct (Js.truthy (access_token a0)); cbn [db revoked fst snd];
      rewrite Ha; split; reflexivity. }
  destruct Hdb as [Hdb Hnext].
  destruct (DisconnectRouteFacts.after_tokens getGoogleAccount fault uid d)
    as [s o]; cbn [fst snd] in *. subst o.
  destruct ((if negb (bool_decide (deleteData_param req = Some "false"))
             then transaction [user_update fault uid; site_deleteMany fault uid]
             else user_update fault uid) (db s)) as [d'|] eqn:Hwrite;
    cbn [fst db revoked].
  - split; [exact Hrevoked|].
    apply last_write_state in Hwrite as (u & _ & ->).
    cbn [with_sites with_users accounts]. rewrite Hdb. reflexivity.
  - split; [exact Hrevoked|]. rewrite Hdb. reflexivity.
Qed.

End Route.

(** X19 at a purge whose deletion of the sites the database refuses:
    the request ends with an exception, the token is revoked and the
    account's tokens are cleared. *)
Lemma tokens_are_cleared_before_the_purge_witness :
  let s :=
    (handle example_getGoogleAccount deletion_fault
       {| session_user := Some "u1"; deleteData_param := None |}
       example_db).1 in
  (handle example_getGoogleAccount deletion_fault
     {| session_user := Some "u1"; deleteData_param := None |}
     example_db).2 = Threw
  /\ revoked s = ["token"]
  /\ accounts (db s) !! "acc1"
     = Some {| account_userId := "u1"; access_token := None;
               refresh_token := None; expires_at := None; scope := None |}.
Proof.
  pose proof (tokens_are_cleared_before_the_purge example_getGoogleAccount
                deletion_fault
                {| session_user := Some "u1"; deleteData_param := None |}
                "u1" "acc1"
                {| account_userId := "u1"; access_token := Some "token";
                   refresh_token := Some "refresh";
                   expires_at := Some 1700003600%N; scope := Some "webmasters" |}
                {| account_userId := "u1"; access_token := Some "token";
                   refresh_token := Some "refresh";
                   expires_at := Some 1700003600%N; scope := Some "webmasters" |}
                example_db eq_refl) as Hcleared.
  assert (Hnamed : example_getGoogleAccount example_db "u1"
                   = Some ("acc1",
                           {| account_userId := "u1"; access_token := Some "token";
                              refresh_token := Some "refresh";
                              expires_at := Some 1700003600%N;
                              scope := Some "webmasters" |}))
    by (vm_compute; reflexivity).
  assert (Hstored : accounts example_db !! "acc1"
                    = Some {| account_userId := "u1"; access_token := Some "token";
                              refresh_token := Some "refresh";
                              expires_at := Some 1700003600%N;
                              scope := Some "webmasters" |})
    by (vm_compute; reflexivity).
  destruct (Hcleared Hnamed Hstored eq_refl) as [Hrevoked Haccounts].
  cbn zeta. split; [vm_compute; reflexivity|]. split; [exact Hrevoked|].
  rewrite Haccounts. apply lookup_insert_eq.
Defined.

End DisconnectRouteInvariants.

(** ** The locale prefix: middleware.ts and i18n/navigation.ts *)

Module MiddlewareFacts.

Import Middleware.

(** A locale code without a slash. *)
Definition slash_free (locale : string) : Prop :=
  Forall (fun c => c <> "/"%char) (list_ascii_of_string locale).

Lemma startsWith_append p s : LogoStorage.startsWith (p ++ s) p = true.
Proof.
  induction p as [|a p IH]; [reflexivity|].
  change (Ascii.eqb a a && LogoStorage.startsWith (p ++ s) p = true).
  rewrite Ascii.eqb_refl. exact IH.
Qed.

Lemma slice_append p s : LogoStorage.slice (String.length p) (p ++ s) = s.
Proof.
  induction p as [|a p IH]; [apply LogoStorageFacts.slice_0 | exact IH].
Qed.

Lemma append_assoc (a b c : string) : ((a ++ b) ++ c = a ++ (b ++ c))%string.
Proof.
  induction a as [|x a IH]; [reflexivity|].
  change (String x ((a ++ b) ++ c) = String x (a ++ (b ++ c))). rewrite IH.
  reflexivity.
Qed.

(** Of two slash-free codes followed by a slash, one is a prefix of
    the other only if they are equal. *)
Lemma prefix_locale_eq l0 l rest :
  slash_free l0 -> slash_free l ->
  LogoStorage.startsWith (l ++ String "/" rest) (l0 ++ "/") = true -> l0 = l.
Proof.
  revert l. induction l0 as [|c l0 IH]; intros l H0 Hl Hstarts.
  - destruct l as [|d l]; [reflexivity|]. exfalso.
    change (Ascii.eqb "/" d && true = true) in Hstarts.
    rewrite andb_true_r in Hstarts. apply Ascii.eqb_eq in Hstarts. subst d.
    apply Forall_cons in Hl as [Hd _]. exact (Hd eq_refl).
  - apply Forall_cons in H0 as [Hc H0].
    destruct l as [|d l].
    + exfalso.
      change (Ascii.eqb c "/" && LogoStorage.startsWith rest (l0 ++ "/") = true)
        in Hstarts.
      apply andb_true_iff in Hstarts as [Hcd _].
      apply Ascii.eqb_eq in Hcd. exact (Hc Hcd).
    + change (Ascii.eqb c d
              && LogoStorage.startsWith (l ++ String "/" rest) (l0 ++ "/") = true)
        in Hstarts.
      apply andb_true_iff in Hstarts as [Hcd Hrest].
      apply Ascii.eqb_eq in Hcd. subst d.
      apply Forall_cons in Hl as [_ Hl].
      f_equal. exact (IH l H0 Hl Hrest).
Qed.

(** A slash-free code is not a code followed by a path. *)
Lemma locale_is_no_path l0 l rest :
  slash_free l0 -> (l ++ String "/" rest)%string <> l0.
Proof.
  revert l0. induction l as [|d l IH]; intros l0 H0 Heq.
  - change (String "/" rest = l0) in Heq. subst l0.
    apply Forall_cons in H0 as [Hc _]. exact (Hc eq_refl).
  - destruct l0 as [|c l0]; [discriminate Heq|].
    change (String d (l ++ String "/" rest) = String c l0) in Heq.
    injection Heq as _ Heq. apply Forall_cons in H0 as [_ H0].
    exact (IH l0 H0 Heq).
Qed.

Section Routing.

Variable locales : list string.
Variable defaultLocale : string.

Hypothesis locales_are_slash_free : Forall slash_free locales.

(** The two tests of the loops on a prefixed path. *)
Lemma tests_on_prefixed_path l0 locale rest :
  slash_free l0 -> slash_free locale ->
  String.eqb (localePath locale (String "/" rest)) ("/" ++ l0) = false
  /\ (LogoStorage.startsWith (localePath locale (String "/" rest))
        ("/" ++ l0 ++ "/") = true <-> l0 = locale).
Proof.
  intros H0 Hl. unfold localePath.
  change ("/" ++ locale ++ String "/" rest)%string
    with (String "/" (locale ++ String "/" rest)).
  change ("/" ++ l0)%string with (String "/" l0).
  change ("/" ++ l0 ++ "/")%string with (String "/" (l0 ++ "/")).
  split.
  - apply String.eqb_neq. intros [= Heq]. exact (locale_is_no_path _ _ _ H0 Heq).
  - change (LogoStorage.startsWith (String "/" (locale ++ String "/" rest))
              (String "/" (l0 ++ "/")))
      with (Ascii.eqb "/" "/"
            && LogoStorage.startsWith (locale ++ String "/" rest) (l0 ++ "/")).
    rewrite Ascii.eqb_refl, andb_true_l. split.
    + apply prefix_locale_eq; assumption.
    + intros ->.
      change (String "/" rest) with ("/" ++ rest)%string.
      rewrite <- append_assoc. apply startsWith_append.
Qed.

Lemma loops_on_prefixed_path ls locale rest :
  Forall slash_free ls -> locale ∈ ls ->
  stripLocale_loop ls (localePath locale (String "/" rest)) = String "/" rest
  /\ getLocale_loop defaultLocale ls (localePath locale (String "/" rest)) = locale.
Proof.
  induction ls as [|l0 ls IH]; intros Hls Hin.
  - apply elem_of_nil in Hin. contradiction.
  - apply Forall_cons in Hls as [H0 Hls].
    assert (Hl : slash_free locale).
    { apply elem_of_cons in Hin as [-> | Hin]; [exact H0|].
      rewrite Forall_forall in Hls. exact (Hls locale Hin). }
    destruct (tests_on_prefixed_path l0 locale rest H0 Hl) as [Heq Hstarts].
    cbn [stripLocale_loop getLocale_loop]. rewrite Heq. cbn [orb].
    destruct (LogoStorage.startsWith _ ("/" ++ l0 ++ "/")) eqn:Hs.
    + assert (l0 = locale) as -> by (apply Hstarts; reflexivity).
      split; [|reflexivity].
      unfold localePath.
      change ("/" ++ locale ++ String "/" rest)%string
        with (String "/" (locale ++ String "/" rest)).
      rewrite Nat.add_1_r. cbn [LogoStorage.slice]. apply slice_append.
    + apply IH; [exact Hls|].
      apply elem_of_cons in Hin as [-> | Hin]; [|exact Hin].
      exfalso. destruct Hstarts as [_ Hstarts]. discriminate (Hstarts eq_refl).
Qed.

(** X20. The middleware reads back what [localePath] wrote: for a
    locale of the routing and a path that begins with a slash,
    [stripLocale] of the prefixed path is the path and [getLocale] of it
    is the locale, when no locale code holds a slash. *)
Theorem locale_prefix_round_trip (locale rest : string) :
  locale ∈ locales ->
  stripLocale locales (localePath locale (String "/" rest)) = String "/" rest
  /\ getLocale locales defaultLocale (localePath locale (String "/" rest)) = locale.
Proof.
  intros Hin. unfold stripLocale, getLocale.
  apply loops_on_prefixed_path; [exact locales_are_slash_free | exact Hin].
Qed.

Lemma getLocale_loop_in ls pathname :
  getLocale_loop defaultLocale ls pathname ∈ ls
  \/ getLocale_loop defaultLocale ls pathname = defaultLocale.
Proof.
  induction ls as [|l0 ls IH]; [right; reflexivity|].
  cbn [getLocale_loop]. destruct (_ || _).
  - left. apply list_elem_of_here.
  - destruct IH as [IH | IH]; [left; apply list_elem_of_further, IH | right; exact IH].
Qed.

Hypothesis defaultLocale_is_a_locale : defaultLocale ∈ locales.

Lemma getLocale_is_a_locale pathname :
  getLocale locales defaultLocale pathname ∈ locales.
Proof.
  unfold getLocale.
  destruct (getLocale_loop_in locales pathname) as [H | ->];
    [exact H | exact defaultLocale_is_a_locale].
Qed.

(** X21. The middleware does not redirect twice: when no locale code
    holds a slash and the default locale is one of the locales, the
    request for the target of a redirect, with the same cookies, is
    handed on. A redirect to the login page is made only without a
    session cookie, one to the dashboard only with one, and both keep
    the locale of the request. *)
Theorem middleware_redirects_once (req : Request) (target : string) :
  middleware locales defaultLocale req = Redirect target ->
  let locale := getLocale locales defaultLocale (pathname req) in
  ((hasSessionCookie req = false /\ target = localePath locale "/login")
   \/ (hasSessionCookie req = true /\ target = localePath locale "/dashboard"))
  /\ getLocale locales defaultLocale target = locale
  /\ middleware locales defaultLocale
       {| pathname := target; cookies := cookies req |} = Intl.
Proof.
  intros Hredirect locale.
  pose proof (getLocale_is_a_locale (pathname req)) as Hlocale. fold locale in Hlocale.
  destruct (loops_on_prefixed_path locales locale "login"
              locales_are_slash_free Hlocale
              : stripLocale locales _ = _ /\ getLocale locales defaultLocale _ = _) as [Hlogin Hlogin'].
  destruct (loops_on_prefixed_path locales locale "dashboard"
              locales_are_slash_free Hlocale
              : stripLocale locales _ = _ /\ getLocale locales defaultLocale _ = _) as [Hdash Hdash'].
  unfold middleware in Hredirect. fold locale in Hredirect.
  destruct (LogoStorage.startsWith _ "/dashboard" && negb (hasSessionCookie req))
    eqn:Hfirst.
  - injection Hredirect as <-.
    apply andb_true_iff in Hfirst as [_ Hcookie].
    apply negb_true_iff in Hcookie.
    split; [left; split; [exact Hcookie | reflexivity]|].
    split; [exact Hlogin'|].
    unfold middleware. cbn [pathname].
    change ("/" ++ locale ++ "/login")%string with (localePath locale "/login").
    rewrite Hlogin. unfold hasSessionCookie in *. cbn [cookies]. rewrite Hcookie.
    reflexivity.
  - destruct ((String.eqb _ "/login" || String.eqb _ "/register")
              && hasSessionCookie req) eqn:Hsecond; [|discriminate Hredirect].
    injection Hredirect as <-.
    apply andb_true_iff in Hsecond as [_ Hcookie].
    split; [right; split; [exact Hcookie | reflexivity]|].
    split; [exact Hdash'|].
    unfold middleware. cbn [pathname].
    change ("/" ++ locale ++ "/dashboard")%string with (localePath locale "/dashboard").
    rewrite Hdash. unfold hasSessionCookie in *. cbn [cookies]. rewrite Hcookie.
    reflexivity.
Qed.

(** X22. A request for a dashboard path under the prefix of a locale
    of the routing, without a session cookie, is redirected to the
    login page of that locale; with a session cookie it is handed
    on. *)
Theorem dashboard_needs_session_cookie (req : Request) (locale rest : string) :
  locale ∈ locales ->
  pathname req = localePath locale ("/dashboard" ++ rest) ->
  middleware locales defaultLocale req
  = if hasSessionCookie req then Intl else Redirect (localePath locale "/login").
Proof.
  intros Hin Hpath.
  destruct (loops_on_prefixed_path locales locale ("dashboard" ++ rest)
              locales_are_slash_free Hin
              : stripLocale locales _ = _ /\ getLocale locales defaultLocale _ = _)
    as [Hstrip Hget].
  unfold middleware. rewrite Hpath.
  change ("/dashboard" ++ rest)%string with (String "/" ("dashboard" ++ rest)).
  rewrite Hstrip, Hget.
  change (String "/" ("dashboard" ++ rest)) with ("/dashboard" ++ rest)%string.
  rewrite startsWith_append. cbn [andb].
  destruct (hasSessionCookie req); cbn [negb andb]; [|reflexivity].
  replace (String.eqb ("/dashboard" ++ rest) "/login") with false by reflexivity.
  replace (String.eqb ("/dashboard" ++ rest) "/register") with false by reflexivity.
  reflexivity.
Qed.

(** A path that is under the prefix of no locale. *)
Definition unprefixed (path : string) : Prop :=
  forall l, l ∈ locales ->
    String.eqb path ("/" ++ l) = false
    /\ LogoStorage.startsWith path ("/" ++ l ++ "/") = false.

Lemma loops_on_unprefixed_path ls path :
  (forall l, l ∈ ls ->
     String.eqb path ("/" ++ l) = false
     /\ LogoStorage.startsWith path ("/" ++ l ++ "/") = false) ->
  stripLocale_loop ls path = path
  /\ getLocale_loop defaultLocale ls path = defaultLocale.
Proof.
  induction ls as [|l0 ls IH]; intros Hls; [split; reflexivity|].
  destruct (Hls l0 (list_elem_of_here l0 ls)) as [Heq Hstarts].
  cbn [stripLocale_loop getLocale_loop]. rewrite Heq, Hstarts. cbn [orb].
  apply IH. intros l Hl. apply Hls. apply list_elem_of_further, Hl.
Qed.

(** X23. The version of [localePath] that leaves the prefix out for
    the default locale is read back by the middleware as well, for a
    path that begins with a slash and is itself under the prefix of no
    locale: [stripLocale] gives the path and [getLocale] the locale. *)
Theorem locale_prefix_round_trip_omitting_default (locale rest : string) :
  locale ∈ locales ->
  unprefixed (String "/" rest) ->
  let written := localePath_omitting_default defaultLocale locale (String "/" rest) in
  stripLocale locales written = String "/" rest
  /\ getLocale locales defaultLocale written = locale.
Proof.
  intros Hin Hplain. cbn zeta. unfold localePath_omitting_default.
  destruct (String.eqb locale defaultLocale) eqn:Hdefault.
  - apply String.eqb_eq in Hdefault. subst locale.
    apply loops_on_unprefixed_path. exact Hplain.
  - unfold stripLocale, getLocale.
    apply (loops_on_prefixed_path locales locale rest locales_are_slash_free Hin).
Qed.

End Routing.

Lemma example_locales_are_slash_free : Forall slash_free example_locales.
Proof. repeat constructor; discriminate. Qed.

Lemma locale_prefix_round_trip_witness :
  stripLocale example_locales (localePath "uk" "/dashboard") = "/dashboard"
  /\ getLocale example_locales "en" (localePath "uk" "/dashboard") = "uk".
Proof.
  apply (locale_prefix_round_trip example_locales "en"
           example_locales_are_slash_free "uk" "dashboard").
  do 2 apply list_elem_of_further. apply list_elem_of_here.
Defined.

Lemma example_path_is_unprefixed : unprefixed example_locales "/dashboard".
Proof.
  intros l Hl.
  repeat (apply elem_of_cons in Hl as [-> | Hl]; [split; reflexivity|]).
  apply elem_of_nil in Hl. contradiction.
Qed.

Lemma locale_prefix_round_trip_omitting_default_witness :
  let written := localePath_omitting_default "en" "en" "/dashboard" in
  stripLocale example_locales written = "/dashboard"
  /\ getLocale example_locales "en" written = "en".
Proof.
  apply (locale_prefix_round_trip_omitting_default example_locales "en"
           example_locales_are_slash_free "en" "dashboard").
  - apply list_elem_of_here.
  - exact example_path_is_unprefixed.
Defined.

Lemma middleware_redirects_once_witness :
  let req := example_request "/uk/dashboard/sites" in
  let locale := getLocale example_locales "en" (pathname req) in
  ((hasSessionCookie req = false /\ "/uk/login" = localePath locale "/login")
   \/ (hasSessionCookie req = true /\ "/uk/login" = localePath locale "/dashboard"))
  /\ getLocale example_locales "en" "/uk/login" = locale
  /\ middleware example_locales "en"
       {| pathname := "/uk/login"; cookies := cookies req |} = Intl.
Proof.
  apply (middleware_redirects_once example_locales "en"
           example_locales_are_slash_free (list_elem_of_here "en" ["ru"; "uk"])
           (example_request "/uk/dashboard/sites") "/uk/login").
  vm_compute. reflexivity.
Defined.

Lemma dashboard_needs_session_cookie_witness :
  middleware example_locales "en" (example_request "/ru/dashboard/sites")
  = if hasSessionCookie (example_request "/ru/dashboard/sites")
    then Intl else Redirect (localePath "ru" "/login").
Proof.
  apply (dashboard_needs_session_cookie example_locales "en"
           example_locales_are_slash_free
           (example_request "/ru/dashboard/sites") "ru" "/sites").
  - apply list_elem_of_further, list_elem_of_here.
  - reflexivity.
Defined.

End MiddlewareFacts.

(** ** The uploads directory *)

Module FrontendRootFacts.

Import FrontendRoot.

Section Process.

Variable FRONTEND_ROOT : option string.
Variable trim : string -> string.
Variable cwd : string.
Variable existsSync : string -> bool.
Variable join : list string -> string.
Variable resolve : list string -> string.

Local Abbreviation is_root := (isFrontendRoot existsSync join).
Local Abbreviation root :=
  (getFrontendRootDir FRONTEND_ROOT trim cwd existsSync join resolve).

(** The directories tried, in the order they are tried. *)
Definition tried : list string :=
  (candidates cwd resolve ++ [join [cwd; "frontend"]])%list.

Lemma root_without_override :
  Js.truthy (option_map trim FRONTEND_ROOT) = false ->
  root = match List.find is_root tried with
         | Some dir => dir
         | None => cwd
         end.
Proof.
  intros Henv. unfold getFrontendRootDir, tried. cbn zeta. rewrite Henv.
  generalize (candidates cwd resolve). intros l.
  induction l as [|c l IH]; cbn [List.find app].
  - destruct (is_root (join [cwd; "frontend"])); reflexivity.
  - destruct (is_root c); [reflexivity | exact IH].
Qed.

(** X24. A non-blank [FRONTEND_ROOT], trimmed, is the frontend root
    whatever the directories hold. Without it the root is the first
    frontend root among the working directory, its three ancestors and
    its [frontend] subdirectory, in that order, and the working
    directory when none of them is one; the uploads directory is
    [public/uploads] under the working directory, where the logo route
    reads, whenever the working directory is a frontend root. *)
Theorem getFrontendRootDir_choice :
  let env := option_map trim FRONTEND_ROOT in
  (Js.truthy env = true -> Some root = env)
  /\ (Js.truthy env = false ->
      (forall before dir after,
         tried = (before ++ dir :: after)%list ->
         Forall (fun c => is_root c = false) before ->
         is_root dir = true ->
         root = dir)
      /\ (Forall (fun c => is_root c = false) tried -> root = cwd)
      /\ (is_root cwd = true ->
          getUploadsDir FRONTEND_ROOT trim cwd existsSync join resolve
          = join [cwd; "public"; "uploads"])).
Proof.
  cbn zeta. split.
  - unfold getFrontendRootDir. cbn zeta.
    destruct (option_map trim FRONTEND_ROOT) as [[|c s]|]; try discriminate.
    reflexivity.
  - intros Henv. rewrite (root_without_override Henv).
    assert (Hfirst : forall before dir after,
              tried = (before ++ dir :: after)%list ->
              Forall (fun c => is_root c = false) before ->
              is_root dir = true ->
              List.find is_root tried = Some dir).
    { intros before dir after -> Hbefore Hdir.
      induction Hbefore as [|c before Hc _ IH]; cbn [List.find app].
      - rewrite Hdir. reflexivity.
      - rewrite Hc. exact IH. }
    split; [|split].
    + intros before dir after Htried Hbefore Hdir.
      rewrite (Hfirst before dir after Htried Hbefore Hdir). reflexivity.
    + intros Hnone. clear Hfirst.
      induction Hnone as [|c l Hc _ IH]; cbn [List.find]; [reflexivity|].
      rewrite Hc. exact IH.
    + intros Hcwd. unfold getUploadsDir.
      rewrite (root_without_override Henv).
      rewrite (Hfirst [] cwd
                 ([resolve [cwd; ".."]; resolve [cwd; "../.."];
                   resolve [cwd; "../../.."]; join [cwd; "frontend"]])
                 eq_refl (List.Forall_nil _) Hcwd).
      reflexivity.
Qed.

End Process.

End FrontendRootFacts.
